(** * go-rollback: a shallow embedding of the rollback command

    The repository holds three programs of [package main]:
    - [src/unnamed/part_001]: the [rollback <path>] command with the
      single-file flow ([handleSingleRolloutFile]), the directory flow
      ([handleDirectoryRolloutFiles]) and the walker ([countRolloutFiles]);
      it is embedded at the top level of this file;
    - [src/unnamed/part_000]: the [cli rollback] sub-command with an inline
      selection loop and [rollbackToCommit] using [git commit -am]; it is
      embedded in [Module Cli];
    - [src/main.go]: the [cli rollback] sub-command that only prints the
      history and counts the files of a directory; it is embedded in
      [Module Legacy].

    Go strings are byte strings ([string]); [int] is [Z] (64-bit range
    checked where [strconv.Atoi] checks it).  The outside world (the
    version-control tool, the file system) is a [Host] interface; standard
    input is the list of the byte strings its successive reads deliver, and
    every prompt reads it through a [bufio.Scanner] of its own, as the
    programs do; everything the program prints and every external command
    it starts is emitted as an [event]. *)

From Stdlib Require Import String Ascii List ZArith NArith Lia Bool Arith.
From Stdlib Require Import DecimalString.
Import ListNotations.
Local Open Scope string_scope.
Local Open Scope Z_scope.

Set Implicit Arguments.
Set Warnings "-register-all".

(** ** The Go library functions the programs call *)

Module GoStrings.

Definition nl : string := String "010"%char EmptyString.

(** The ASCII white space of [strings.TrimSpace] (its [asciiSpace] table):
    tab, line feed, vertical tab, form feed, carriage return, space. *)
Definition isSpace (c : ascii) : bool :=
  let n := nat_of_ascii c in
  ((9 <=? n)%nat && (n <=? 13)%nat) || (n =? 32)%nat.

(** The other runes of [unicode.IsSpace], by their UTF-8 encodings: U+0085
    and U+00A0 take two bytes; U+1680, U+2000 to U+200A, U+2028, U+2029,
    U+202F, U+205F and U+3000 take three.  A rune has one valid encoding
    and Go decodes every other byte sequence to a rune that is no space, so
    a text starts (or ends) with a white-space rune exactly when it starts
    (or ends) with one of these byte sequences or an ASCII space. *)
Definition twoByteSpace (a b : ascii) : bool :=
  (nat_of_ascii a =? 194)%nat
  && ((nat_of_ascii b =? 133)%nat || (nat_of_ascii b =? 160)%nat).

Definition threeByteSpace (a b c : ascii) : bool :=
  let x := nat_of_ascii a in
  let y := nat_of_ascii b in
  let z := nat_of_ascii c in
  ((x =? 225) && (y =? 154) && (z =? 128))%nat
  || ((x =? 226)%nat && (y =? 128)%nat
      && (((128 <=? z)%nat && (z <=? 138)%nat)
          || (z =? 168)%nat || (z =? 169)%nat || (z =? 175)%nat))
  || ((x =? 226) && (y =? 129) && (z =? 159))%nat
  || ((x =? 227) && (y =? 128) && (z =? 128))%nat.

(** [strings.TrimLeftFunc(s, unicode.IsSpace)]: the leading white-space
    runes are dropped, one rune at a time. *)
Fixpoint trimLeft (s : string) : string :=
  match s with
  | EmptyString => EmptyString
  | String a r1 =>
      if isSpace a then trimLeft r1
      else
        match r1 with
        | EmptyString => s
        | String b r2 =>
            if twoByteSpace a b then trimLeft r2
            else
              match r2 with
              | EmptyString => s
              | String c r3 =>
                  if threeByteSpace a b c then trimLeft r3 else s
              end
        end
  end.

(** The same from the end, on the bytes in reverse order: the last rune is
    found by stepping back to the byte that starts it. *)
Fixpoint trimReversed (r : list ascii) : list ascii :=
  match r with
  | [] => []
  | a :: r1 =>
      if isSpace a then trimReversed r1
      else
        match r1 with
        | [] => r
        | b :: r2 =>
            if twoByteSpace b a then trimReversed r2
            else
              match r2 with
              | [] => r
              | c :: r3 =>
                  if threeByteSpace c b a then trimReversed r3 else r
              end
        end
  end.

(** [strings.TrimRightFunc(s, unicode.IsSpace)] *)
Definition trimRight (s : string) : string :=
  string_of_list_ascii
    (rev (trimReversed (rev (list_ascii_of_string s)))).

(** [strings.TrimSpace]: the fast path over ASCII bytes and the fall-back
    to [TrimFunc] and [TrimRightFunc] with [unicode.IsSpace] together drop
    every leading and every trailing white-space rune. *)
Definition TrimSpace (s : string) : string := trimRight (trimLeft s).

(** [strings.Split(s, sep)] for a one-byte separator: the pieces between
    the separators, always at least one piece. *)
Fixpoint Split (s : string) (sep : ascii) : list string :=
  match s with
  | EmptyString => [EmptyString]
  | String c s' =>
      if Ascii.eqb c sep then EmptyString :: Split s' sep
      else match Split s' sep with
           | [] => [String c EmptyString]
           | p :: ps => String c p :: ps
           end
  end.

(** [strings.HasSuffix]: [len(s) >= len(suffix) &&
    s[len(s)-len(suffix):] == suffix]. *)
Definition HasSuffix (s suffix : string) : bool :=
  (String.length suffix <=? String.length s)%nat &&
  String.eqb
    (substring (String.length s - String.length suffix)
               (String.length suffix) s)
    suffix.

Definition isUpper (c : ascii) : bool :=
  let n := nat_of_ascii c in (65 <=? n)%nat && (n <=? 90)%nat.

Definition lowerByte (c : ascii) : ascii :=
  if isUpper c then ascii_of_nat (nat_of_ascii c + 32) else c.

(** [strings.ToLower] on ASCII letters; other bytes are kept. *)
Fixpoint ToLower (s : string) : string :=
  match s with
  | EmptyString => EmptyString
  | String c s' => String (lowerByte c) (ToLower s')
  end.

(** One step of the byte loop of [strings.EqualFold]: the bytes are equal,
    or the smaller one is an upper-case letter and the larger one is that
    letter in lower case. *)
Definition foldEqByte (sr tr : ascii) : bool :=
  if Ascii.eqb tr sr then true
  else
    let a := nat_of_ascii sr in
    let b := nat_of_ascii tr in
    let lo := Nat.min a b in
    let hi := Nat.max a b in
    (65 <=? lo)%nat && (lo <=? 90)%nat && (hi =? lo + 32)%nat.

(** [strings.EqualFold(s, t)] for an ASCII [t] without the letters k and s
    (the only ASCII letters with a non-ASCII simple fold): the byte loop of
    the fast path, then [len(s) == len(t)].  A byte of [s] above 127 sends
    the Go code to its rune loop, which then answers false for such a [t];
    [foldEqByte] answers false on it too. *)
Fixpoint EqualFold (s t : string) : bool :=
  match s, t with
  | EmptyString, EmptyString => true
  | String a s', String b t' => foldEqByte a b && EqualFold s' t'
  | _, _ => false
  end.

End GoStrings.

Module GoStrconv.

Definition isDigit (c : ascii) : bool :=
  let n := nat_of_ascii c in (48 <=? n)%nat && (n <=? 57)%nat.

Definition digitVal (c : ascii) : Z := Z.of_nat (nat_of_ascii c) - 48.

(** The digit loop: [n = n*10 + int(ch - '0')], a syntax error on any
    other byte. *)
Fixpoint digits (acc : Z) (s : string) : option Z :=
  match s with
  | EmptyString => Some acc
  | String c s' =>
      if isDigit c then digits (acc * 10 + digitVal c) s' else None
  end.

Definition maxInt : Z := 2 ^ 63 - 1.
Definition minInt : Z := - 2 ^ 63.

Definition inRange (n : Z) : option Z :=
  if (minInt <=? n) && (n <=? maxInt) then Some n else None.

(** [strconv.Atoi]: an optional sign, then at least one decimal digit and
    nothing else; a value outside [int] is a range error.  [None] stands
    for [err != nil]. *)
Definition Atoi (s : string) : option Z :=
  match s with
  | EmptyString => None
  | String c rest =>
      if Ascii.eqb c "-"%char then
        match rest with
        | EmptyString => None
        | _ => match digits 0 rest with
               | Some n => inRange (- n)
               | None => None
               end
        end
      else if Ascii.eqb c "+"%char then
        match rest with
        | EmptyString => None
        | _ => match digits 0 rest with
               | Some n => inRange n
               | None => None
               end
        end
      else match digits 0 s with
           | Some n => inRange n
           | None => None
           end
  end.

(** [strconv.Itoa] and the [%d] verb. *)
Definition Itoa (n : Z) : string := NilZero.string_of_int (Z.to_int n).

End GoStrconv.

Module GoBufio.

Definition startBufSize : N := 4096.
Definition MaxScanTokenSize : N := 65536.

Definition len (s : string) : N := N.of_nat (String.length s).

(** Standard input as a reader sees it: the byte strings its successive
    reads will deliver (on a terminal a read delivers a line with its line
    feed; on a pipe or a file it delivers all there is, up to the room
    offered).  [os.Stdin.Read] with room for [room] bytes takes the first of
    them, or as much of it as fits and leaves the remainder for the next
    read.  An empty string stands for a read of zero bytes, which
    [os.File.Read] reports as [io.EOF] (the end of a file or a pipe, the
    end-of-file key on a terminal); every read after the last string is one
    too.  [None] stands for [io.EOF]; a read that fails otherwise ends a
    scan in the same way. *)
Definition Read (room : N) (input : list string)
  : option string * list string :=
  match input with
  | [] => (None, [])
  | piece :: rest =>
      if String.eqb piece EmptyString then (None, rest)
      else if (len piece <=? room)%N then (Some piece, rest)
      else (Some (substring 0 (N.to_nat room) piece),
            substring (N.to_nat room)
                      (String.length piece - N.to_nat room) piece :: rest)
  end.

(** [bytes.IndexByte(data, '\n')] *)
Fixpoint indexNewline (data : string) : option nat :=
  match data with
  | EmptyString => None
  | String c rest =>
      if Ascii.eqb c "010"%char then Some 0%nat
      else option_map Datatypes.S (indexNewline rest)
  end.

(** [dropCR]: one trailing carriage return is dropped. *)
Fixpoint dropCR (data : string) : string :=
  match data with
  | EmptyString => EmptyString
  | String c EmptyString =>
      if Ascii.eqb c "013"%char then EmptyString else data
  | String c rest => String c (dropCR rest)
  end.

(** [bufio.ScanLines]: the token, if the data hold one.  (The number of
    bytes to advance by is not modelled: the programs make one [Scan] per
    scanner.) *)
Definition ScanLines (data : string) (atEOF : bool) : option string :=
  if atEOF && String.eqb data EmptyString then None
  else
    match indexNewline data with
    | Some i => Some (dropCR (substring 0 i data))
    | None => if atEOF then Some (dropCR data) else None
    end.

(** The buffer of a scanner grows from nothing to [startBufSize] and then
    doubles, up to [MaxScanTokenSize]. *)
Definition grow (size : N) : N :=
  if (size =? 0)%N then startBufSize
  else N.min (2 * size) MaxScanTokenSize.

(** The loop of [Scanner.Scan] on a scanner that has given no token yet,
    followed by [Text]: [buf] is the data held, [size] is [len(s.buf)].  A
    turn looks for a token in the data; without one it stops with the error
    [ErrTooLong] (and the empty text) when the buffer is full at its largest
    size, and else grows a full buffer and reads.  At [io.EOF] what is held
    is the last token.  The result is the text and what is left of the
    input; [fuel] bounds the number of turns, [ScanText] gives as many as
    the input can feed, and more would change nothing (lemma
    [scan_fuel]). *)
Fixpoint scan (fuel : nat) (buf : string) (size : N) (input : list string)
  : string * list string :=
  match fuel with
  | O => (EmptyString, input)
  | Datatypes.S fuel' =>
      match ScanLines buf false with
      | Some token => (token, input)
      | None =>
          if (len buf =? size)%N && (MaxScanTokenSize <=? size)%N
          then (EmptyString, input)
          else
            let size' := if (len buf =? size)%N then grow size else size in
            match Read (size' - len buf) input with
            | (None, rest) =>
                (match ScanLines buf true with
                 | Some token => token
                 | None => EmptyString
                 end, rest)
            | (Some data, rest) => scan fuel' (buf ++ data) size' rest
            end
      end
  end.

(** A bound on the reads that deliver something: every such read takes a
    string of the input or shortens its first one. *)
Fixpoint pending (input : list string) : nat :=
  match input with
  | [] => O
  | piece :: rest => Datatypes.S (String.length piece + pending rest)
  end.

(** [scanner := bufio.NewScanner(os.Stdin); scanner.Scan(); scanner.Text()]:
    the text, and the input left when the scanner is dropped.  Whatever the
    scanner has read beyond the first line is lost with it. *)
Definition ScanText (input : list string) : string * list string :=
  scan (Datatypes.S (pending input)) EmptyString 0 input.

End GoBufio.

Import GoStrings GoStrconv GoBufio.

(** ** The outside world *)

(** Go's [error] values that reach the programs: the two sentinels of
    [path/filepath] and errors of the operating system with their text. *)
Inductive error : Type :=
| SkipDir
| SkipAll
| OsError (msg : string).

Definition errorText (e : error) : string :=
  match e with
  | SkipDir => "skip this directory"
  | SkipAll => "skip everything and stop the walk"
  | OsError msg => msg
  end.

Definition isSkipDir (e : error) : bool :=
  match e with SkipDir => true | _ => false end.

(** What the programs read of an [os.FileInfo]. *)
Record FileInfo : Type := mkFileInfo { Name : string; IsDir : bool }.

(** The part of the file system a walk sees below a root: [Missing] is an
    entry whose [os.Lstat] fails, [File] any entry that is not a directory,
    [Dir] a directory with the error of reading its names (if any) and its
    entries in the order [readDirNames] gives them. *)
Inductive fsnode : Type :=
| Missing (name : string) (err : string)
| File (name : string)
| Dir (name : string) (readErr : option string) (entries : list fsnode).

Definition nodeName (n : fsnode) : string :=
  match n with
  | Missing name _ => name
  | File name => name
  | Dir name _ _ => name
  end.

Definition nodeIsDir (n : fsnode) : bool :=
  match n with Dir _ _ _ => true | _ => false end.

(** [os.Stat] as the commands use it: the entry exists (directory or not),
    it does not exist, or the call fails otherwise. *)
Inductive stat_result : Type :=
| StatInfo (isDir : bool)
| StatNotExist
| StatError (err : string).

(** [cmd.Output()]: the captured standard output, or the error. *)
Inductive cmd_result : Type :=
| CmdOk (stdout : string)
| CmdErr (err : string).

(** The collaborators of the command.  [cmd_output] answers the read-only
    queries ([rev-parse], [branch], [log]); [cmd_run] runs a command that may
    change the repository and gives the new state and the error of
    [cmd.Run()]. *)
Record Host (S : Type) : Type := mkHost {
  os_stat : S -> string -> stat_result;
  cmd_output : S -> list string -> cmd_result;
  cmd_run : S -> list string -> S * option string;
  fs_tree : S -> string -> fsnode;
  path_join : string -> string -> string
}.

(** What an observer sees the process do. *)
Inductive event : Type :=
| Stdout (text : string)
| Exec (argv : list string).

(** A command line that changes the repository: [git checkout ...] or
    [git commit ...]. *)
Definition isCheckout (argv : list string) : bool :=
  match argv with
  | g :: c :: _ => String.eqb g "git" && String.eqb c "checkout"
  | _ => false
  end.

Definition isCommit (argv : list string) : bool :=
  match argv with
  | g :: c :: _ => String.eqb g "git" && String.eqb c "commit"
  | _ => false
  end.

Definition mutating (e : event) : bool :=
  match e with
  | Exec argv => isCheckout argv || isCommit argv
  | Stdout _ => false
  end.

Definition noMutation (tr : list event) : Prop :=
  forallb (fun e => negb (mutating e)) tr = true.

(** The commands started, in order. *)
Fixpoint commands (tr : list event) : list (list string) :=
  match tr with
  | [] => []
  | Exec argv :: tr' => argv :: commands tr'
  | Stdout _ :: tr' => commands tr'
  end.

(** The text written to standard output. *)
Fixpoint printed (tr : list event) : string :=
  match tr with
  | [] => EmptyString
  | Stdout s :: tr' => s ++ printed tr'
  | Exec _ :: tr' => printed tr'
  end.

(** ** Programs: state, output and early exit *)

(** The state a program threads: the host and standard input, as the
    strings its reads have still to deliver (see [GoBufio.Read]). *)
Record state (S : Type) : Type := mkState {
  st_host : S;
  st_stdin : list string
}.

(** How a piece of program ends: it returns, the process exits
    ([os.Exit]), or it loops for ever. *)
Inductive result (A : Type) : Type :=
| Return (a : A)
| Exit (code : Z)
| Diverge.
Arguments Exit {A} code.
Arguments Diverge {A}.

Definition Prog (S A : Type) : Type :=
  state S -> list event * state S * result A.

Definition ret {S A} (a : A) : Prog S A := fun st => ([], st, Return a).

Definition bind {S A B} (m : Prog S A) (k : A -> Prog S B) : Prog S B :=
  fun st =>
    match m st with
    | (ev1, st1, Return a) =>
        match k a st1 with
        | (ev2, st2, r) => ((ev1 ++ ev2)%list, st2, r)
        end
    | (ev1, st1, Exit c) => (ev1, st1, Exit c)
    | (ev1, st1, Diverge) => (ev1, st1, Diverge)
    end.

Notation "x <- m ;; k" := (bind m (fun x => k))
  (at level 61, m at next level, right associativity).
Notation "m ;;; k" := (bind m (fun _ => k))
  (at level 61, right associativity).

Definition osExit {S A} (code : Z) : Prog S A := fun st => ([], st, Exit code).
Definition diverge {S A} : Prog S A := fun st => ([], st, Diverge).

(** [fmt.Print] and friends, with the text already formatted. *)
Definition print {S} (text : string) : Prog S unit :=
  fun st => ([Stdout text], st, Return tt).

(** [scanner := bufio.NewScanner(os.Stdin); scanner.Scan();
    scanner.Text()]: the first line of what the scanner reads (the empty
    text at the end of the input); the rest of what it has read is gone
    with the scanner. *)
Definition scanText {S} : Prog S string :=
  fun st =>
    ([], mkState (st_host st) (snd (GoBufio.ScanText (st_stdin st))),
     Return (fst (GoBufio.ScanText (st_stdin st)))).

(** The exit status of the process when [Run] ends as [r]. *)
Definition exitStatus {A} (r : result A) : option Z :=
  match r with
  | Return _ => Some 0
  | Exit c => Some c
  | Diverge => None
  end.

(** [filepath.Walk(root, fn)] over the tree found at [root].  The callback
    receives the path and either the entry's information ([err == nil]) or
    the error together with whatever information there is; its own state
    (the variables its closure captures) is threaded through. *)
Inductive walk_arg : Type :=
| Visit (info : FileInfo)
| Failed (info : option FileInfo) (err : error).

Definition WalkFunc (St : Type) : Type :=
  string -> walk_arg -> St -> St * option error.

Section Walk.
Variable St : Type.
Variable Join : string -> string -> string.
Variable fn : WalkFunc St.

(** The loop of [walk] over the names of a directory: [Lstat] each entry,
    report a failure to the callback, walk the others; [SkipDir] from a
    failed entry or from a directory moves on to the next name, any other
    error ends the loop. *)
Definition walkNames (rec : string -> fsnode -> St -> St * option error)
           (path : string) : list fsnode -> St -> St * option error :=
  fix each (es : list fsnode) (st : St) {struct es} : St * option error :=
    match es with
    | [] => (st, None)
    | e :: es' =>
        let filename := Join path (nodeName e) in
        match e with
        | Missing _ err =>
            match fn filename (Failed None (OsError err)) st with
            | (st', None) => each es' st'
            | (st', Some SkipDir) => each es' st'
            | (st', Some e') => (st', Some e')
            end
        | _ =>
            match rec filename e st with
            | (st', None) => each es' st'
            | (st', Some e') =>
                if negb (nodeIsDir e) || negb (isSkipDir e')
                then (st', Some e')
                else each es' st'
            end
        end
    end.

(** [walk(path, info, walkFn)] of [path/filepath], for an entry whose
    [Lstat] gave [info]: a non-directory is handed to the callback; a
    directory is handed to it together with the error of reading its names,
    and walked when there is neither that error nor one from the callback.
    ([Missing] is the root whose [Lstat] failed, see [Walk].) *)
Fixpoint walk (path : string) (node : fsnode) (st : St) {struct node}
  : St * option error :=
  match node with
  | Missing _ err => fn path (Failed None (OsError err)) st
  | File name => fn path (Visit (mkFileInfo name false)) st
  | Dir name readErr entries =>
      let info := mkFileInfo name true in
      let '(st1, err1) :=
        match readErr with
        | Some e => fn path (Failed (Some info) (OsError e)) st
        | None => fn path (Visit info) st
        end in
      match readErr, err1 with
      | None, None => walkNames walk path entries st1
      | _, _ => (st1, err1)
      end
  end.

Definition Walk (root : string) (tree : fsnode) (st : St)
  : St * option error :=
  match walk root tree st with
  | (st', Some SkipDir) => (st', None)
  | (st', Some SkipAll) => (st', None)
  | r => r
  end.
End Walk.

(** ** The rollback command ([src/unnamed/part_001]) *)

Definition targetName : string := "rollout.yaml".

Definition protectedBranches : list string := ["master"; "develop"; "main"].

Definition minusOne (n : Z) : nat := Z.to_nat (n - 1).

Section Rollback.
Variable S : Type.
Variable host : Host S.

Definition osStat (path : string) : Prog S stat_result :=
  fun st => ([], st, Return (os_stat host (st_host st) path)).

(** [exec.Command(argv...).Output()] *)
Definition cmdOutput (argv : list string) : Prog S cmd_result :=
  fun st => ([Exec argv], st, Return (cmd_output host (st_host st) argv)).

(** [cmd.Run()] with the standard streams passed through. *)
Definition cmdRun (argv : list string) : Prog S (option string) :=
  fun st =>
    let '(h, err) := cmd_run host (st_host st) argv in
    ([Exec argv], mkState h (st_stdin st), Return err).

Definition revParseArgv : list string :=
  ["git"; "rev-parse"; "--is-inside-work-tree"].
Definition branchArgv : list string :=
  ["git"; "branch"; "--show-current"].
Definition logArgv (filePath : string) : list string :=
  ["git"; "log"; "--pretty=format:%h, %an, %ad, %s";
   "--date=format:%Y-%m-%d %H:%M:%S"; "-n"; "10"; "--"; filePath].
Definition checkoutArgv (filePath commit : string) : list string :=
  ["git"; "checkout"; commit; "--"; filePath].
Definition commitMessage (filePath commit : string) : string :=
  "Successfully rolled back '" ++ filePath ++ "' to commit " ++ commit.
Definition commitArgv (filePath commit : string) : list string :=
  ["git"; "commit"; "-m"; commitMessage filePath commit; filePath].

Definition protectedError (branch : string) : string :=
  "current branch '" ++ branch ++ "' is a protected branch".

Definition isGitRepo : Prog S (bool * string * option string) :=
  out <- cmdOutput revParseArgv ;;
  match out with
  | CmdErr _ => ret (false, EmptyString, Some "not a git repository")
  | CmdOk out =>
      let isRepo := String.eqb (TrimSpace out) "true" in
      if negb isRepo
      then ret (false, EmptyString, Some "not a git repository")
      else
        branchOut <- cmdOutput branchArgv ;;
        match branchOut with
        | CmdErr _ =>
            ret (false, EmptyString, Some "failed to get the current branch")
        | CmdOk branchOut =>
            let currentBranch := TrimSpace branchOut in
            if existsb (String.eqb currentBranch) protectedBranches
            then ret (true, currentBranch,
                      Some (protectedError currentBranch))
            else ret (true, currentBranch, None)
        end
  end.

Definition historyLine (i : Z) (line : string) : string :=
  if i + 1 <? 10
  then " " ++ Itoa (i + 1) ++ ". " ++ line ++ nl
  else Itoa (i + 1) ++ ". " ++ line ++ nl.

Fixpoint printHistory (i : Z) (history : list string) : Prog S unit :=
  match history with
  | [] => ret tt
  | line :: rest => print (historyLine i line) ;;; printHistory (i + 1) rest
  end.

Definition getFileGitHistory (filePath : string)
  : Prog S (list string * option string) :=
  output <- cmdOutput (logArgv filePath) ;;
  match output with
  | CmdErr err => ret ([], Some ("failed to retrieve git history: " ++ err))
  | CmdOk output =>
      let history := Split (TrimSpace output) "010"%char in
      print (nl ++ "Git history for '" ++ filePath ++ "':" ++ nl) ;;;
      printHistory 0 history ;;;
      ret (history, None)
  end.

Definition rollbackToCommit (filePath commit : string)
  : Prog S (option string) :=
  err <- cmdRun (checkoutArgv filePath commit) ;;
  match err with
  | Some e => ret (Some ("failed to checkout commit: " ++ e))
  | None =>
      err <- cmdRun (commitArgv filePath commit) ;;
      match err with
      | Some e => ret (Some ("failed to create commit: " ++ e))
      | None => ret None
      end
  end.

(** The closure given to [filepath.Walk]; its state is [files]. *)
Definition collectRollout : WalkFunc (list string) :=
  fun path arg files =>
    match arg with
    | Failed _ err => (files, Some err)
    | Visit info =>
        if negb (IsDir info) && EqualFold (Name info) targetName
        then ((files ++ [path])%list, None)
        else (files, None)
    end.

Definition countRolloutFiles (dirPath : string)
  : Prog S (list string * option error) :=
  fun st =>
    let tree := fs_tree host (st_host st) dirPath in
    match Walk (path_join host) collectRollout dirPath tree [] with
    | (_, Some err) => ([], st, Return ([], Some err))
    | (files, None) => ([], st, Return (files, None))
    end.

Definition promptText (defaultIndex : Z) : string :=
  "Enter the number of the commit to rollback to [" ++ Itoa defaultIndex
  ++ "]: ".

Definition defaultIndexOf (history : list string) : Z :=
  if Z.of_nat (List.length history) <? 2
  then Z.of_nat (List.length history)
  else 2.

(** What one turn of the loop does with the text it has read. *)
Inductive turn : Type := Continue | Break.

Definition selectTurn (filePath : string) (history : list string)
           (input : string) : Prog S turn :=
  let defaultIndex := defaultIndexOf history in
  let input := if String.eqb input EmptyString
               then Itoa defaultIndex else input in
  match Atoi input with
  | None =>
      print ("Invalid number. Please try again." ++ nl) ;;; ret Continue
  | Some index =>
      if (index <? 1) || (Z.of_nat (List.length history) <? index)
      then print ("Invalid number. Please try again." ++ nl) ;;;
           ret Continue
      else if index =? 1
      then print ("No rollback has been done for '" ++ filePath
                  ++ "' because it is already at commit number 1." ++ nl) ;;;
           ret Break
      else
        let commit :=
          hd EmptyString
             (Split (nth (minusOne index) history EmptyString) ","%char) in
        err <- rollbackToCommit filePath commit ;;
        match err with
        | Some e => print ("Error rolling back: " ++ e ++ nl) ;;; osExit 1
        | None =>
            print ("Successfully rolled back '" ++ filePath
                   ++ "' to commit " ++ commit ++ "." ++ nl) ;;;
            ret Break
        end
  end.

(** The [for] loop of [handleSingleRolloutFile]: the prompt, a new scanner
    and its one line, the turn.  A turn that continues leaves the state as
    it was after the read; at the end of the input it will read the empty
    text again and continue again, so the loop goes on for ever.  [fuel]
    bounds the number of turns that are started; [selectLoop] gives as many
    as the input can feed, and more would change nothing (lemma
    [selectTurns_fuel]). *)
Fixpoint selectTurns (fuel : nat) (filePath : string) (history : list string)
  : Prog S unit :=
  match fuel with
  | O => diverge
  | Datatypes.S fuel' =>
      fun st =>
        (print (promptText (defaultIndexOf history)) ;;;
         input <- scanText ;;
         t <- selectTurn filePath history input ;;
         match t with
         | Break => ret tt
         | Continue =>
             match st_stdin st with
             | [] => diverge
             | _ :: _ => selectTurns fuel' filePath history
             end
         end) st
  end.

(** The loop with the turns its input allows: every turn that finds input
    uses some of it. *)
Definition selectLoop (filePath : string) (history : list string)
  : Prog S unit :=
  fun st =>
    selectTurns (Datatypes.S (pending (st_stdin st))) filePath history st.

Definition handleSingleRolloutFile (filePath : string) : Prog S unit :=
  r <- getFileGitHistory filePath ;;
  match r with
  | (_, Some err) => print ("Error: " ++ err ++ nl) ;;; osExit 1
  | (history, None) => selectLoop filePath history
  end.

Fixpoint printFiles (files : list string) : Prog S unit :=
  match files with
  | [] => ret tt
  | file :: rest => print (file ++ nl) ;;; printFiles rest
  end.

Fixpoint handleEach (files : list string) : Prog S unit :=
  match files with
  | [] => ret tt
  | file :: rest => handleSingleRolloutFile file ;;; handleEach rest
  end.

Definition handleDirectoryRolloutFiles (dirPath : string) : Prog S unit :=
  r <- countRolloutFiles dirPath ;;
  match r with
  | (_, Some err) =>
      print ("Error walking the directory: " ++ errorText err ++ nl) ;;;
      osExit 1
  | (files, None) =>
      let n := Z.of_nat (List.length files) in
      print ("Found " ++ Itoa n ++ " rollout.yaml files:" ++ nl) ;;;
      printFiles files ;;;
      print ("Would you like to continue with rolling back all " ++ Itoa n
             ++ " of these files? (yes/no): ") ;;;
      response <- scanText ;;
      if negb (String.eqb (ToLower response) "yes")
      then print ("Operation aborted by the user." ++ nl) ;;; osExit 0
      else
        print ("Proceeding with rollback for all rollout.yaml files..."
               ++ nl) ;;;
        handleEach files
  end.

(** [rootCmd.Run] with its one argument. *)
Definition Run (inputPath : string) : Prog S unit :=
  info <- osStat inputPath ;;
  match info with
  | StatNotExist =>
      print ("The path '" ++ inputPath ++ "' does not exist." ++ nl) ;;;
      osExit 1
  | _ =>
      r <- isGitRepo ;;
      match r with
      | (_, _, Some err) => print ("Error: " ++ err ++ nl) ;;; osExit 1
      | (_, _, None) =>
          if HasSuffix inputPath targetName
          then handleSingleRolloutFile inputPath
          else handleDirectoryRolloutFiles inputPath
      end
  end.

End Rollback.

(** ** A small repository implementing [Host]

    An in-memory stand-in for the version-control tool and the file system,
    used to run the programs on concrete scenarios.  A checkout of a path at
    a revision overwrites the working copy; a commit with a path records the
    changed files among the paths given, a commit with [-a] records every
    changed tracked file; a commit with nothing to record fails. *)
Module Repo.

Fixpoint lookup {A} (k : string) (l : list (string * A)) : option A :=
  match l with
  | [] => None
  | (k', v) :: l' => if String.eqb k k' then Some v else lookup k l'
  end.

Fixpoint update {A} (k : string) (v : A) (l : list (string * A))
  : list (string * A) :=
  match l with
  | [] => [(k, v)]
  | (k', v') :: l' =>
      if String.eqb k k' then (k, v) :: l' else (k', v') :: update k v l'
  end.

Record t : Type := mk {
  insideWorkTree : bool;
  branch : string;
  existing : list (string * bool);
  trees : list (string * fsnode);
  logs : list (string * string);
  revisions : list (string * list (string * string));
  headTree : list (string * string);
  workTree : list (string * string);
  commitBlocked : bool;
  commitsMade : list (string * list string)
}.

Definition sameContent (a b : option string) : bool :=
  match a, b with
  | Some x, Some y => String.eqb x y
  | None, None => true
  | _, _ => false
  end.

(** The tracked files whose working copy differs from the last commit. *)
Definition changedPaths (r : t) : list string :=
  filter (fun p => negb (sameContent (lookup p (workTree r))
                                     (lookup p (headTree r))))
         (map fst (workTree r)).

Definition setWork (r : t) (w : list (string * string)) : t :=
  mk (insideWorkTree r) (branch r) (existing r) (trees r) (logs r)
     (revisions r) (headTree r) w (commitBlocked r) (commitsMade r).

Definition record (r : t) (msg : string) (paths : list string) : t :=
  mk (insideWorkTree r) (branch r) (existing r) (trees r) (logs r)
     (revisions r)
     (fold_left
        (fun h p => match lookup p (workTree r) with
                    | Some c => update p c h
                    | None => h
                    end) paths (headTree r))
     (workTree r) (commitBlocked r) ((msg, paths) :: commitsMade r).

Definition failed : option string := Some "exit status 1".

Definition commit (r : t) (msg : string) (paths : list string)
  : t * option string :=
  if commitBlocked r then (r, failed)
  else match paths with
       | [] => (r, failed)
       | _ => (record r msg paths, None)
       end.

Definition run (r : t) (argv : list string) : t * option string :=
  match argv with
  | [g; c; a1; a2; a3] =>
      if String.eqb g "git" && String.eqb c "checkout" && String.eqb a2 "--"
      then match lookup a1 (revisions r) with
           | Some tree =>
               match lookup a3 tree with
               | Some content =>
                   (setWork r (update a3 content (workTree r)), None)
               | None => (r, failed)
               end
           | None => (r, failed)
           end
      else if String.eqb g "git" && String.eqb c "commit" && String.eqb a1 "-m"
      then commit r a2 (filter (String.eqb a3) (changedPaths r))
      else (r, failed)
  | [g; c; a1; a2] =>
      if String.eqb g "git" && String.eqb c "commit" && String.eqb a1 "-am"
      then commit r a2 (changedPaths r)
      else (r, failed)
  | _ => (r, failed)
  end.

Definition output (r : t) (argv : list string) : cmd_result :=
  match argv with
  | [g; c; a1] =>
      if String.eqb c "rev-parse"
      then CmdOk ((if insideWorkTree r then "true" else "false") ++ nl)
      else if String.eqb c "branch" then CmdOk (branch r ++ nl)
      else CmdErr "exit status 1"
  | [g; c; _; _; _; _; _; filePath] =>
      if String.eqb c "log"
      then match lookup filePath (logs r) with
           | Some text => CmdOk text
           | None => CmdErr "exit status 128"
           end
      else CmdErr "exit status 1"
  | _ => CmdErr "exit status 1"
  end.

Definition stat (r : t) (path : string) : stat_result :=
  match lookup path (existing r) with
  | Some d => StatInfo d
  | None => StatNotExist
  end.

Definition tree (r : t) (root : string) : fsnode :=
  match lookup root (trees r) with
  | Some n => n
  | None => Missing root "no such file or directory"
  end.

Definition join (dir name : string) : string := dir ++ "/" ++ name.

Definition host : Host t := mkHost stat output run tree join.

End Repo.

(** ** The [cli rollback] sub-command with the inline loop
    ([src/unnamed/part_000]) *)
Module Cli.
Section Cli.
Variable S : Type.
Variable host : Host S.

Definition commitAllArgv (filePath commit : string) : list string :=
  ["git"; "commit"; "-am"; commitMessage filePath commit].

Fixpoint printHistory (i : Z) (history : list string) : Prog S unit :=
  match history with
  | [] => ret tt
  | line :: rest =>
      print (Itoa (i + 1) ++ ". " ++ line ++ nl) ;;; printHistory (i + 1) rest
  end.

Definition getFileGitHistory (filePath : string)
  : Prog S (list string * option string) :=
  output <- cmdOutput host (logArgv filePath) ;;
  match output with
  | CmdErr err => ret ([], Some ("failed to retrieve git history: " ++ err))
  | CmdOk output =>
      let history := Split (TrimSpace output) "010"%char in
      print ("Git history for '" ++ filePath ++ "':" ++ nl) ;;;
      printHistory 0 history ;;;
      ret (history, None)
  end.

Definition rollbackToCommit (filePath commit : string)
  : Prog S (option string) :=
  err <- cmdRun host (checkoutArgv filePath commit) ;;
  match err with
  | Some e => ret (Some ("failed to checkout commit: " ++ e))
  | None =>
      err <- cmdRun host (commitAllArgv filePath commit) ;;
      match err with
      | Some e => ret (Some ("failed to create commit: " ++ e))
      | None => ret None
      end
  end.

Definition selectTurn (inputPath : string) (history : list string)
           (input : string) : Prog S turn :=
  let defaultIndex := defaultIndexOf history in
  let input := if String.eqb input EmptyString
               then Itoa defaultIndex else input in
  match Atoi input with
  | None =>
      print ("Invalid number. Please try again." ++ nl) ;;; ret Continue
  | Some index =>
      if (index <? 1) || (Z.of_nat (List.length history) <? index)
      then print ("Invalid number. Please try again." ++ nl) ;;;
           ret Continue
      else
        let commit :=
          hd EmptyString
             (Split (nth (minusOne index) history EmptyString) ","%char) in
        err <- rollbackToCommit inputPath commit ;;
        match err with
        | Some e => print ("Error rolling back: " ++ e ++ nl) ;;; osExit 1
        | None =>
            print ("Successfully rolled back '" ++ inputPath
                   ++ "' to commit " ++ commit ++ "." ++ nl) ;;;
            ret Break
        end
  end.

(** The inline [for] loop, turn by turn as in [selectTurns] above. *)
Fixpoint selectTurns (fuel : nat) (inputPath : string) (history : list string)
  : Prog S unit :=
  match fuel with
  | O => diverge
  | Datatypes.S fuel' =>
      fun st =>
        (print (promptText (defaultIndexOf history)) ;;;
         input <- scanText ;;
         t <- selectTurn inputPath history input ;;
         match t with
         | Break => ret tt
         | Continue =>
             match st_stdin st with
             | [] => diverge
             | _ :: _ => selectTurns fuel' inputPath history
             end
         end) st
  end.

Definition selectLoop (inputPath : string) (history : list string)
  : Prog S unit :=
  fun st =>
    selectTurns (Datatypes.S (pending (st_stdin st))) inputPath history st.

(** [rollbackCmd.Run] with its one argument. *)
Definition Run (inputPath : string) : Prog S unit :=
  info <- osStat host inputPath ;;
  match info with
  | StatNotExist =>
      print ("The path '" ++ inputPath ++ "' does not exist." ++ nl) ;;;
      osExit 1
  | _ =>
      r <- isGitRepo host ;;
      match r with
      | (_, _, Some err) => print ("Error: " ++ err ++ nl) ;;; osExit 1
      | (_, _, None) =>
          if HasSuffix inputPath targetName
          then
            r <- getFileGitHistory inputPath ;;
            match r with
            | (_, Some err) => print ("Error: " ++ err ++ nl) ;;; osExit 1
            | (history, None) => selectLoop inputPath history
            end
          else print ("The file is not named 'rollout.yaml'." ++ nl)
      end
  end.
End Cli.
End Cli.

(** ** The [cli rollback] sub-command that inspects only ([src/main.go]) *)
Module Legacy.
Section Legacy.
Variable S : Type.
Variable host : Host S.

(** The closure given to [filepath.Walk]; its state is [count]. *)
Definition countNamed : WalkFunc Z :=
  fun path arg count =>
    match arg with
    | Failed _ err => (count, Some err)
    | Visit info =>
        if EqualFold (Name info) targetName
        then (count + 1, None)
        else (count, None)
    end.

Definition getFileGitHistory (filePath : string) : Prog S (option string) :=
  output <- cmdOutput host (logArgv filePath) ;;
  match output with
  | CmdErr err => ret (Some ("failed to retrieve git history: " ++ err))
  | CmdOk output =>
      let lines := Split (TrimSpace output) "010"%char in
      print ("Git history for '" ++ filePath ++ "':" ++ nl) ;;;
      Cli.printHistory 0 lines ;;;
      ret None
  end.

Definition walkCount (inputPath : string) : Prog S (Z * option error) :=
  fun st =>
    ([], st,
     Return (Walk (path_join host) countNamed inputPath
                  (fs_tree host (st_host st) inputPath) 0)).

Definition directoryBranch (inputPath : string) : Prog S unit :=
  print ("The path '" ++ inputPath ++ "' exists and is a directory." ++ nl) ;;;
  r <- walkCount inputPath ;;
  match r with
  | (_, Some err) =>
      print ("Error walking the directory: " ++ errorText err ++ nl) ;;;
      osExit 1
  | (count, None) =>
      print ("Found " ++ Itoa count
             ++ " files named 'rollout.yaml' in the directory '"
             ++ inputPath ++ "'." ++ nl) ;;;
      print "Would you like to continue? (yes/no): " ;;;
      response <- scanText ;;
      if negb (String.eqb (ToLower response) "yes")
      then print ("Operation aborted by the user." ++ nl) ;;; osExit 0
      else print ("Operation was continued by the user." ++ nl)
  end.

Definition fileBranch (inputPath : string) : Prog S unit :=
  print ("The path '" ++ inputPath ++ "' exists and is a file." ++ nl) ;;;
  if HasSuffix inputPath targetName
  then
    err <- getFileGitHistory inputPath ;;
    match err with
    | Some e => print ("Error: " ++ e ++ nl) ;;; osExit 1
    | None => ret tt
    end
  else print ("The file is not named 'rollout.yaml'." ++ nl).

(** [rollbackCmd.Run] with its one argument.  When [os.Stat] fails with an
    error other than not-exist, [info] is nil and [info.IsDir()] panics
    (exit status 2). *)
Definition Run (inputPath : string) : Prog S unit :=
  info <- osStat host inputPath ;;
  match info with
  | StatNotExist =>
      print ("The path '" ++ inputPath ++ "' does not exist." ++ nl) ;;;
      osExit 1
  | _ =>
      r <- isGitRepo host ;;
      match r with
      | (_, _, Some err) => print ("Error: " ++ err ++ nl) ;;; osExit 1
      | (_, _, None) =>
          match info with
          | StatInfo true => directoryBranch inputPath
          | StatInfo false => fileBranch inputPath
          | _ => osExit 2
          end
      end
  end.
End Legacy.
End Legacy.

(** ** Observations used in the statements *)

(** The branch the guard would find checked out, and whether the work-tree
    query answers [true]. *)
Definition currentBranch {S} (host : Host S) (st : state S) : option string :=
  match cmd_output host (st_host st) branchArgv with
  | CmdOk out => Some (TrimSpace out)
  | CmdErr _ => None
  end.

Definition insideWorkTree {S} (host : Host S) (st : state S) : bool :=
  match cmd_output host (st_host st) revParseArgv with
  | CmdOk out => String.eqb (TrimSpace out) "true"
  | CmdErr _ => false
  end.

Definition pathExists {S} (host : Host S) (st : state S) (path : string)
  : bool :=
  match os_stat host (st_host st) path with
  | StatNotExist => false
  | _ => true
  end.

Definition events {S A} (x : list event * state S * result A) : list event :=
  fst (fst x).
Definition finalState {S A} (x : list event * state S * result A) : state S :=
  snd (fst x).
Definition outcome {S A} (x : list event * state S * result A) : result A :=
  snd x.

(** The text of a history entry before its first comma (the whole entry when
    it has none). *)
Fixpoint beforeComma (s : string) : string :=
  match s with
  | EmptyString => EmptyString
  | String c s' =>
      if Ascii.eqb c ","%char then EmptyString else String c (beforeComma s')
  end.

(** The index a text read at the prompt selects: the default for the empty
    text. *)
Definition selectedIndex (history : list string) (input : string) : option Z :=
  Atoi (if String.eqb input EmptyString
        then Itoa (defaultIndexOf history) else input).

(** A text the prompt rejects: not empty, and not a number or a number
    outside [1, len(history)]. *)
Definition rejected (history : list string) (input : string) : bool :=
  negb (String.eqb input EmptyString) &&
  match Atoi input with
  | None => true
  | Some index => (index <? 1) || (Z.of_nat (List.length history) <? index)
  end.

(** The lines [getFileGitHistory] prints for a history, numbered from
    [i + 1]. *)
Fixpoint historyLines (i : Z) (history : list string) : list event :=
  match history with
  | [] => []
  | line :: rest => Stdout (historyLine i line) :: historyLines (i + 1) rest
  end.

(** Every entry a walk of a readable tree visits, with its path, in the
    order of the walk: an entry, then the entries below it, name by name. *)
Fixpoint visited (Join : string -> string -> string) (path : string)
         (node : fsnode) : list (string * FileInfo) :=
  match node with
  | Missing _ _ => []
  | File name => [(path, mkFileInfo name false)]
  | Dir name _ entries =>
      (path, mkFileInfo name true)
        :: flat_map (fun e => visited Join (Join path (nodeName e)) e) entries
  end.

(** No entry of the tree fails to be read. *)
Fixpoint readable (node : fsnode) : bool :=
  match node with
  | Missing _ _ => false
  | File _ => true
  | Dir _ (Some _) _ => false
  | Dir _ None entries => forallb readable entries
  end.

(** An entry that is not a directory and whose name is [rollout.yaml] up to
    the case of its letters. *)
Definition isRolloutFile (e : string * FileInfo) : bool :=
  negb (IsDir (snd e)) && String.eqb (ToLower (Name (snd e))) targetName.

(** A text without upper-case ASCII letters. *)
Fixpoint noUpper (t : string) : bool :=
  match t with
  | EmptyString => true
  | String b t' => negb (isUpper b) && noUpper t'
  end.

(** The paths of the rollout files below a root, in the order of the
    walk. *)
Definition rolloutFilesOf (Join : string -> string -> string) (root : string)
           (tree : fsnode) : list string :=
  map fst (filter isRolloutFile (visited Join root tree)).

(** What the walk with the collecting callback does on a tree: on a
    readable tree it appends the rollout files in the order of the walk; on
    a tree with an unreadable entry it ends with the error of the first
    one. *)
Definition collects (Join : string -> string -> string) (node : fsnode)
  : Prop :=
  forall (path : string) (files : list string),
    (readable node = true ->
     walk Join collectRollout path node files
     = ((files ++ rolloutFilesOf Join path node)%list, None))
    /\ (readable node = false ->
        exists files' e,
          walk Join collectRollout path node files
          = (files', Some (OsError e))).

(** The texts of the directory flow. *)
Definition foundText (n : Z) : string :=
  "Found " ++ Itoa n ++ " rollout.yaml files:" ++ nl.

Definition confirmText (n : Z) : string :=
  "Would you like to continue with rolling back all " ++ Itoa n
  ++ " of these files? (yes/no): ".

Definition abortedText : string := "Operation aborted by the user." ++ nl.

Definition proceedingText : string :=
  "Proceeding with rollback for all rollout.yaml files..." ++ nl.

(** The text a prompt reads in a state (the first line its scanner finds,
    empty at the end of the input), and the state its scanner leaves. *)
Definition nextLine {S} (st : state S) : string :=
  fst (ScanText (st_stdin st)).

Definition afterLine {S} (st : state S) : state S :=
  mkState (st_host st) (snd (ScanText (st_stdin st))).

Definition saysYes (response : string) : bool :=
  String.eqb (ToLower response) "yes".

(** The two queries of the guard. *)
Definition guardEvents : list event := [Exec revParseArgv; Exec branchArgv].

(** The guard lets the command through: the work-tree query answers true
    and the branch query names a branch that is not protected. *)
Definition guardPasses {S} (host : Host S) (st : state S) : bool :=
  insideWorkTree host st &&
  match currentBranch host st with
  | Some b => negb (existsb (String.eqb b) protectedBranches)
  | None => false
  end.

(** The flow [Run] hands the path to, chosen by the suffix of the path
    alone. *)
Definition flowFor {S} (host : Host S) (inputPath : string) : Prog S unit :=
  if HasSuffix inputPath targetName
  then handleSingleRolloutFile host inputPath
  else handleDirectoryRolloutFiles host inputPath.

Definition invalidText : string := "Invalid number. Please try again." ++ nl.

Definition noRollbackText (filePath : string) : string :=
  "No rollback has been done for '" ++ filePath
  ++ "' because it is already at commit number 1." ++ nl.

(** What the terminal shows for [n] rejected texts in a row: the prompt and
    the rejection, [n] times. *)
Fixpoint reprompts (history : list string) (n : nat) : list event :=
  match n with
  | O => []
  | Datatypes.S n' =>
      Stdout (promptText (defaultIndexOf history))
        :: Stdout invalidText :: reprompts history n'
  end.

(** The entry with the 1-based number [index]. *)
Definition entry (history : list string) (index : Z) : string :=
  nth (Z.to_nat (index - 1)) history EmptyString.

(** ** Observations used for the further properties *)

(** A text the prompt accepts: the index it selects lies in
    [1, len(history)]. *)
Definition accepted (history : list string) (input : string) : bool :=
  match selectedIndex history input with
  | Some index =>
      (1 <=? index) && (index <=? Z.of_nat (List.length history))
  | None => false
  end.

(** The byte [c] does not occur in [s]. *)
Fixpoint freeOf (c : ascii) (s : string) : bool :=
  match s with
  | EmptyString => true
  | String a s' => negb (Ascii.eqb a c) && freeOf c s'
  end.

(** The lines of a list of paths as the directory flow prints them. *)
Definition fileLines (files : list string) : list event :=
  map (fun file => Stdout (file ++ nl)) files.

(** What the directory flow prints before it reads the answer. *)
Definition directoryReport (files : list string) : list event :=
  (Stdout (foundText (Z.of_nat (List.length files))) :: fileLines files
   ++ [Stdout (confirmText (Z.of_nat (List.length files)))])%list.

(** What [handleSingleRolloutFile] prints of a history before it prompts. *)
Definition historyReport (filePath : string) (history : list string)
  : list event :=
  Stdout (nl ++ "Git history for '" ++ filePath ++ "':" ++ nl)
    :: historyLines 0 history.

(** The history [getFileGitHistory] makes of an output of the log
    command. *)
Definition historyOf (out : string) : list string :=
  Split (TrimSpace out) "010"%char.

(** A callback of [filepath.Walk] that never fails on an entry it is shown
    and hands back the error of an entry that failed: [step] is what it does
    to its state on an entry. *)
Definition folding {St} (fn : WalkFunc St)
           (step : string -> FileInfo -> St -> St) : Prop :=
  (forall path info st, fn path (Visit info) st = (step path info st, None))
  /\ (forall path info err st, fn path (Failed info err) st = (st, Some err)).

(** An entry, directory or not, whose name is [rollout.yaml] up to the case
    of its letters. *)
Definition isNamedRollout (e : string * FileInfo) : bool :=
  String.eqb (ToLower (Name (snd e))) targetName.

(** The text of the not-a-rollout-file report of the two older commands. *)
Definition notNamedText : string :=
  "The file is not named 'rollout.yaml'." ++ nl.

(** The state after [n] prompts in a row, each with its own scanner. *)
Fixpoint afterLines {S} (n : nat) (st : state S) : state S :=
  match n with
  | O => st
  | Datatypes.S n' => afterLines n' (afterLine st)
  end.

(** The texts the next [n] prompts read are all rejected. *)
Fixpoint allRejected {S} (history : list string) (n : nat) (st : state S)
  : bool :=
  match n with
  | O => true
  | Datatypes.S n' =>
      rejected history (nextLine st) && allRejected history n' (afterLine st)
  end.

(** The first answer in a list of optional answers. *)
Fixpoint firstSome {A} (l : list (option A)) : option A :=
  match l with
  | [] => None
  | Some x :: _ => Some x
  | None :: l' => firstSome l'
  end.

(** The error of the first entry of a tree, in the order of the walk, that
    cannot be read: an entry whose [Lstat] fails, or a directory whose names
    cannot be read. *)
Fixpoint firstFailure (node : fsnode) : option string :=
  match node with
  | Missing _ err => Some err
  | File _ => None
  | Dir _ (Some e) _ => Some e
  | Dir _ None entries => firstSome (map firstFailure entries)
  end.

(** The content a file has at a revision of the model repository. *)
Definition contentAt (r : Repo.t) (commit filePath : string) : option string :=
  match Repo.lookup commit (Repo.revisions r) with
  | Some tree => Repo.lookup filePath tree
  | None => None
  end.

(** ** Concrete scenarios *)

Module Scenario.

(** The history text of the two-entry scenario. *)
Definition logText : string :=
  "abc123, Alice, 2024-01-01 10:00:00, fix config" ++ nl
  ++ "abc000, Bob, 2023-12-31 09:00:00, initial".

(** A work tree on a feature branch: [rollout.yaml] has the two revisions of
    [logText], and the tracked file [other.txt] is modified. *)
Definition repo : Repo.t :=
  Repo.mk true "feature"
    [("rollout.yaml", false)]
    [("rollout.yaml", File "rollout.yaml")]
    [("rollout.yaml", logText)]
    [("abc123", [("rollout.yaml", "replicas: 3")]);
     ("abc000", [("rollout.yaml", "replicas: 1")])]
    [("rollout.yaml", "replicas: 3"); ("other.txt", "old")]
    [("rollout.yaml", "replicas: 3"); ("other.txt", "new")]
    false [].

(** The same work tree with [main] checked out. *)
Definition onMain : Repo.t :=
  Repo.mk true "main" (Repo.existing repo) (Repo.trees repo) (Repo.logs repo)
    (Repo.revisions repo) (Repo.headTree repo) (Repo.workTree repo) false [].

(** The git directory of that repository: the work-tree query answers
    false while the branch query still names [main]. *)
Definition inGitDir : Repo.t :=
  Repo.mk false "main" (Repo.existing repo) (Repo.trees repo) (Repo.logs repo)
    (Repo.revisions repo) (Repo.headTree repo) (Repo.workTree repo) false [].

(** The same work tree where commits are refused (a failing hook). *)
Definition blocked : Repo.t :=
  Repo.mk true "feature" (Repo.existing repo) (Repo.trees repo)
    (Repo.logs repo) (Repo.revisions repo) (Repo.headTree repo)
    (Repo.workTree repo) true [].

(** A directory with [rollout.yaml] at three depths and one
    [Rollout.YAML], names in the order [readDirNames] sorts them. *)
Definition deployTree : fsnode :=
  Dir "deploy" None
    [File "README.md";
     File "Rollout.YAML";
     Dir "prod" None
       [Dir "eu" None [File "rollout.yaml"];
        File "rollout.yaml"];
     File "rollout.yaml";
     Dir "staging" None [File "values.yaml"]].

(** A directory whose only entry is a directory named [rollout.yaml]. *)
Definition dirNamedRollout : fsnode :=
  Dir "charts" None [Dir "rollout.yaml" None [File "Chart.yaml"]].

(** The work tree of [repo] with these directories and the regular files
    [config.yaml] and [Rollout.YAML]. *)
Definition withTrees : Repo.t :=
  Repo.mk true "feature"
    [("rollout.yaml", false); ("deploy", true); ("charts", true);
     ("config.yaml", false); ("Rollout.YAML", false);
     ("old-rollout.yaml", true)]
    [("rollout.yaml", File "rollout.yaml"); ("deploy", deployTree);
     ("charts", dirNamedRollout); ("config.yaml", File "config.yaml");
     ("Rollout.YAML", File "Rollout.YAML");
     ("old-rollout.yaml", Dir "old-rollout.yaml" None [])]
    [("rollout.yaml", logText); ("Rollout.YAML", logText);
     ("old-rollout.yaml", logText)]
    [("abc123", [("rollout.yaml", "replicas: 3");
                 ("Rollout.YAML", "replicas: 3")]);
     ("abc000", [("rollout.yaml", "replicas: 1");
                 ("Rollout.YAML", "replicas: 1")])]
    [("rollout.yaml", "replicas: 3"); ("Rollout.YAML", "replicas: 3")]
    [("rollout.yaml", "replicas: 3"); ("Rollout.YAML", "replicas: 3")]
    false [].

(** A work tree where [git log] prints nothing for [rollout.yaml] (the file
    has no commit yet). *)
Definition noHistory : Repo.t :=
  Repo.mk true "feature" (Repo.existing repo) (Repo.trees repo)
    [("rollout.yaml", EmptyString)] (Repo.revisions repo)
    (Repo.headTree repo) (Repo.workTree repo) false [].

(** A directory in which a rollout file comes before a sub-directory whose
    names cannot be read. *)
Definition lockedTree : fsnode :=
  Dir "deploy" None
    [Dir "a" None [File "rollout.yaml"];
     Dir "secret" (Some "open deploy/secret: permission denied") [];
     Dir "z" None [File "rollout.yaml"]].

Definition withLocked : Repo.t :=
  Repo.mk true "feature" [("deploy", true)] [("deploy", lockedTree)] []
    [] [] [] false [].

(** A directory without any rollout file. *)
Definition emptyDir : Repo.t :=
  Repo.mk true "feature" [("empty", true)]
    [("empty", Dir "empty" None [Dir "docs" None [File "README.md"]])] []
    [] [] [] false [].

(** A work tree in which [deploy/rollout.yaml] exists and the log command
    fails for it. *)
Definition unlogged : Repo.t :=
  Repo.mk true "feature" [("deploy/rollout.yaml", false)] [] [] [] [] []
    false [].

(** A clean work tree in which [rollout.yaml] went from three replicas to
    one and back to three: the oldest revision has the content of the
    newest. *)
Definition backAndForthLog : string :=
  "abc123, Alice, 2024-01-02 10:00:00, back to three" ++ nl
  ++ "abc111, Alice, 2024-01-01 10:00:00, try one" ++ nl
  ++ "abc000, Bob, 2023-12-31 09:00:00, initial".

Definition backAndForth : Repo.t :=
  Repo.mk true "feature"
    [("rollout.yaml", false)]
    [("rollout.yaml", File "rollout.yaml")]
    [("rollout.yaml", backAndForthLog)]
    [("abc123", [("rollout.yaml", "replicas: 3")]);
     ("abc111", [("rollout.yaml", "replicas: 1")]);
     ("abc000", [("rollout.yaml", "replicas: 3")])]
    [("rollout.yaml", "replicas: 3")]
    [("rollout.yaml", "replicas: 3")]
    false [].

(** The directory of [deployTree] in a repository where every rollout file
    has the two revisions of [logText] and commits are refused (a failing
    hook). *)
Definition batchBlocked : Repo.t :=
  Repo.mk true "feature" [("deploy", true)] [("deploy", deployTree)]
    [("deploy/Rollout.YAML", logText);
     ("deploy/prod/eu/rollout.yaml", logText);
     ("deploy/prod/rollout.yaml", logText);
     ("deploy/rollout.yaml", logText)]
    [("abc123", [("deploy/Rollout.YAML", "replicas: 3");
                 ("deploy/prod/eu/rollout.yaml", "replicas: 3");
                 ("deploy/prod/rollout.yaml", "replicas: 3");
                 ("deploy/rollout.yaml", "replicas: 3")]);
     ("abc000", [("deploy/Rollout.YAML", "replicas: 1");
                 ("deploy/prod/eu/rollout.yaml", "replicas: 1");
                 ("deploy/prod/rollout.yaml", "replicas: 1");
                 ("deploy/rollout.yaml", "replicas: 1")])]
    [("deploy/Rollout.YAML", "replicas: 3");
     ("deploy/prod/eu/rollout.yaml", "replicas: 3");
     ("deploy/prod/rollout.yaml", "replicas: 3");
     ("deploy/rollout.yaml", "replicas: 3")]
    [("deploy/Rollout.YAML", "replicas: 3");
     ("deploy/prod/eu/rollout.yaml", "replicas: 3");
     ("deploy/prod/rollout.yaml", "replicas: 3");
     ("deploy/rollout.yaml", "replicas: 3")]
    true [].

(** The no-break space U+00A0 in UTF-8. *)
Definition noBreakSpace : string :=
  String (ascii_of_nat 194) (String (ascii_of_nat 160) EmptyString).

(** What a terminal delivers for the lines the operator types: one read per
    line, each with its line feed. *)
Definition typed (lines : list string) : list string :=
  map (fun line => line ++ nl) lines.

(** The same lines arriving through a pipe in one read. *)
Definition piped (lines : list string) : list string :=
  [String.concat EmptyString (typed lines)].

End Scenario.

(** ** Basic facts *)

Unset Implicit Arguments.

Example TrimSpace_ex :
  TrimSpace ("  main" ++ nl) = "main" /\ TrimSpace EmptyString = EmptyString
  /\ TrimSpace (" a b " ++ nl ++ nl) = "a b"
  /\ TrimSpace ("main" ++ Scenario.noBreakSpace ++ nl) = "main"
  /\ TrimSpace (String (ascii_of_nat 160) "main")
     = String (ascii_of_nat 160) "main".
Proof. repeat split; reflexivity. Qed.

Example ScanText_ex :
  ScanText (Scenario.typed ["x"; "1"]) = ("x", ["1" ++ nl])
  /\ ScanText (Scenario.piped ["x"; "1"]) = ("x", [])
  /\ ScanText ["1"] = ("1", [])
  /\ ScanText ["yes" ++ String "013"%char nl] = ("yes", [])
  /\ ScanText [EmptyString; "1" ++ nl] = (EmptyString, ["1" ++ nl])
  /\ ScanText ["ab"; "c" ++ nl ++ "d"; "e"] = ("abc", ["e"]).
Proof. repeat split; reflexivity. Qed.

Example Split_ex :
  Split "abc000, Bob, 2023" ","%char = ["abc000"; " Bob"; " 2023"]
  /\ Split EmptyString "010"%char = [EmptyString]
  /\ Split "a,,b," ","%char = ["a"; EmptyString; "b"; EmptyString].
Proof. repeat split; reflexivity. Qed.

Example HasSuffix_ex :
  HasSuffix "deploy/rollout.yaml" "rollout.yaml" = true
  /\ HasSuffix "Rollout.YAML" "rollout.yaml" = false
  /\ HasSuffix "yaml" "rollout.yaml" = false.
Proof. repeat split; reflexivity. Qed.

Example EqualFold_ex :
  EqualFold "Rollout.YAML" "rollout.yaml" = true
  /\ EqualFold "rollout.yaml" "rollout.yaml" = true
  /\ EqualFold "rollout.yml" "rollout.yaml" = false
  /\ EqualFold "rollout@yaml" "rollout.yaml" = false.
Proof. repeat split; reflexivity. Qed.

Example Atoi_ex :
  Atoi "2" = Some 2 /\ Atoi "+10" = Some 10 /\ Atoi "-3" = Some (-3)
  /\ Atoi "2a" = None /\ Atoi EmptyString = None /\ Atoi " 2" = None
  /\ Atoi "9223372036854775808" = None /\ Atoi "007" = Some 7.
Proof. repeat split; reflexivity. Qed.

Example Itoa_ex :
  Itoa 2 = "2" /\ Itoa 10 = "10" /\ Itoa 0 = "0" /\ Itoa (-4) = "-4".
Proof. repeat split; reflexivity. Qed.

(** ** The scanner *)

Lemma length_substring_le (s : string) :
  forall n m : nat, (String.length (substring n m s) <= m)%nat.
Proof.
  induction s as [|c s IH]; intros n m.
  - destruct n, m; simpl; lia.
  - destruct n as [|n].
    + destruct m as [|m]; simpl; [lia|]. specialize (IH 0%nat m). lia.
    + simpl. apply IH.
Qed.

Lemma length_app_string (a b : string) :
  String.length (a ++ b) = (String.length a + String.length b)%nat.
Proof.
  induction a as [|c a IH]; simpl; [reflexivity | rewrite IH; reflexivity].
Qed.

Lemma eqb_empty_length (s : string) :
  String.eqb s EmptyString = false -> (1 <= String.length s)%nat.
Proof. destruct s; [discriminate | simpl; lia]. Qed.

(** A read never delivers more than there is room for, and never adds to
    what is pending. *)
Lemma Read_room (room : N) (input : list string) (data : string)
      (rest : list string) :
  Read room input = (Some data, rest) -> (len data <= room)%N.
Proof.
  unfold Read, len. destruct input as [|piece more]; [discriminate|].
  destruct (String.eqb piece EmptyString); [discriminate|].
  destruct (N.leb_spec (N.of_nat (String.length piece)) room) as [Hle|Hgt];
    intros H; injection H as <- <-; [exact Hle|].
  pose proof (length_substring_le piece 0 (N.to_nat room)). lia.
Qed.

Lemma Read_pending (room : N) (input : list string) :
  (pending (snd (Read room input)) <= pending input)%nat.
Proof.
  unfold Read. destruct input as [|piece more]; [reflexivity|].
  destruct (String.eqb piece EmptyString); [simpl; lia|].
  destruct (len piece <=? room)%N; simpl; [lia|].
  pose proof (length_substring_le piece (N.to_nat room)
                (String.length piece - N.to_nat room)). lia.
Qed.

(** A read that delivers something uses some of the input. *)
Lemma Read_progress (room : N) (input : list string) (data : string)
      (rest : list string) :
  (0 < room)%N ->
  Read room input = (Some data, rest) ->
  (pending rest < pending input)%nat.
Proof.
  unfold Read, len. intros Hroom.
  destruct input as [|piece more]; [discriminate|].
  destruct (String.eqb piece EmptyString); [discriminate|].
  destruct (N.leb_spec (N.of_nat (String.length piece)) room) as [Hle|Hgt];
    intros H; injection H as <- <-; simpl; [lia|].
  pose proof (length_substring_le piece (N.to_nat room)
                (String.length piece - N.to_nat room)). lia.
Qed.

Lemma Read_eof (room : N) (input rest : list string) :
  Read room input = (None, rest) ->
  (pending rest <= pending input)%nat
  /\ (input <> [] -> (pending rest < pending input)%nat).
Proof.
  unfold Read. destruct input as [|piece more].
  - intros H. injection H as <-. split; [reflexivity | congruence].
  - destruct (String.eqb piece EmptyString).
    + intros H. injection H as <-. simpl. split; intros; lia.
    + destruct (len piece <=? room)%N; discriminate.
Qed.

Lemma scan_S (fuel : nat) (buf : string) (size : N) (input : list string) :
  scan (Datatypes.S fuel) buf size input
  = match ScanLines buf false with
    | Some token => (token, input)
    | None =>
        if (len buf =? size)%N && (MaxScanTokenSize <=? size)%N
        then (EmptyString, input)
        else
          match Read ((if (len buf =? size)%N then grow size else size)
                      - len buf) input with
          | (None, rest) =>
              (match ScanLines buf true with
               | Some token => token
               | None => EmptyString
               end, rest)
          | (Some data, rest) =>
              scan fuel (buf ++ data)
                   (if (len buf =? size)%N then grow size else size) rest
          end
    end.
Proof. reflexivity. Qed.

(** The room a turn of the scanner offers to its read is never empty, and
    the data it adds fit the buffer. *)
Lemma scan_room (buf : string) (size : N) :
  (len buf <= size)%N ->
  (len buf =? size)%N && (MaxScanTokenSize <=? size)%N = false ->
  (0 < (if (len buf =? size)%N then grow size else size) - len buf)%N.
Proof.
  intros Hinv Hc. unfold grow, startBufSize, MaxScanTokenSize in *.
  destruct (N.eqb_spec (len buf) size) as [Heq|Hne].
  - rewrite Bool.andb_true_l in Hc. apply N.leb_gt in Hc.
    destruct (N.eqb_spec size 0); lia.
  - lia.
Qed.

(** Whatever its fuel, a scan leaves no more input than it found. *)
Lemma scan_pending (fuel : nat) :
  forall (buf : string) (size : N) (input : list string),
    (pending (snd (scan fuel buf size input)) <= pending input)%nat.
Proof.
  induction fuel as [|fuel IH]; intros buf size input; [reflexivity|].
  rewrite scan_S.
  destruct (ScanLines buf false); [reflexivity|].
  destruct ((len buf =? size)%N && (MaxScanTokenSize <=? size)%N);
    [reflexivity|].
  pose proof (Read_pending
                ((if (len buf =? size)%N then grow size else size) - len buf)
                input) as Hp.
  destruct (Read ((if (len buf =? size)%N then grow size else size) - len buf)
              input) as [[data|] rest]; simpl in Hp.
  - specialize (IH (buf ++ data)
                  (if (len buf =? size)%N then grow size else size) rest).
    lia.
  - exact Hp.
Qed.

(** The fuel [ScanText] gives is enough: with any larger amount the scan is
    the same, so the bound on the turns is never what ends it. *)
Lemma scan_fuel (fuel1 : nat) :
  forall (fuel2 : nat) (buf : string) (size : N) (input : list string),
    (pending input < fuel1)%nat ->
    (pending input < fuel2)%nat ->
    (len buf <= size)%N ->
    scan fuel1 buf size input = scan fuel2 buf size input.
Proof.
  induction fuel1 as [|fuel1 IH]; intros fuel2 buf size input H1 H2 Hinv;
    [lia|].
  destruct fuel2 as [|fuel2]; [lia|].
  rewrite !scan_S.
  destruct (ScanLines buf false); [reflexivity|].
  destruct ((len buf =? size)%N && (MaxScanTokenSize <=? size)%N) eqn:Hc;
    [reflexivity|].
  pose proof (scan_room buf size Hinv Hc) as Hroom.
  destruct (Read ((if (len buf =? size)%N then grow size else size) - len buf)
              input) as [[data|] rest] eqn:Hread; [|reflexivity].
  pose proof (Read_progress _ _ _ _ Hroom Hread) as Hlt.
  pose proof (Read_room _ _ _ _ Hread) as Hfit.
  apply IH; [lia | lia |].
  unfold len in *. rewrite length_app_string. lia.
Qed.

Lemma ScanText_fuel (fuel : nat) (input : list string) :
  (pending input < fuel)%nat ->
  scan fuel EmptyString 0 input = ScanText input.
Proof.
  intros H. unfold ScanText. apply scan_fuel; [exact H | lia |].
  unfold len. simpl. lia.
Qed.

(** At the end of the input a scanner gives the empty text. *)
Lemma ScanText_nil : ScanText [] = (EmptyString, []).
Proof. reflexivity. Qed.

(** A scanner never adds to the input, and on an input that is not at its
    end it uses some of it. *)
Lemma ScanText_pending (input : list string) :
  (pending (snd (ScanText input)) <= pending input)%nat.
Proof. apply scan_pending. Qed.

Lemma ScanText_progress (input : list string) :
  input <> [] ->
  (pending (snd (ScanText input)) < pending input)%nat.
Proof.
  intros Hne. unfold ScanText. rewrite scan_S.
  change (ScanLines EmptyString false) with (@None string).
  change ((len EmptyString =? 0)%N && (MaxScanTokenSize <=? 0)%N) with false.
  cbv beta iota.
  change ((if (len EmptyString =? 0)%N then grow 0 else 0%N)
          - len EmptyString)%N with 4096%N.
  change (if (len EmptyString =? 0)%N then grow 0 else 0%N) with 4096%N.
  destruct (Read 4096 input) as [[data|] rest] eqn:Hread.
  - pose proof (Read_progress 4096 input data rest ltac:(lia) Hread).
    pose proof (scan_pending (pending input) (EmptyString ++ data) 4096 rest).
    lia.
  - destruct (Read_eof 4096 input rest Hread) as [_ H]. simpl. apply H.
    exact Hne.
Qed.

Lemma indexNewline_line (line more : string) :
  freeOf "010"%char line = true ->
  indexNewline (line ++ nl ++ more) = Some (String.length line).
Proof.
  change (nl ++ more) with (String "010"%char more).
  induction line as [|c line IH]; intros Hf; [reflexivity|].
  simpl in Hf. apply andb_prop in Hf. destruct Hf as [Hc Hf].
  apply negb_true_iff in Hc. simpl. rewrite Hc, (IH Hf). reflexivity.
Qed.

Lemma substring_prefix (a b : string) :
  substring 0 (String.length a) (a ++ b) = a.
Proof.
  induction a as [|c a IH]; simpl.
  - destruct b; reflexivity.
  - rewrite IH. reflexivity.
Qed.

(** When the first read delivers a line, its line feed and more, the text
    is that line (less a trailing carriage return) and all the read
    delivered is used up: what came after the line feed is lost. *)
Lemma ScanText_first_line (line more : string) (rest : list string) :
  freeOf "010"%char line = true ->
  (len (line ++ nl ++ more) <= 4096)%N ->
  ScanText ((line ++ nl ++ more) :: rest) = (dropCR line, rest).
Proof.
  intros Hf Hlen. unfold ScanText.
  change (pending ((line ++ nl ++ more) :: rest))
    with (Datatypes.S (String.length (line ++ nl ++ more) + pending rest)).
  rewrite scan_S.
  change (ScanLines EmptyString false) with (@None string).
  change ((len EmptyString =? 0)%N && (MaxScanTokenSize <=? 0)%N) with false.
  cbv beta iota.
  change ((if (len EmptyString =? 0)%N then grow 0 else 0%N)
          - len EmptyString)%N with 4096%N.
  change (if (len EmptyString =? 0)%N then grow 0 else 0%N) with 4096%N.
  unfold Read.
  assert (Hne : String.eqb (line ++ nl ++ more) EmptyString = false)
    by (destruct line; reflexivity).
  rewrite Hne. apply N.leb_le in Hlen. rewrite Hlen.
  rewrite scan_S. change (EmptyString ++ (line ++ nl ++ more))
    with (line ++ nl ++ more).
  unfold ScanLines. change (false && _) with false. cbv beta iota.
  rewrite (indexNewline_line line more Hf), substring_prefix. reflexivity.
Qed.

(** ** Lists and histories *)

Lemma existsb_eqb_In (b : string) (l : list string) :
  In b l -> existsb (String.eqb b) l = true.
Proof.
  intros Hin. apply existsb_exists. exists b. split; [exact Hin|].
  apply String.eqb_refl.
Qed.

Lemma Split_nonempty (s : string) (sep : ascii) : Split s sep <> [].
Proof.
  destruct s as [|c s]; simpl; [discriminate|].
  destruct (Ascii.eqb c sep); [discriminate|].
  destruct (Split s sep); discriminate.
Qed.

Lemma Split_length (s : string) (sep : ascii) :
  (1 <= List.length (Split s sep))%nat.
Proof.
  pose proof (Split_nonempty s sep) as H.
  destruct (Split s sep); [congruence | simpl; lia].
Qed.

Lemma hd_Split_beforeComma (s : string) :
  hd EmptyString (Split s ","%char) = beforeComma s.
Proof.
  induction s as [|c s IH]; simpl; [reflexivity|].
  destruct (Ascii.eqb c ","%char); [reflexivity|].
  rewrite <- IH.
  pose proof (Split_nonempty s ","%char) as H.
  destruct (Split s ","%char); [congruence | reflexivity].
Qed.

Lemma defaultIndexOf_cases (history : list string) :
  (history = [] /\ defaultIndexOf history = 0)
  \/ (List.length history = 1%nat /\ defaultIndexOf history = 1)
  \/ ((2 <= List.length history)%nat /\ defaultIndexOf history = 2).
Proof.
  destruct history as [|a [|b l]].
  - left; split; reflexivity.
  - right; left; split; reflexivity.
  - right; right. split; [simpl; lia|].
    unfold defaultIndexOf.
    destruct (Z.ltb_spec (Z.of_nat (List.length (a :: b :: l))) 2) as [H|H];
      [simpl List.length in H; lia | reflexivity].
Qed.

(** The default shown in the prompt is [min(2, len(history))], and the empty
    line selects it. *)
Lemma defaultIndexOf_min (history : list string) :
  defaultIndexOf history = Z.min 2 (Z.of_nat (List.length history)).
Proof.
  unfold defaultIndexOf.
  destruct (Z.ltb_spec (Z.of_nat (List.length history)) 2); lia.
Qed.

Lemma selectedIndex_empty (history : list string) :
  selectedIndex history EmptyString = Some (defaultIndexOf history).
Proof.
  unfold selectedIndex. simpl.
  destruct (defaultIndexOf_cases history) as [[_ H]|[[_ H]|[_ H]]];
    rewrite H; reflexivity.
Qed.

(** ** The guard ([isGitRepo] and the head of [Run]) *)

Lemma isGitRepo_protected S (host : Host S) (st : state S) (b : string) :
  insideWorkTree host st = true ->
  currentBranch host st = Some b ->
  In b protectedBranches ->
  isGitRepo host st =
    ([Exec revParseArgv; Exec branchArgv], st,
     Return (true, b, Some (protectedError b))).
Proof.
  unfold insideWorkTree, currentBranch, isGitRepo, bind, cmdOutput.
  intros Hin Hb Hprot.
  destruct (cmd_output host (st_host st) revParseArgv) as [out|e];
    [|discriminate].
  rewrite Hin. cbv beta iota delta [negb].
  destruct (cmd_output host (st_host st) branchArgv) as [bout|e];
    [|discriminate].
  injection Hb as Hb. rewrite Hb.
  rewrite (existsb_eqb_In _ _ Hprot). reflexivity.
Qed.

(** White space around the branch name is trimmed rune by rune: with
    [main] followed by a no-break space checked out, the guard refuses
    [main]. *)
Example isGitRepo_trims_unicode_space :
  isGitRepo Repo.host
    (mkState (Repo.mk true ("main" ++ Scenario.noBreakSpace)
                [] [] [] [] [] [] false []) [])
  = ([Exec revParseArgv; Exec branchArgv],
     mkState (Repo.mk true ("main" ++ Scenario.noBreakSpace)
                [] [] [] [] [] [] false []) [],
     Return (true, "main",
             Some "current branch 'main' is a protected branch")).
Proof. reflexivity. Qed.

(** Whatever the guard answers, it starts only the two queries, leaves the
    state alone and returns. *)
Lemma isGitRepo_readonly S (host : Host S) (st : state S) :
  exists ev r,
    isGitRepo host st = (ev, st, Return r) /\ noMutation ev.
Proof.
  unfold isGitRepo, bind, cmdOutput.
  destruct (cmd_output host (st_host st) revParseArgv) as [out|e];
    cbv beta iota.
  - destruct (String.eqb (TrimSpace out) "true"); cbv beta iota delta [negb].
    + destruct (cmd_output host (st_host st) branchArgv) as [bout|e];
        cbv beta iota.
      * destruct (existsb (String.eqb (TrimSpace bout)) protectedBranches);
          eexists; eexists; split; reflexivity.
      * eexists; eexists; split; reflexivity.
    + eexists; eexists; split; reflexivity.
  - eexists; eexists; split; reflexivity.
Qed.

(** A guard that lets the command through implies the branch is not
    protected. *)
Lemma isGitRepo_error_when_protected S (host : Host S) (st : state S)
      (b : string) :
  currentBranch host st = Some b ->
  In b protectedBranches ->
  exists ev ok name err,
    isGitRepo host st = (ev, st, Return (ok, name, Some err))
    /\ noMutation ev.
Proof.
  unfold currentBranch, isGitRepo, bind, cmdOutput.
  intros Hb Hprot.
  destruct (cmd_output host (st_host st) revParseArgv) as [out|e];
    cbv beta iota.
  - destruct (String.eqb (TrimSpace out) "true"); cbv beta iota delta [negb].
    + destruct (cmd_output host (st_host st) branchArgv) as [bout|e];
        [|discriminate].
      injection Hb as Hb. rewrite Hb, (existsb_eqb_In _ _ Hprot).
      do 4 eexists; split; reflexivity.
    + do 4 eexists; split; reflexivity.
  - do 4 eexists; split; reflexivity.
Qed.

(** How [bind] runs once the first part is known. *)
Lemma bind_Return S A B (m : Prog S A) (k : A -> Prog S B) (st st1 : state S)
      (ev : list event) (a : A) :
  m st = (ev, st1, Return a) ->
  bind m k st
  = ((ev ++ events (k a st1))%list, finalState (k a st1), outcome (k a st1)).
Proof.
  intros H. unfold bind, events, finalState, outcome. rewrite H.
  destruct (k a st1) as [[ev2 st2] r]. reflexivity.
Qed.

Lemma bind_Exit S A B (m : Prog S A) (k : A -> Prog S B) (st st1 : state S)
      (ev : list event) (c : Z) :
  m st = (ev, st1, Exit c) -> bind m k st = (ev, st1, Exit c).
Proof. intros H. unfold bind. rewrite H. reflexivity. Qed.

Lemma bind_Diverge S A B (m : Prog S A) (k : A -> Prog S B)
      (st st1 : state S) (ev : list event) :
  m st = (ev, st1, Diverge) -> bind m k st = (ev, st1, Diverge).
Proof. intros H. unfold bind. rewrite H. reflexivity. Qed.

Lemma bind_print S B (text : string) (k : unit -> Prog S B) (st : state S) :
  bind (print text) k st
  = (Stdout text :: events (k tt st), finalState (k tt st), outcome (k tt st)).
Proof.
  apply (bind_Return S unit B (print text) k st st [Stdout text] tt).
  reflexivity.
Qed.

Lemma bind_ret S A B (a : A) (k : A -> Prog S B) (st : state S) :
  bind (ret a) k st = k a st.
Proof. unfold bind, ret. destruct (k a st) as [[ev st'] r]. reflexivity. Qed.

Lemma triple_eta S A (x : list event * state S * result A) :
  (events x, finalState x, outcome x) = x.
Proof. destruct x as [[ev st] r]. reflexivity. Qed.

(** [Run] after a path check that passes: the guard, then the dispatch on
    the suffix of the path. *)
Lemma Run_exists S (host : Host S) (st : state S) (inputPath : string) :
  pathExists host st inputPath = true ->
  Run host inputPath st
  = bind (isGitRepo host)
      (fun r =>
         match r with
         | (_, _, Some err) => print ("Error: " ++ err ++ nl) ;;; osExit 1
         | (_, _, None) =>
             if HasSuffix inputPath targetName
             then handleSingleRolloutFile host inputPath
             else handleDirectoryRolloutFiles host inputPath
         end) st.
Proof.
  unfold pathExists, Run. intros Hex.
  rewrite (bind_Return S _ _ (osStat host inputPath) _ st st []
             (os_stat host (st_host st) inputPath) eq_refl).
  destruct (os_stat host (st_host st) inputPath); try discriminate;
    apply triple_eta.
Qed.

Lemma Run_guarded S (host : Host S) (st : state S) (inputPath : string)
      (ev : list event) (ok : bool) (name err : string) :
  pathExists host st inputPath = true ->
  isGitRepo host st = (ev, st, Return (ok, name, Some err)) ->
  Run host inputPath st
  = ((ev ++ [Stdout ("Error: " ++ err ++ nl)])%list, st, Exit 1).
Proof.
  intros Hex Hguard. rewrite (Run_exists S host st inputPath Hex).
  rewrite (bind_Return S _ _ _ _ st st ev _ Hguard). reflexivity.
Qed.

Lemma noMutation_app (a b : list event) :
  noMutation a -> noMutation b -> noMutation (a ++ b).
Proof.
  unfold noMutation. intros Ha Hb. rewrite forallb_app, Ha, Hb. reflexivity.
Qed.

(** C1 (amended).  For every invocation in which the current branch is one
    of master, develop or main, the command exits with status 1 without
    starting a checkout or a commit and without changing anything.  When in
    addition the path exists and the work-tree query answers true, what it
    does is exactly: the two queries, then the error
    [current branch '<b>' is a protected branch] carrying the branch name. *)
Theorem protected_branch_refused S (host : Host S) (st : state S)
        (inputPath b : string) :
  currentBranch host st = Some b ->
  In b protectedBranches ->
  (outcome (Run host inputPath st) = Exit 1
   /\ noMutation (events (Run host inputPath st))
   /\ finalState (Run host inputPath st) = st)
  /\ (pathExists host st inputPath = true ->
      insideWorkTree host st = true ->
      Run host inputPath st
      = ([Exec revParseArgv; Exec branchArgv;
          Stdout ("Error: " ++ protectedError b ++ nl)], st, Exit 1)).
Proof.
  intros Hb Hprot. split.
  - destruct (pathExists host st inputPath) eqn:Hex.
    + destruct (isGitRepo_error_when_protected S host st b Hb Hprot)
        as (ev & ok & name & err & Hguard & Hev).
      rewrite (Run_guarded S host st inputPath _ _ _ _ Hex Hguard).
      split; [reflexivity | split; [|reflexivity]].
      apply noMutation_app; [exact Hev | reflexivity].
    + unfold pathExists in Hex. unfold Run.
      rewrite (bind_Return S _ _ (osStat host inputPath) _ st st []
                 (os_stat host (st_host st) inputPath) eq_refl).
      destruct (os_stat host (st_host st) inputPath); try discriminate.
      split; [reflexivity | split; reflexivity].
  - intros Hex Hin.
    rewrite (Run_guarded S host st inputPath _ _ _ _ Hex
               (isGitRepo_protected S host st b Hin Hb Hprot)).
    reflexivity.
Qed.

Lemma protected_branch_refused_witness :
  Run Repo.host "rollout.yaml" (mkState Scenario.onMain [])
  = ([Exec revParseArgv; Exec branchArgv;
      Stdout ("Error: current branch 'main' is a protected branch" ++ nl)],
     mkState Scenario.onMain [], Exit 1).
Proof.
  refine (proj2 (protected_branch_refused _ Repo.host
                   (mkState Scenario.onMain []) "rollout.yaml" "main"
                   eq_refl _) eq_refl eq_refl).
  simpl. auto.
Defined.

(** C1 as stated fails when the path does not exist: on [main], the command
    stops at the path check, prints that the path does not exist and never
    reports the protected branch.  It fails as well where the work-tree
    query answers false: the command reports that it is not in a
    repository. *)
Lemma protected_branch_missing_path_counterexample :
  currentBranch Repo.host (mkState Scenario.onMain []) = Some "main"
  /\ In "main" protectedBranches
  /\ Run Repo.host "missing.yaml" (mkState Scenario.onMain [])
     = ([Stdout ("The path 'missing.yaml' does not exist." ++ nl)],
        mkState Scenario.onMain [], Exit 1)
  /\ ~ In (Stdout ("Error: " ++ protectedError "main" ++ nl))
          (events (Run Repo.host "missing.yaml" (mkState Scenario.onMain [])))
  /\ currentBranch Repo.host (mkState Scenario.inGitDir []) = Some "main"
  /\ Run Repo.host "rollout.yaml" (mkState Scenario.inGitDir [])
     = ([Exec revParseArgv; Stdout ("Error: not a git repository" ++ nl)],
        mkState Scenario.inGitDir [], Exit 1).
Proof.
  split; [reflexivity|]. split; [simpl; auto|]. split; [reflexivity|].
  split; [|split; reflexivity].
  intros [H|[]]. discriminate H.
Qed.

(** ** The history reader ([getFileGitHistory]) *)

Lemma printHistory_events S (history : list string) :
  forall (i : Z) (st : state S),
    printHistory (S:=S) i history st = (historyLines i history, st, Return tt).
Proof.
  induction history as [|line rest IH]; intros i st; simpl; [reflexivity|].
  rewrite bind_print, IH. reflexivity.
Qed.

Lemma getFileGitHistory_ok S (host : Host S) (st : state S)
      (filePath out : string) :
  cmd_output host (st_host st) (logArgv filePath) = CmdOk out ->
  getFileGitHistory host filePath st
  = (Exec (logArgv filePath)
       :: Stdout (nl ++ "Git history for '" ++ filePath ++ "':" ++ nl)
       :: historyLines 0 (Split (TrimSpace out) "010"%char),
     st, Return (Split (TrimSpace out) "010"%char, None)).
Proof.
  intros Hout. unfold getFileGitHistory.
  rewrite (bind_Return S _ _ (cmdOutput host (logArgv filePath)) _ st st
             [Exec (logArgv filePath)] (CmdOk out));
    [|unfold cmdOutput; rewrite Hout; reflexivity].
  rewrite bind_print.
  rewrite (bind_Return S _ _ (printHistory 0 _) _ st st _ tt
             (printHistory_events S _ 0 st)).
  unfold events, finalState, outcome, ret. simpl. rewrite app_nil_r.
  reflexivity.
Qed.

Lemma getFileGitHistory_err S (host : Host S) (st : state S)
      (filePath err : string) :
  cmd_output host (st_host st) (logArgv filePath) = CmdErr err ->
  getFileGitHistory host filePath st
  = ([Exec (logArgv filePath)], st,
     Return ([], Some ("failed to retrieve git history: " ++ err))).
Proof.
  intros Hout. unfold getFileGitHistory.
  rewrite (bind_Return S _ _ (cmdOutput host (logArgv filePath)) _ st st
             [Exec (logArgv filePath)] (CmdErr err));
    [|unfold cmdOutput; rewrite Hout; reflexivity].
  reflexivity.
Qed.

(** C7 (amended).  The history reader fails exactly when the external log
    command fails.  Whenever the command succeeds it returns a history list
    with at least one entry, the lines of the trimmed output; an empty
    output gives the list whose only entry is the empty text, not a
    failure. *)
Theorem history_fails_iff_command_fails S (host : Host S) (st : state S)
        (filePath : string) :
  ((exists history e,
       outcome (getFileGitHistory host filePath st) = Return (history, Some e))
   <-> (exists err,
          cmd_output host (st_host st) (logArgv filePath) = CmdErr err))
  /\ (forall out,
        cmd_output host (st_host st) (logArgv filePath) = CmdOk out ->
        outcome (getFileGitHistory host filePath st)
        = Return (Split (TrimSpace out) "010"%char, None)
        /\ (1 <= List.length (Split (TrimSpace out) "010"%char))%nat)
  /\ (cmd_output host (st_host st) (logArgv filePath) = CmdOk EmptyString ->
      outcome (getFileGitHistory host filePath st)
      = Return ([EmptyString], None)).
Proof.
  split; [split|split].
  - intros (history & e & Hr).
    destruct (cmd_output host (st_host st) (logArgv filePath)) as [out|err]
      eqn:Hout.
    + rewrite (getFileGitHistory_ok S host st filePath out Hout) in Hr.
      discriminate Hr.
    + exists err. reflexivity.
  - intros (err & Hout).
    rewrite (getFileGitHistory_err S host st filePath err Hout).
    eexists. eexists. reflexivity.
  - intros out Hout.
    rewrite (getFileGitHistory_ok S host st filePath out Hout).
    split; [reflexivity | apply Split_length].
  - intros Hout.
    rewrite (getFileGitHistory_ok S host st filePath EmptyString Hout).
    reflexivity.
Qed.

Lemma history_fails_iff_command_fails_witness :
  outcome (getFileGitHistory Repo.host "rollout.yaml"
             (mkState Scenario.noHistory []))
  = Return ([EmptyString], None).
Proof.
  exact (proj2 (proj2 (history_fails_iff_command_fails _ Repo.host
                         (mkState Scenario.noHistory []) "rollout.yaml"))
               eq_refl).
Defined.

(** C7 as stated fails on an empty output: the log command succeeds and
    prints nothing, and the reader returns a one-entry history (printed as
    entry 1) instead of failing. *)
Lemma empty_output_history_counterexample :
  cmd_output Repo.host Scenario.noHistory (logArgv "rollout.yaml")
  = CmdOk EmptyString
  /\ getFileGitHistory Repo.host "rollout.yaml" (mkState Scenario.noHistory [])
     = ([Exec (logArgv "rollout.yaml");
         Stdout (nl ++ "Git history for 'rollout.yaml':" ++ nl);
         Stdout (" 1. " ++ nl)],
        mkState Scenario.noHistory [], Return ([EmptyString], None)).
Proof. split; reflexivity. Qed.

(** ** The rollback executor ([rollbackToCommit]) *)

Lemma cmdRun_eq S (host : Host S) (st : state S) (argv : list string)
      (h : S) (err : option string) :
  cmd_run host (st_host st) argv = (h, err) ->
  cmdRun host argv st = ([Exec argv], mkState h (st_stdin st), Return err).
Proof. intros H. unfold cmdRun. rewrite H. reflexivity. Qed.

Lemma rollbackToCommit_checkout_fails S (host : Host S) (st : state S)
      (filePath commit : string) (h1 : S) (e : string) :
  cmd_run host (st_host st) (checkoutArgv filePath commit) = (h1, Some e) ->
  rollbackToCommit host filePath commit st
  = ([Exec (checkoutArgv filePath commit)], mkState h1 (st_stdin st),
     Return (Some ("failed to checkout commit: " ++ e))).
Proof.
  intros H1. unfold rollbackToCommit.
  rewrite (bind_Return S _ _ _ _ st _ _ _ (cmdRun_eq S host st _ h1 _ H1)).
  reflexivity.
Qed.

Lemma rollbackToCommit_checkout_ok S (host : Host S) (st : state S)
      (filePath commit : string) (h1 h2 : S) (err : option string) :
  cmd_run host (st_host st) (checkoutArgv filePath commit) = (h1, None) ->
  cmd_run host h1 (commitArgv filePath commit) = (h2, err) ->
  rollbackToCommit host filePath commit st
  = ([Exec (checkoutArgv filePath commit);
      Exec (commitArgv filePath commit)], mkState h2 (st_stdin st),
     Return (match err with
             | Some e => Some ("failed to create commit: " ++ e)
             | None => None
             end)).
Proof.
  intros H1 H2. unfold rollbackToCommit.
  rewrite (bind_Return S _ _ _ _ st _ _ _ (cmdRun_eq S host st _ h1 _ H1)).
  rewrite (bind_Return S _ _ _ _ (mkState h1 (st_stdin st)) _ _ _
             (cmdRun_eq S host (mkState h1 (st_stdin st)) _ h2 _ H2)).
  destruct err; reflexivity.
Qed.

(** What a checkout and a failed commit do to the model repository. *)
Lemma Repo_lookup_update A (k : string) (v : A) (l : list (string * A)) :
  Repo.lookup k (Repo.update k v l) = Some v.
Proof.
  induction l as [|[k' v'] l IH]; simpl.
  - rewrite String.eqb_refl. reflexivity.
  - destruct (String.eqb k k') eqn:Hk; simpl.
    + rewrite String.eqb_refl. reflexivity.
    + rewrite Hk. exact IH.
Qed.

Lemma Repo_lookup_update_other A (k k' : string) (v : A)
      (l : list (string * A)) :
  k' <> k -> Repo.lookup k' (Repo.update k v l) = Repo.lookup k' l.
Proof.
  intros Hne. apply String.eqb_neq in Hne.
  induction l as [|[k0 v0] l IH]; simpl.
  - rewrite Hne. reflexivity.
  - destruct (String.eqb_spec k k0) as [->|Hk]; simpl.
    + rewrite Hne. reflexivity.
    + rewrite IH. reflexivity.
Qed.

Lemma Repo_update_key A (k : string) (v : A) (l : list (string * A)) :
  In k (map fst (Repo.update k v l)).
Proof.
  induction l as [|[k' v'] l IH]; simpl; [left; reflexivity|].
  destruct (String.eqb k k'); simpl; [left; reflexivity | right; exact IH].
Qed.

Lemma Repo_checkout_ok (r r1 : Repo.t) (filePath commit : string) :
  Repo.run r ["git"; "checkout"; commit; "--"; filePath] = (r1, None) ->
  exists content,
    contentAt r commit filePath = Some content
    /\ r1 = Repo.setWork r (Repo.update filePath content (Repo.workTree r)).
Proof.
  unfold Repo.run, contentAt.
  change (String.eqb "git" "git" && String.eqb "checkout" "checkout"
          && String.eqb "--" "--") with true.
  cbv beta iota.
  destruct (Repo.lookup commit (Repo.revisions r)) as [tree|];
    [|discriminate].
  destruct (Repo.lookup filePath tree) as [content|]; [|discriminate].
  intros H. injection H as <-. exists content. split; reflexivity.
Qed.

Lemma Repo_commit_failed (r1 r2 : Repo.t) (msg filePath e : string) :
  Repo.run r1 ["git"; "commit"; "-m"; msg; filePath] = (r2, Some e) ->
  r2 = r1.
Proof.
  unfold Repo.run.
  change (String.eqb "git" "git" && String.eqb "commit" "checkout"
          && String.eqb msg "--") with false.
  change (String.eqb "git" "git" && String.eqb "commit" "commit"
          && String.eqb "-m" "-m") with true.
  cbv beta iota. unfold Repo.commit.
  destruct (Repo.commitBlocked r1); [intros H; injection H as <- _;
                                     reflexivity|].
  destruct (filter (String.eqb filePath) (Repo.changedPaths r1));
    [intros H; injection H as <- _; reflexivity | discriminate].
Qed.

Lemma Repo_changed_iff (r : Repo.t) (filePath : string) :
  In filePath (Repo.changedPaths r)
  <-> In filePath (map fst (Repo.workTree r))
      /\ Repo.sameContent (Repo.lookup filePath (Repo.workTree r))
                          (Repo.lookup filePath (Repo.headTree r)) = false.
Proof.
  unfold Repo.changedPaths. rewrite filter_In, negb_true_iff. reflexivity.
Qed.

Lemma Repo_sameContent_false (content : string) (committed : option string) :
  Repo.sameContent (Some content) committed = false
  <-> committed <> Some content.
Proof.
  destruct committed as [c|]; simpl.
  - destruct (String.eqb_spec content c) as [->|Hne]; split; intros H.
    + discriminate H.
    + elim H. reflexivity.
    + intros Heq. injection Heq as Heq. congruence.
    + reflexivity.
  - split; intros; [discriminate | reflexivity].
Qed.

(** C4 (amended).  The executor runs [git checkout <commit> -- <file>],
    then [git commit -m <message> <file>].  When the checkout fails that is
    all it has run, and the rollback fails with the checkout error.  When
    the checkout succeeds and the commit fails, the rollback fails with the
    commit error and those two commands are all it has run: nothing undoes
    the checkout.  On the model repository the file is then left with the
    content of the target revision and nothing has been committed (every
    other file and the last commit are as before); the file counts as
    modified exactly when that content differs from the one last
    committed. *)
Theorem rollback_checkout_then_commit S (host : Host S) (st : state S)
        (filePath commit : string) :
  (forall h1 e,
      cmd_run host (st_host st) ["git"; "checkout"; commit; "--"; filePath]
      = (h1, Some e) ->
      rollbackToCommit host filePath commit st
      = ([Exec ["git"; "checkout"; commit; "--"; filePath]],
         mkState h1 (st_stdin st),
         Return (Some ("failed to checkout commit: " ++ e))))
  /\ (forall h1 h2 e,
        cmd_run host (st_host st) ["git"; "checkout"; commit; "--"; filePath]
        = (h1, None) ->
        cmd_run host h1
          ["git"; "commit"; "-m";
           "Successfully rolled back '" ++ filePath ++ "' to commit "
           ++ commit; filePath]
        = (h2, Some e) ->
        rollbackToCommit host filePath commit st
        = ([Exec ["git"; "checkout"; commit; "--"; filePath];
            Exec ["git"; "commit"; "-m";
                  "Successfully rolled back '" ++ filePath
                  ++ "' to commit " ++ commit; filePath]],
           mkState h2 (st_stdin st),
           Return (Some ("failed to create commit: " ++ e))))
  /\ (forall (r r1 r2 : Repo.t) (e : string),
        Repo.run r ["git"; "checkout"; commit; "--"; filePath] = (r1, None) ->
        Repo.run r1
          ["git"; "commit"; "-m";
           "Successfully rolled back '" ++ filePath ++ "' to commit "
           ++ commit; filePath]
        = (r2, Some e) ->
        exists content,
          contentAt r commit filePath = Some content
          /\ Repo.lookup filePath (Repo.workTree r2) = Some content
          /\ (forall other,
                other <> filePath ->
                Repo.lookup other (Repo.workTree r2)
                = Repo.lookup other (Repo.workTree r))
          /\ Repo.headTree r2 = Repo.headTree r
          /\ Repo.commitsMade r2 = Repo.commitsMade r
          /\ (In filePath (Repo.changedPaths r2)
              <-> Repo.lookup filePath (Repo.headTree r) <> Some content)).
Proof.
  split; [|split].
  - intros h1 e H1.
    exact (rollbackToCommit_checkout_fails S host st _ _ h1 e H1).
  - intros h1 h2 e H1 H2.
    exact (rollbackToCommit_checkout_ok S host st _ _ h1 h2 _ H1 H2).
  - intros r r1 r2 e H1 H2.
    destruct (Repo_checkout_ok r r1 filePath commit H1)
      as (content & Hc & ->).
    apply Repo_commit_failed in H2. subst r2.
    exists content. split; [exact Hc|].
    split; [apply Repo_lookup_update|].
    split; [intros other Hne; apply Repo_lookup_update_other; exact Hne|].
    split; [reflexivity|]. split; [reflexivity|].
    rewrite Repo_changed_iff. simpl Repo.workTree. simpl Repo.headTree.
    rewrite Repo_lookup_update, Repo_sameContent_false.
    split; [intros [_ H]; exact H|].
    intros H. split; [apply Repo_update_key | exact H].
Qed.

(** On the repository where commits are refused: the checkout of [abc000]
    restores the working copy, the commit fails, and the working copy stays
    restored while the last commit still has the newer content. *)
Lemma rollback_checkout_then_commit_witness :
  rollbackToCommit Repo.host "rollout.yaml" "abc000"
    (mkState Scenario.blocked [])
  = ([Exec ["git"; "checkout"; "abc000"; "--"; "rollout.yaml"];
      Exec ["git"; "commit"; "-m";
            "Successfully rolled back 'rollout.yaml' to commit abc000";
            "rollout.yaml"]],
     mkState (Repo.setWork Scenario.blocked
                [("rollout.yaml", "replicas: 1"); ("other.txt", "new")]) [],
     Return (Some "failed to create commit: exit status 1")).
Proof.
  exact (proj1 (proj2 (rollback_checkout_then_commit _ Repo.host
                         (mkState Scenario.blocked [])
                         "rollout.yaml" "abc000"))
               _ _ "exit status 1" eq_refl eq_refl).
Defined.

(** C4 as stated fails where the target revision has the content the file
    already has: the checkout succeeds, the commit fails for having nothing
    to record, and the rollback fails with the commit error although the
    working tree is left exactly as it was, with nothing modified. *)
Lemma rollback_same_content_counterexample :
  contentAt Scenario.backAndForth "abc000" "rollout.yaml"
  = Repo.lookup "rollout.yaml" (Repo.headTree Scenario.backAndForth)
  /\ rollbackToCommit Repo.host "rollout.yaml" "abc000"
       (mkState Scenario.backAndForth [])
     = ([Exec ["git"; "checkout"; "abc000"; "--"; "rollout.yaml"];
         Exec ["git"; "commit"; "-m";
               "Successfully rolled back 'rollout.yaml' to commit abc000";
               "rollout.yaml"]],
        mkState Scenario.backAndForth [],
        Return (Some "failed to create commit: exit status 1"))
  /\ Repo.changedPaths Scenario.backAndForth = []
  /\ Repo.workTree Scenario.backAndForth
     = Repo.headTree Scenario.backAndForth.
Proof. repeat split. Qed.

(** ** The selection loop ([handleSingleRolloutFile]) *)

Lemma selectTurn_rejected S (host : Host S) (st : state S)
      (filePath : string) (history : list string) (input : string) :
  rejected history input = true ->
  selectTurn host filePath history input st
  = ([Stdout invalidText], st, Return Continue).
Proof.
  unfold rejected, selectTurn. intros H.
  apply andb_prop in H. destruct H as [Hne Hbad].
  destruct (String.eqb input EmptyString); [discriminate|].
  destruct (Atoi input) as [index|]; [|reflexivity].
  rewrite Hbad. reflexivity.
Qed.

Lemma selectTurn_first S (host : Host S) (st : state S)
      (filePath : string) (history : list string) (input : string) :
  selectedIndex history input = Some 1 ->
  (1 <= List.length history)%nat ->
  selectTurn host filePath history input st
  = ([Stdout (noRollbackText filePath)], st, Return Break).
Proof.
  unfold selectedIndex, selectTurn. intros H HL. rewrite H.
  destruct (Z.ltb_spec (Z.of_nat (List.length history)) 1); [lia|].
  reflexivity.
Qed.

Lemma selectTurn_rollback S (host : Host S) (st : state S)
      (filePath : string) (history : list string) (input : string)
      (index : Z) :
  selectedIndex history input = Some index ->
  2 <= index <= Z.of_nat (List.length history) ->
  selectTurn host filePath history input st
  = bind (rollbackToCommit host filePath (beforeComma (entry history index)))
      (fun err =>
         match err with
         | Some e => print ("Error rolling back: " ++ e ++ nl) ;;; osExit 1
         | None =>
             print ("Successfully rolled back '" ++ filePath
                    ++ "' to commit " ++ beforeComma (entry history index)
                    ++ "." ++ nl) ;;; ret Break
         end) st.
Proof.
  unfold selectedIndex, selectTurn. intros H Hi. rewrite H.
  destruct (Z.ltb_spec index 1); [lia|].
  destruct (Z.ltb_spec (Z.of_nat (List.length history)) index); [lia|].
  destruct (Z.eqb_spec index 1); [lia|].
  cbv beta iota delta [orb]. unfold minusOne.
  rewrite hd_Split_beforeComma. reflexivity.
Qed.

(** The first thing [rollbackToCommit] does is start the checkout. *)
Lemma rollbackToCommit_starts_checkout S (host : Host S) (st : state S)
      (filePath commit : string) :
  exists tail,
    events (rollbackToCommit host filePath commit st)
    = Exec (checkoutArgv filePath commit) :: tail.
Proof.
  destruct (cmd_run host (st_host st) (checkoutArgv filePath commit))
    as [h1 [e|]] eqn:H1.
  - rewrite (rollbackToCommit_checkout_fails S host st _ _ h1 e H1).
    eexists. reflexivity.
  - destruct (cmd_run host h1 (commitArgv filePath commit)) as [h2 err] eqn:H2.
    rewrite (rollbackToCommit_checkout_ok S host st _ _ h1 h2 err H1 H2).
    eexists. reflexivity.
Qed.

Lemma events_bind_prefix S A B (m : Prog S A) (k : A -> Prog S B)
      (st : state S) :
  exists tail, events (bind m k st) = (events (m st) ++ tail)%list.
Proof.
  unfold bind, events. destruct (m st) as [[ev st1] [a|c|]]; simpl.
  - destruct (k a st1) as [[ev2 st2] r]. simpl. eexists. reflexivity.
  - exists []. rewrite app_nil_r. reflexivity.
  - exists []. rewrite app_nil_r. reflexivity.
Qed.

Ltac events_of_triple :=
  match goal with
  | |- context [events (?a, ?b, ?c)] => change (events (a, b, c)) with a
  end.

Lemma rollbackToCommit_returns S (host : Host S) (st : state S)
      (filePath commit : string) :
  exists ev h err,
    rollbackToCommit host filePath commit st
    = (ev, mkState h (st_stdin st), Return err).
Proof.
  destruct (cmd_run host (st_host st) (checkoutArgv filePath commit))
    as [h1 [e|]] eqn:H1.
  - rewrite (rollbackToCommit_checkout_fails S host st _ _ h1 e H1).
    do 3 eexists. reflexivity.
  - destruct (cmd_run host h1 (commitArgv filePath commit)) as [h2 err] eqn:H2.
    rewrite (rollbackToCommit_checkout_ok S host st _ _ h1 h2 err H1 H2).
    do 3 eexists. reflexivity.
Qed.

Lemma selectTurn_not_accepted S (host : Host S) (st : state S)
      (filePath : string) (history : list string) (input : string) :
  accepted history input = false ->
  selectTurn host filePath history input st
  = ([Stdout invalidText], st, Return Continue).
Proof.
  unfold accepted, selectedIndex, selectTurn. intros H.
  destruct (Atoi (if String.eqb input EmptyString
                  then Itoa (defaultIndexOf history) else input))
    as [index|]; [|reflexivity].
  destruct (Z.ltb_spec index 1); [reflexivity|].
  destruct (Z.ltb_spec (Z.of_nat (List.length history)) index);
    [reflexivity|].
  apply andb_false_iff in H. destruct H as [H|H].
  - apply Z.leb_gt in H. lia.
  - apply Z.leb_gt in H. lia.
Qed.

(** A turn on an accepted line ends the loop or the process; it never asks
    again. *)
Lemma selectTurn_accepted S (host : Host S) (st : state S)
      (filePath : string) (history : list string) (input : string) :
  accepted history input = true ->
  exists ev h,
    selectTurn host filePath history input st
    = (ev, mkState h (st_stdin st), Return Break)
    \/ selectTurn host filePath history input st
       = (ev, mkState h (st_stdin st), Exit 1).
Proof.
  unfold accepted. intros H.
  destruct (selectedIndex history input) as [index|] eqn:Hsel;
    [|discriminate].
  apply andb_prop in H. destruct H as [H1 H2].
  apply Z.leb_le in H1. apply Z.leb_le in H2.
  destruct (Z.eq_dec index 1) as [->|Hne].
  - exists [Stdout (noRollbackText filePath)], (st_host st). left.
    rewrite (selectTurn_first S host st filePath history input Hsel);
      [|lia].
    destruct st; reflexivity.
  - rewrite (selectTurn_rollback S host st filePath history input index Hsel);
      [|lia].
    destruct (rollbackToCommit_returns S host st filePath
                (beforeComma (entry history index))) as (ev & h & err & Hr).
    rewrite (bind_Return S _ _ _ _ st _ ev err Hr).
    destruct err as [e|].
    + exists (ev ++ [Stdout ("Error rolling back: " ++ e ++ nl)])%list, h.
      right. reflexivity.
    + eexists. exists h. left. reflexivity.
Qed.

(** The empty line is accepted as soon as the history has an entry. *)
Lemma accepted_empty (history : list string) :
  history <> [] -> accepted history EmptyString = true.
Proof.
  intros Hne. unfold accepted. rewrite selectedIndex_empty.
  destruct (defaultIndexOf_cases history) as [[H _]|[[HL H]|[HL H]]];
    [congruence | |]; rewrite H.
  - rewrite HL. reflexivity.
  - apply andb_true_intro. split; [reflexivity|]. apply Z.leb_le. lia.
Qed.

Lemma scanText_eq S (st : state S) :
  scanText st = ([], afterLine st, Return (nextLine st)).
Proof. destruct st as [h [|l rest]]; reflexivity. Qed.

Lemma nextLine_nil S (st : state S) :
  st_stdin st = [] -> nextLine st = EmptyString.
Proof. unfold nextLine. intros ->. reflexivity. Qed.

Lemma afterLine_nil S (st : state S) : st_stdin st = [] -> afterLine st = st.
Proof. destruct st as [h input]. simpl. intros ->. reflexivity. Qed.

(** A prompt that reads a text other than the empty one has found input. *)
Lemma nextLine_input S (st : state S) :
  nextLine st <> EmptyString -> st_stdin st <> [].
Proof. intros H Hnil. apply H. apply nextLine_nil. exact Hnil. Qed.

Lemma afterLine_pending S (st : state S) :
  st_stdin st <> [] ->
  (pending (st_stdin (afterLine st)) < pending (st_stdin st))%nat.
Proof. apply ScanText_progress. Qed.

Lemma bind_ext_at S A B (m : Prog S A) (k k' : A -> Prog S B)
      (st : state S) :
  (forall ev st1 a, m st = (ev, st1, Return a) -> k a st1 = k' a st1) ->
  bind m k st = bind m k' st.
Proof.
  intros H. unfold bind. destruct (m st) as [[ev1 st1] [a|c|]];
    [rewrite (H _ _ _ eq_refl)|..]; reflexivity.
Qed.

(** A turn that continues has only printed the rejection. *)
Lemma selectTurn_Continue S (host : Host S) (st st1 : state S)
      (filePath : string) (history : list string) (input : string)
      (ev : list event) :
  selectTurn host filePath history input st = (ev, st1, Return Continue) ->
  st1 = st.
Proof.
  intros H. destruct (accepted history input) eqn:Hacc.
  - destruct (selectTurn_accepted S host st filePath history input Hacc)
      as (ev' & h & [Ht|Ht]); rewrite Ht in H; discriminate H.
  - rewrite (selectTurn_not_accepted S host st filePath history input Hacc)
      in H.
    injection H as _ <-. reflexivity.
Qed.

Lemma selectTurns_S S (host : Host S) (fuel : nat) (filePath : string)
      (history : list string) (st : state S) :
  selectTurns host (Datatypes.S fuel) filePath history st
  = bind (print (promptText (defaultIndexOf history)))
      (fun _ =>
         bind (selectTurn host filePath history (nextLine st))
           (fun t =>
              match t with
              | Break => ret tt
              | Continue =>
                  match st_stdin st with
                  | [] => diverge
                  | _ :: _ => selectTurns host fuel filePath history
                  end
              end))
      (afterLine st).
Proof.
  change (selectTurns host (Datatypes.S fuel) filePath history st)
    with (bind (print (promptText (defaultIndexOf history)))
            (fun _ =>
               bind scanText
                 (fun input =>
                    bind (selectTurn host filePath history input)
                      (fun t =>
                         match t with
                         | Break => ret tt
                         | Continue =>
                             match st_stdin st with
                             | [] => diverge
                             | _ :: _ =>
                                 selectTurns host fuel filePath history
                             end
                         end))) st).
  rewrite !bind_print.
  rewrite (bind_Return S _ _ _ _ st (afterLine st) [] _ (scanText_eq S st)).
  simpl app. rewrite triple_eta. reflexivity.
Qed.

(** Two loops that differ only in how they go on after a turn that
    continues on input that is not at its end. *)
Lemma selectTurn_ext S (host : Host S) (st : state S) (filePath : string)
      (history : list string) (k1 k2 : Prog S unit) :
  (st_stdin st <> [] -> k1 (afterLine st) = k2 (afterLine st)) ->
  bind (print (promptText (defaultIndexOf history)))
    (fun _ =>
       bind (selectTurn host filePath history (nextLine st))
         (fun t =>
            match t with
            | Break => ret tt
            | Continue =>
                match st_stdin st with
                | [] => diverge
                | _ :: _ => k1
                end
            end))
    (afterLine st)
  = bind (print (promptText (defaultIndexOf history)))
      (fun _ =>
         bind (selectTurn host filePath history (nextLine st))
           (fun t =>
              match t with
              | Break => ret tt
              | Continue =>
                  match st_stdin st with
                  | [] => diverge
                  | _ :: _ => k2
                  end
              end))
      (afterLine st).
Proof.
  intros H. apply bind_ext_at. intros ev st1 a Hp.
  injection Hp as _ <- _.
  apply bind_ext_at. intros ev' st2 [|] Ht; [|reflexivity].
  apply selectTurn_Continue in Ht. subst st2.
  destruct (st_stdin st) as [|piece more]; [reflexivity|].
  apply H. discriminate.
Qed.

(** The turns [selectLoop] allows are enough: with any larger number the
    loop is the same, so the bound is never what ends it. *)
Lemma selectTurns_fuel S (host : Host S) (filePath : string)
      (history : list string) (fuel1 : nat) :
  forall (fuel2 : nat) (st : state S),
    (pending (st_stdin st) < fuel1)%nat ->
    (pending (st_stdin st) < fuel2)%nat ->
    selectTurns host fuel1 filePath history st
    = selectTurns host fuel2 filePath history st.
Proof.
  induction fuel1 as [|fuel1 IH]; intros fuel2 st H1 H2; [lia|].
  destruct fuel2 as [|fuel2]; [lia|].
  rewrite !selectTurns_S. apply selectTurn_ext. intros Hne.
  pose proof (afterLine_pending S st Hne).
  apply IH; lia.
Qed.

(** One turn of the loop: the prompt, the text a new scanner reads, what
    the turn does with it in the state the scanner leaves, and the loop
    again when the turn continues. *)
Lemma selectLoop_eq S (host : Host S) (st : state S) (filePath : string)
      (history : list string) :
  selectLoop host filePath history st
  = bind (print (promptText (defaultIndexOf history)))
      (fun _ =>
         bind (selectTurn host filePath history (nextLine st))
           (fun t =>
              match t with
              | Break => ret tt
              | Continue =>
                  match st_stdin st with
                  | [] => diverge
                  | _ :: _ => selectLoop host filePath history
                  end
              end))
      (afterLine st).
Proof.
  unfold selectLoop at 1. rewrite selectTurns_S. apply selectTurn_ext.
  intros Hne. pose proof (afterLine_pending S st Hne).
  unfold selectLoop. apply selectTurns_fuel; lia.
Qed.

(** A prompt that reads a rejected text prints the rejection and prompts
    again. *)
Lemma selectLoop_rejected S (host : Host S) (st : state S)
      (filePath : string) (history : list string) :
  rejected history (nextLine st) = true ->
  selectLoop host filePath history st
  = (Stdout (promptText (defaultIndexOf history)) :: Stdout invalidText
       :: events (selectLoop host filePath history (afterLine st)),
     finalState (selectLoop host filePath history (afterLine st)),
     outcome (selectLoop host filePath history (afterLine st))).
Proof.
  intros Hrej. rewrite selectLoop_eq, bind_print.
  rewrite (bind_Return S _ _ _ _ _ _ _ _
             (selectTurn_rejected S host _ filePath history _ Hrej)).
  assert (Hin : st_stdin st <> []).
  { apply nextLine_input. intros He. rewrite He in Hrej. discriminate Hrej. }
  destruct (st_stdin st) as [|piece more]; [congruence|]. reflexivity.
Qed.

Lemma reprompts_quiet (history : list string) (n : nat) :
  commands (reprompts history n) = [] /\ noMutation (reprompts history n).
Proof.
  induction n as [|n [IHc IHm]]; split; try reflexivity.
  - simpl. exact IHc.
  - exact IHm.
Qed.

Lemma afterLines_host S (n : nat) :
  forall st : state S, st_host (afterLines n st) = st_host st.
Proof.
  induction n as [|n IH]; intros st; [reflexivity|].
  simpl. rewrite IH. reflexivity.
Qed.

(** C8.  For a history of any length, every text a prompt reads that is not
    empty and is not a number, or is a number outside [1, L], is answered
    by the rejection message and a new prompt: after any number of such
    prompts in a row the loop is where it started, with the same repository
    and the input the scanners have left, having printed only prompts and
    rejections (no command was started, the process did not exit).  What
    follows is decided by what the next prompt reads. *)
Theorem invalid_input_reprompts S (host : Host S) (filePath : string)
        (history : list string) (n : nat) (st : state S) :
  allRejected history n st = true ->
  selectLoop host filePath history st
  = ((reprompts history n
        ++ events (selectLoop host filePath history (afterLines n st)))%list,
     finalState (selectLoop host filePath history (afterLines n st)),
     outcome (selectLoop host filePath history (afterLines n st)))
  /\ st_host (afterLines n st) = st_host st
  /\ commands (reprompts history n) = []
  /\ noMutation (reprompts history n).
Proof.
  intros Hbad. split; [|split; [apply afterLines_host | apply reprompts_quiet]].
  revert st Hbad. induction n as [|n IH]; intros st Hbad.
  - simpl. rewrite triple_eta. reflexivity.
  - simpl in Hbad. apply andb_prop in Hbad. destruct Hbad as [Hrej Hbad].
    rewrite (selectLoop_rejected S host st filePath history Hrej).
    rewrite (IH (afterLine st) Hbad). reflexivity.
Qed.

(** On a terminal, where every read delivers one line: three rejected
    lines, then the line [1]. *)
Lemma invalid_input_reprompts_witness :
  selectLoop Repo.host "rollout.yaml" (Split Scenario.logText "010"%char)
    (mkState Scenario.repo (Scenario.typed ["x"; "0"; "7"; "1"]))
  = ((reprompts (Split Scenario.logText "010"%char) 3
        ++ [Stdout (promptText 2);
            Stdout (noRollbackText "rollout.yaml")])%list,
     mkState Scenario.repo [], Return tt).
Proof.
  exact (proj1 (invalid_input_reprompts _ Repo.host "rollout.yaml"
                  (Split Scenario.logText "010"%char) 3
                  (mkState Scenario.repo (Scenario.typed ["x"; "0"; "7"; "1"]))
                  eq_refl)).
Defined.

(** The same lines through a pipe that delivers them in one read: the
    scanner of the first prompt takes them all and is dropped with them, so
    the second prompt finds the end of the input, takes the default and
    rolls back to entry 2; the line [1] is never seen. *)
Lemma piped_lines_are_lost :
  selectLoop Repo.host "rollout.yaml" (Split Scenario.logText "010"%char)
    (mkState Scenario.repo (Scenario.piped ["x"; "1"]))
  = ([Stdout (promptText 2); Stdout invalidText; Stdout (promptText 2);
      Exec ["git"; "checkout"; "abc000"; "--"; "rollout.yaml"];
      Exec ["git"; "commit"; "-m";
            "Successfully rolled back 'rollout.yaml' to commit abc000";
            "rollout.yaml"];
      Stdout ("Successfully rolled back 'rollout.yaml' to commit abc000."
              ++ nl)],
     finalState (rollbackToCommit Repo.host "rollout.yaml" "abc000"
                   (mkState Scenario.repo [])),
     Return tt).
Proof. reflexivity. Qed.

(** [handleSingleRolloutFile]: selecting entry 1 of a history of any length
    L >= 1 starts no command; the loop prints that no rollback has been done
    and ends. *)
Lemma first_index_is_noop S (host : Host S) (st : state S)
      (filePath : string) (history : list string) :
  (1 <= List.length history)%nat ->
  selectedIndex history (nextLine st) = Some 1 ->
  selectLoop host filePath history st
  = ([Stdout (promptText (defaultIndexOf history));
      Stdout (noRollbackText filePath)],
     afterLine st, Return tt).
Proof.
  intros HL Hsel. rewrite selectLoop_eq, bind_print.
  rewrite (bind_Return S _ _ _ _ _ _ _ _
             (selectTurn_first S host _ filePath history _ Hsel HL)).
  reflexivity.
Qed.

(** C3.  For a history of length L and a prompt whose text selects an index
    i in [2, L], typed or taken from the default by an empty line, the loop
    prompts with the default min(2, L) and then starts
    [git checkout <id> -- <file>], where <id> is the text of entry i before
    its first comma.  The empty text selects min(2, L).  In the two-entry
    scenario an empty line makes the command check out and commit
    [abc000]. *)
Theorem selection_checks_out_entry S (host : Host S) (st : state S)
        (filePath : string) (history : list string) (i : Z) :
  (selectedIndex history (nextLine st) = Some i ->
   2 <= i <= Z.of_nat (List.length history) ->
   exists tail,
     events (selectLoop host filePath history st)
     = Stdout (promptText (Z.min 2 (Z.of_nat (List.length history))))
         :: Exec ["git"; "checkout"; beforeComma (entry history i); "--";
                  filePath]
         :: tail)
  /\ selectedIndex history EmptyString
     = Some (Z.min 2 (Z.of_nat (List.length history)))
  /\ commands (events (handleSingleRolloutFile Repo.host "rollout.yaml"
                         (mkState Scenario.repo
                            (Scenario.typed [EmptyString]))))
     = [["git"; "log"; "--pretty=format:%h, %an, %ad, %s";
         "--date=format:%Y-%m-%d %H:%M:%S"; "-n"; "10"; "--"; "rollout.yaml"];
        ["git"; "checkout"; "abc000"; "--"; "rollout.yaml"];
        ["git"; "commit"; "-m";
         "Successfully rolled back 'rollout.yaml' to commit abc000";
         "rollout.yaml"]].
Proof.
  split; [|split].
  - intros Hsel Hi. rewrite selectLoop_eq, bind_print.
    rewrite <- defaultIndexOf_min.
    destruct (events_bind_prefix S _ _
                (selectTurn host filePath history (nextLine st))
                (fun t => match t with
                          | Break => ret tt
                          | Continue =>
                              match st_stdin st with
                              | [] => diverge
                              | _ :: _ => selectLoop host filePath history
                              end
                          end) (afterLine st)) as [t1 H1].
    events_of_triple. rewrite H1.
    rewrite (selectTurn_rollback S host _ filePath history _ i Hsel Hi).
    destruct (events_bind_prefix S _ _
                (rollbackToCommit host filePath (beforeComma (entry history i)))
                (fun err =>
                   match err with
                   | Some e =>
                       print ("Error rolling back: " ++ e ++ nl) ;;; osExit 1
                   | None =>
                       print ("Successfully rolled back '" ++ filePath
                              ++ "' to commit "
                              ++ beforeComma (entry history i)
                              ++ "." ++ nl) ;;; ret Break
                   end) (afterLine st)) as [t2 H2].
    rewrite H2.
    destruct (rollbackToCommit_starts_checkout S host
                (afterLine st) filePath
                (beforeComma (entry history i))) as [t3 H3].
    rewrite H3. eexists. simpl. reflexivity.
  - rewrite selectedIndex_empty, defaultIndexOf_min. reflexivity.
  - reflexivity.
Qed.

Lemma selection_checks_out_entry_witness :
  exists tail,
    events (selectLoop Repo.host "rollout.yaml"
              (Split Scenario.logText "010"%char)
              (mkState Scenario.repo (Scenario.typed ["2"])))
    = Stdout (promptText 2)
        :: Exec ["git"; "checkout"; "abc000"; "--"; "rollout.yaml"] :: tail.
Proof.
  refine (proj1 (selection_checks_out_entry _ Repo.host
                   (mkState Scenario.repo (Scenario.typed ["2"]))
                   "rollout.yaml"
                   (Split Scenario.logText "010"%char) 2)
                eq_refl _).
  simpl. lia.
Defined.

(** ** What the commit of the executor contains *)

(** On the model repository, a successful [git commit -m <msg> <file>]
    records a commit with the generated message whose paths are all
    [<file>], whatever else is modified in the work tree. *)
Lemma Repo_commit_restricted (r r' : Repo.t) (filePath commit : string) :
  Repo.run r (commitArgv filePath commit) = (r', None) ->
  exists paths,
    Repo.commitsMade r'
    = (commitMessage filePath commit, paths) :: Repo.commitsMade r
    /\ paths <> []
    /\ Forall (fun p => p = filePath) paths.
Proof.
  unfold commitArgv, Repo.run.
  change (String.eqb "git" "git" && String.eqb "commit" "checkout"
          && String.eqb (commitMessage filePath commit) "--") with false.
  change (String.eqb "git" "git" && String.eqb "commit" "commit"
          && String.eqb "-m" "-m") with true.
  cbv beta iota. unfold Repo.commit.
  destruct (Repo.commitBlocked r); [discriminate|].
  destruct (filter (String.eqb filePath) (Repo.changedPaths r))
    as [|p ps] eqn:Hf; [discriminate|].
  intros H. injection H as H. subst r'.
  exists (p :: ps). split; [reflexivity|]. split; [discriminate|].
  rewrite <- Hf. apply Forall_forall. intros x Hx.
  apply filter_In in Hx. destruct Hx as [_ Hx].
  apply String.eqb_eq in Hx. symmetry. exact Hx.
Qed.

(** [rollbackToCommit] of [src/unnamed/part_001]: after a successful
    checkout the command started is [git commit -m <message> <file>], the
    message naming the file and the revision and the file being the only
    path given. *)
Lemma rollback_commit_names_file S (host : Host S) (st : state S)
      (filePath commit : string) (h1 : S) :
  cmd_run host (st_host st) (checkoutArgv filePath commit) = (h1, None) ->
  commands (events (rollbackToCommit host filePath commit st))
  = [["git"; "checkout"; commit; "--"; filePath];
     ["git"; "commit"; "-m";
      "Successfully rolled back '" ++ filePath ++ "' to commit " ++ commit;
      filePath]].
Proof.
  intros H1.
  destruct (cmd_run host h1 (commitArgv filePath commit)) as [h2 err] eqn:H2.
  rewrite (rollbackToCommit_checkout_ok S host st _ _ h1 h2 err H1 H2).
  reflexivity.
Qed.

(** C5 (the executor of [src/unnamed/part_000]).  With another tracked file
    modified in the work tree, rolling [rollout.yaml] back to [abc000] runs
    [git commit -am <message>] and the commit made contains [other.txt] as
    well as [rollout.yaml]; the executor of [src/unnamed/part_001] on the
    same work tree runs [git commit -m <message> rollout.yaml] and the
    commit contains [rollout.yaml] alone. *)
Theorem cli_commit_includes_other_files :
  commands (events (Cli.rollbackToCommit Repo.host "rollout.yaml" "abc000"
                      (mkState Scenario.repo [])))
  = [["git"; "checkout"; "abc000"; "--"; "rollout.yaml"];
     ["git"; "commit"; "-am";
      "Successfully rolled back 'rollout.yaml' to commit abc000"]]
  /\ Repo.commitsMade
       (st_host (finalState (Cli.rollbackToCommit Repo.host "rollout.yaml"
                               "abc000" (mkState Scenario.repo []))))
     = [("Successfully rolled back 'rollout.yaml' to commit abc000",
         ["rollout.yaml"; "other.txt"])]
  /\ Repo.commitsMade
       (st_host (finalState (rollbackToCommit Repo.host "rollout.yaml"
                               "abc000" (mkState Scenario.repo []))))
     = [("Successfully rolled back 'rollout.yaml' to commit abc000",
         ["rollout.yaml"])].
Proof. repeat split. Qed.

(** ** Selecting the current revision in the inline loop *)

(** The inline loop of [src/unnamed/part_000] treats entry 1 like any other
    entry: for every history of length L >= 1, a line selecting index 1
    starts the checkout of entry 1. *)
Lemma cli_selectTurn_first_checks_out S (host : Host S) (st : state S)
      (inputPath : string) (history : list string) (input : string) :
  (1 <= List.length history)%nat ->
  selectedIndex history input = Some 1 ->
  exists tail,
    events (Cli.selectTurn host inputPath history input st)
    = Exec (checkoutArgv inputPath (beforeComma (entry history 1))) :: tail.
Proof.
  unfold selectedIndex, Cli.selectTurn. intros HL Hsel. rewrite Hsel.
  destruct (Z.ltb_spec 1 1); [lia|].
  destruct (Z.ltb_spec (Z.of_nat (List.length history)) 1); [lia|].
  cbv beta iota delta [orb]. unfold minusOne.
  rewrite hd_Split_beforeComma. fold (entry history 1).
  destruct (events_bind_prefix S _ _
              (Cli.rollbackToCommit host inputPath
                 (beforeComma (entry history 1)))
              (fun err =>
                 match err with
                 | Some e =>
                     print ("Error rolling back: " ++ e ++ nl) ;;; osExit 1
                 | None =>
                     print ("Successfully rolled back '" ++ inputPath
                            ++ "' to commit "
                            ++ beforeComma (entry history 1)
                            ++ "." ++ nl) ;;; ret Break
                 end) st) as [t1 H1].
  rewrite H1.
  destruct (events_bind_prefix S _ _
              (cmdRun host (checkoutArgv inputPath
                              (beforeComma (entry history 1))))
              (fun err =>
                 match err with
                 | Some e => ret (Some ("failed to checkout commit: " ++ e))
                 | None =>
                     err0 <- cmdRun host
                               (Cli.commitAllArgv inputPath
                                  (beforeComma (entry history 1))) ;;
                     match err0 with
                     | Some e => ret (Some ("failed to create commit: " ++ e))
                     | None => ret None
                     end
                 end) st) as [t2 H2].
  unfold Cli.rollbackToCommit. rewrite H2.
  unfold cmdRun at 1.
  destruct (cmd_run host (st_host st)
              (checkoutArgv inputPath (beforeComma (entry history 1)))).
  eexists. reflexivity.
Qed.

(** C2 (the loop of [src/unnamed/part_000]).  With a two-entry history the
    line [1] makes the inline loop check out entry 1 and commit, where
    [handleSingleRolloutFile] of [src/unnamed/part_001] starts no command
    after the history query and reports that no rollback has been done. *)
Theorem cli_first_index_rolls_back :
  commands (events (Cli.Run Repo.host "rollout.yaml"
                      (mkState Scenario.repo ["1"])))
  = [revParseArgv; branchArgv; logArgv "rollout.yaml";
     checkoutArgv "rollout.yaml" "abc123";
     Cli.commitAllArgv "rollout.yaml" "abc123"]
  /\ Repo.commitsMade
       (st_host (finalState (Cli.Run Repo.host "rollout.yaml"
                               (mkState Scenario.repo ["1"]))))
     = [("Successfully rolled back 'rollout.yaml' to commit abc123",
         ["other.txt"])]
  /\ commands (events (Run Repo.host "rollout.yaml"
                         (mkState Scenario.repo ["1"])))
     = [revParseArgv; branchArgv; logArgv "rollout.yaml"]
  /\ In (Stdout (noRollbackText "rollout.yaml"))
        (events (Run Repo.host "rollout.yaml" (mkState Scenario.repo ["1"]))).
Proof.
  split; [reflexivity|]. split; [reflexivity|]. split; [reflexivity|].
  simpl. tauto.
Qed.

(** ** The walker ([countRolloutFiles]) *)

Lemma all_ascii (a : ascii) : In a (map ascii_of_nat (seq 0 256)).
Proof.
  apply in_map_iff. exists (nat_of_ascii a). split.
  - apply ascii_nat_embedding.
  - apply in_seq. pose proof (nat_ascii_bounded a). lia.
Qed.

(** Against a byte that is not an upper-case letter, the byte comparison of
    [EqualFold] is equality after lowering. *)
Lemma foldEqByte_lower (a b : ascii) :
  isUpper b = false -> foldEqByte a b = Ascii.eqb (lowerByte a) b.
Proof.
  assert (Hall :
    forallb (fun x =>
      forallb (fun y =>
        implb (negb (isUpper y))
              (Bool.eqb (foldEqByte x y) (Ascii.eqb (lowerByte x) y)))
        (map ascii_of_nat (seq 0 256)))
      (map ascii_of_nat (seq 0 256)) = true) by (vm_compute; reflexivity).
  intros Hb.
  rewrite forallb_forall in Hall. specialize (Hall a (all_ascii a)).
  rewrite forallb_forall in Hall. specialize (Hall b (all_ascii b)).
  rewrite Hb in Hall. simpl in Hall. apply Bool.eqb_prop in Hall. exact Hall.
Qed.

Lemma EqualFold_lower (t : string) :
  noUpper t = true ->
  forall s, EqualFold s t = String.eqb (ToLower s) t.
Proof.
  induction t as [|b t IH]; intros Ht s.
  - destruct s; reflexivity.
  - simpl in Ht. apply andb_prop in Ht. destruct Ht as [Hb Ht].
    apply negb_true_iff in Hb.
    destruct s as [|a s]; [reflexivity|].
    simpl. rewrite (foldEqByte_lower a b Hb), (IH Ht s).
    destruct (Ascii.eqb (lowerByte a) b); reflexivity.
Qed.

(** A name passes the test of the walker exactly when it is [rollout.yaml]
    up to the case of its letters. *)
Lemma EqualFold_targetName (s : string) :
  EqualFold s targetName = String.eqb (ToLower s) targetName.
Proof. apply EqualFold_lower. reflexivity. Qed.

(** Induction on a tree together with the entries of its directories. *)
Lemma fsnode_nested_ind (P : fsnode -> Prop) :
  (forall name err, P (Missing name err)) ->
  (forall name, P (File name)) ->
  (forall name readErr entries,
      Forall P entries -> P (Dir name readErr entries)) ->
  forall node, P node.
Proof.
  intros HM HF HD. fix IH 1. intros [name err|name|name readErr entries].
  - apply HM.
  - apply HF.
  - apply HD. induction entries as [|e es IHes]; constructor;
      [apply IH | exact IHes].
Qed.

Lemma walkNames_cons St (Join : string -> string -> string)
      (fn : WalkFunc St) (rec : string -> fsnode -> St -> St * option error)
      (path : string) (e : fsnode) (es : list fsnode) (st : St) :
  walkNames Join fn rec path (e :: es) st
  = match e with
    | Missing _ err =>
        match fn (Join path (nodeName e)) (Failed None (OsError err)) st with
        | (st', None) => walkNames Join fn rec path es st'
        | (st', Some SkipDir) => walkNames Join fn rec path es st'
        | (st', Some e') => (st', Some e')
        end
    | _ =>
        match rec (Join path (nodeName e)) e st with
        | (st', None) => walkNames Join fn rec path es st'
        | (st', Some e') =>
            if negb (nodeIsDir e) || negb (isSkipDir e')
            then (st', Some e')
            else walkNames Join fn rec path es st'
        end
    end.
Proof. destruct e; reflexivity. Qed.

(** The loop moves on after an entry whose walk ends without error, and
    ends with the error of an entry whose walk fails. *)
Lemma walkNames_next St (Join : string -> string -> string)
      (fn : WalkFunc St) (path : string) (e : fsnode) (es : list fsnode)
      (st st' : St) :
  readable e = true ->
  walk Join fn (Join path (nodeName e)) e st = (st', None) ->
  walkNames Join fn (walk Join fn) path (e :: es) st
  = walkNames Join fn (walk Join fn) path es st'.
Proof.
  intros Hr Hw. rewrite walkNames_cons.
  destruct e as [n err|n|n r l]; [discriminate Hr | |]; rewrite Hw;
    reflexivity.
Qed.

Lemma walkNames_stop St (Join : string -> string -> string)
      (fn : WalkFunc St) (path : string) (e : fsnode) (es : list fsnode)
      (st st' : St) (msg : string) :
  walk Join fn (Join path (nodeName e)) e st = (st', Some (OsError msg)) ->
  walkNames Join fn (walk Join fn) path (e :: es) st
  = (st', Some (OsError msg)).
Proof.
  intros Hw. rewrite walkNames_cons.
  destruct e as [n err|n|n r l].
  - simpl in Hw. simpl nodeName. rewrite Hw. reflexivity.
  - rewrite Hw. reflexivity.
  - rewrite Hw. reflexivity.
Qed.

Lemma walkNames_collects (Join : string -> string -> string) (path : string)
      (es : list fsnode) :
  Forall (collects Join) es ->
  forall files : list string,
    (forallb readable es = true ->
     walkNames Join collectRollout (walk Join collectRollout) path es files
     = ((files
         ++ map fst
              (filter isRolloutFile
                 (flat_map
                    (fun e => visited Join (Join path (nodeName e)) e)
                    es)))%list,
        None))
    /\ (forallb readable es = false ->
        exists files' e,
          walkNames Join collectRollout (walk Join collectRollout) path es
            files
          = (files', Some (OsError e))).
Proof.
  induction 1 as [|e es He Hes IH]; intros files.
  - split; [intros _; simpl; rewrite app_nil_r; reflexivity | discriminate].
  - destruct (He (Join path (nodeName e)) files) as [Hok Hbad].
    simpl forallb. simpl flat_map. rewrite filter_app, map_app.
    destruct (readable e) eqn:Hr.
    + rewrite (walkNames_next _ Join collectRollout path e es files _ Hr
                 (Hok eq_refl)).
      unfold rolloutFilesOf.
      destruct (IH (files ++ map fst
                      (filter isRolloutFile
                         (visited Join (Join path (nodeName e)) e)))%list)
        as [IHok IHbad].
      split; intros Hall.
      * rewrite (IHok Hall), app_assoc. reflexivity.
      * exact (IHbad Hall).
    + split; [discriminate|]. intros _.
      destruct (Hbad eq_refl) as (files' & msg & Hw).
      rewrite (walkNames_stop _ Join collectRollout path e es files files'
                 msg Hw).
      exists files', msg. reflexivity.
Qed.

Lemma walk_collects (Join : string -> string -> string) (node : fsnode) :
  collects Join node.
Proof.
  induction node as [name err|name|name readErr entries IH]
    using fsnode_nested_ind; intros path files.
  - split; [discriminate|]. intros _. simpl. eexists. eexists. reflexivity.
  - split; [|discriminate]. intros _.
    unfold rolloutFilesOf, isRolloutFile. simpl.
    rewrite <- EqualFold_targetName.
    destruct (EqualFold name targetName); simpl;
      [reflexivity | rewrite app_nil_r; reflexivity].
  - destruct readErr as [e|].
    + split; [discriminate|]. intros _. simpl. eexists. eexists. reflexivity.
    + destruct (walkNames_collects Join path entries IH files) as [Hok Hbad].
      change (walk Join collectRollout path (Dir name None entries) files)
        with (walkNames Join collectRollout (walk Join collectRollout) path
                entries files).
      split.
      * intros Hr. simpl in Hr. rewrite (Hok Hr). reflexivity.
      * intros Hr. simpl in Hr. exact (Hbad Hr).
Qed.

(** [countRolloutFiles] returns the rollout files below the root, in the
    order of the walk, when every entry can be read, and no file and the
    error otherwise. *)
Lemma countRolloutFiles_spec S (host : Host S) (st : state S)
      (dirPath : string) :
  (readable (fs_tree host (st_host st) dirPath) = true ->
   countRolloutFiles host dirPath st
   = ([], st,
      Return (rolloutFilesOf (path_join host) dirPath
                (fs_tree host (st_host st) dirPath), None)))
  /\ (readable (fs_tree host (st_host st) dirPath) = false ->
      exists e,
        countRolloutFiles host dirPath st
        = ([], st, Return ([], Some (OsError e)))).
Proof.
  unfold countRolloutFiles, Walk.
  destruct (walk_collects (path_join host)
              (fs_tree host (st_host st) dirPath) dirPath [])
    as [Hok Hbad].
  split; intros Hr.
  - rewrite (Hok Hr). reflexivity.
  - destruct (Hbad Hr) as (files' & e & Hw). rewrite Hw.
    exists e. reflexivity.
Qed.

(** The scenario of three [rollout.yaml] at different depths and one
    [Rollout.YAML]: the walker returns the four paths. *)
Lemma countRolloutFiles_four_paths :
  countRolloutFiles Repo.host "deploy" (mkState Scenario.withTrees [])
  = ([], mkState Scenario.withTrees [],
     Return (["deploy/Rollout.YAML"; "deploy/prod/eu/rollout.yaml";
              "deploy/prod/rollout.yaml"; "deploy/rollout.yaml"], None)).
Proof. reflexivity. Qed.

(** C9 (the walk of [src/main.go]).  Below a directory whose only entry is
    a directory named [rollout.yaml] holding another file, there is no
    rollout file and [countRolloutFiles] of [src/unnamed/part_001] returns
    none, but the walk of [src/main.go] counts the directory and the command
    reports one file named [rollout.yaml]. *)
Theorem legacy_walk_counts_directories :
  rolloutFilesOf Repo.join "charts" Scenario.dirNamedRollout = []
  /\ outcome (countRolloutFiles Repo.host "charts"
                (mkState Scenario.withTrees []))
     = Return ([], None)
  /\ outcome (Legacy.walkCount Repo.host "charts"
                (mkState Scenario.withTrees []))
     = Return (1, None)
  /\ printed (events (Legacy.Run Repo.host "charts"
                        (mkState Scenario.withTrees ["no"])))
     = "The path 'charts' exists and is a directory." ++ nl
       ++ "Found 1 files named 'rollout.yaml' in the directory 'charts'."
       ++ nl ++ "Would you like to continue? (yes/no): "
       ++ "Operation aborted by the user." ++ nl.
Proof. repeat split. Qed.

(** ** The dispatch ([Run]) and the directory flow *)

Lemma isGitRepo_pass S (host : Host S) (st : state S) :
  guardPasses host st = true ->
  exists b,
    isGitRepo host st = (guardEvents, st, Return (true, b, None)).
Proof.
  unfold guardPasses, insideWorkTree, currentBranch, isGitRepo, bind,
    cmdOutput.
  intros H. apply andb_prop in H. destruct H as [Hin Hb].
  destruct (cmd_output host (st_host st) revParseArgv) as [out|e];
    [|discriminate].
  rewrite Hin. cbv beta iota delta [negb].
  destruct (cmd_output host (st_host st) branchArgv) as [bout|e];
    [|discriminate].
  apply negb_true_iff in Hb. rewrite Hb.
  exists (TrimSpace bout). reflexivity.
Qed.

Lemma Run_dispatch S (host : Host S) (st : state S) (inputPath : string) :
  pathExists host st inputPath = true ->
  guardPasses host st = true ->
  Run host inputPath st
  = ((guardEvents ++ events (flowFor host inputPath st))%list,
     finalState (flowFor host inputPath st),
     outcome (flowFor host inputPath st)).
Proof.
  intros Hex Hguard.
  destruct (isGitRepo_pass S host st Hguard) as [b Hb].
  rewrite (Run_exists S host st inputPath Hex).
  rewrite (bind_Return S _ _ _ _ st st guardEvents _ Hb).
  reflexivity.
Qed.

(** C10.  Once the path exists and the guard passes, [Run] goes on with the
    single-file flow when the path ends in the lower-case [rollout.yaml] and
    with the directory flow otherwise, whether the path is a file or a
    directory.  A directory whose name ends in [rollout.yaml] gets the
    single-file flow (its history and the prompt); the regular file
    [Rollout.YAML] gets the directory flow, whose walker finds that very
    file since it compares names without regard to case. *)
Theorem dispatch_by_suffix_only S (host : Host S) (st : state S)
        (inputPath : string) :
  (pathExists host st inputPath = true ->
   guardPasses host st = true ->
   Run host inputPath st
   = ((guardEvents
       ++ events ((if HasSuffix inputPath targetName
                   then handleSingleRolloutFile host inputPath
                   else handleDirectoryRolloutFiles host inputPath) st))%list,
      finalState ((if HasSuffix inputPath targetName
                   then handleSingleRolloutFile host inputPath
                   else handleDirectoryRolloutFiles host inputPath) st),
      outcome ((if HasSuffix inputPath targetName
                then handleSingleRolloutFile host inputPath
                else handleDirectoryRolloutFiles host inputPath) st)))
  /\ (os_stat Repo.host Scenario.withTrees "old-rollout.yaml" = StatInfo true
      /\ Run Repo.host "old-rollout.yaml" (mkState Scenario.withTrees ["1"])
         = ((guardEvents
             ++ events (handleSingleRolloutFile Repo.host "old-rollout.yaml"
                          (mkState Scenario.withTrees ["1"])))%list,
            mkState Scenario.withTrees [], Return tt))
  /\ (os_stat Repo.host Scenario.withTrees "Rollout.YAML" = StatInfo false
      /\ Run Repo.host "Rollout.YAML" (mkState Scenario.withTrees ["no"])
         = ((guardEvents
             ++ events (handleDirectoryRolloutFiles Repo.host "Rollout.YAML"
                          (mkState Scenario.withTrees ["no"])))%list,
            mkState Scenario.withTrees [], Exit 0)
      /\ outcome (countRolloutFiles Repo.host "Rollout.YAML"
                    (mkState Scenario.withTrees ["no"]))
         = Return (["Rollout.YAML"], None)).
Proof.
  split; [|split].
  - intros Hex Hguard.
    exact (Run_dispatch S host st inputPath Hex Hguard).
  - split; reflexivity.
  - repeat split.
Qed.

Lemma dispatch_by_suffix_only_witness :
  Run Repo.host "Rollout.YAML"
    (mkState Scenario.withTrees (Scenario.typed ["yes"; "2"]))
  = ((guardEvents
      ++ events (handleDirectoryRolloutFiles Repo.host "Rollout.YAML"
                   (mkState Scenario.withTrees
                      (Scenario.typed ["yes"; "2"]))))%list,
     finalState (handleDirectoryRolloutFiles Repo.host "Rollout.YAML"
                   (mkState Scenario.withTrees
                      (Scenario.typed ["yes"; "2"]))),
     outcome (handleDirectoryRolloutFiles Repo.host "Rollout.YAML"
                (mkState Scenario.withTrees (Scenario.typed ["yes"; "2"])))).
Proof.
  exact (proj1 (dispatch_by_suffix_only _ Repo.host
                  (mkState Scenario.withTrees (Scenario.typed ["yes"; "2"]))
                  "Rollout.YAML")
               eq_refl eq_refl).
Defined.

(** The directory flow when the walk finds nothing: the count, one
    question, and the end of the command whatever the answer. *)
Lemma handleDirectory_no_files S (host : Host S) (st : state S)
      (dirPath : string) :
  countRolloutFiles host dirPath st = ([], st, Return ([], None)) ->
  handleDirectoryRolloutFiles host dirPath st
  = ([Stdout (foundText 0); Stdout (confirmText 0);
      Stdout (if saysYes (nextLine st) then proceedingText else abortedText)],
     afterLine st,
     if saysYes (nextLine st) then Return tt else Exit 0).
Proof.
  intros Hc. unfold handleDirectoryRolloutFiles.
  rewrite (bind_Return S _ _ _ _ st st [] _ Hc).
  cbv beta iota. simpl List.length. simpl Z.of_nat.
  rewrite bind_print. simpl printFiles. rewrite bind_ret, bind_print.
  rewrite (bind_Return S _ _ _ _ st (afterLine st) [] _ (scanText_eq S st)).
  unfold saysYes.
  destruct (String.eqb (ToLower (nextLine st)) "yes"); reflexivity.
Qed.

(** [Run] of [src/unnamed/part_001] on an existing regular file whose path
    does not end in [rollout.yaml] and whose name is not [rollout.yaml] in
    any case of its letters: once the guard has passed the command reports
    that it found no rollout file and asks its question, starts no checkout
    and no commit, and ends with status 0 whatever the answer.  It never
    reports that the file is not a rollout file. *)
Lemma unmatched_file_asks_question S (host : Host S) (st : state S)
      (inputPath name : string) :
  pathExists host st inputPath = true ->
  guardPasses host st = true ->
  HasSuffix inputPath targetName = false ->
  fs_tree host (st_host st) inputPath = File name ->
  String.eqb (ToLower name) targetName = false ->
  Run host inputPath st
  = ((guardEvents
      ++ [Stdout (foundText 0); Stdout (confirmText 0);
          Stdout (if saysYes (nextLine st)
                  then proceedingText else abortedText)])%list,
     afterLine st,
     if saysYes (nextLine st) then Return tt else Exit 0)
  /\ exitStatus (outcome (Run host inputPath st)) = Some 0
  /\ noMutation (events (Run host inputPath st))
  /\ st_host (finalState (Run host inputPath st)) = st_host st.
Proof.
  intros Hex Hguard Hsuffix Htree Hname.
  assert (Hcount :
    countRolloutFiles host inputPath st = ([], st, Return ([], None))).
  { destruct (countRolloutFiles_spec S host st inputPath) as [Hok _].
    rewrite Htree in Hok. rewrite (Hok eq_refl).
    unfold rolloutFilesOf, isRolloutFile. simpl. rewrite Hname. reflexivity. }
  assert (Hrun :
    Run host inputPath st
    = ((guardEvents
        ++ [Stdout (foundText 0); Stdout (confirmText 0);
            Stdout (if saysYes (nextLine st)
                    then proceedingText else abortedText)])%list,
       afterLine st,
       if saysYes (nextLine st) then Return tt else Exit 0)).
  { rewrite (Run_dispatch S host st inputPath Hex Hguard).
    unfold flowFor. rewrite Hsuffix.
    rewrite (handleDirectory_no_files S host st inputPath Hcount).
    reflexivity. }
  rewrite Hrun. split; [reflexivity|].
  split; [destruct (saysYes (nextLine st)); reflexivity|].
  split; reflexivity.
Qed.

(** C6 (the dispatch of [src/unnamed/part_001]).  On the existing regular
    file [config.yaml] the command does not report that the file is not a
    rollout file and stop, as the commands of [src/unnamed/part_000] and
    [src/main.go] do on the same file: it reports a count of 0 and asks
    whether to continue, reading the answer.  On the regular file
    [Rollout.YAML], whose name is not the target name, it goes on to check
    out and commit once the operator agrees. *)
Theorem unmatched_file_not_reported :
  os_stat Repo.host Scenario.withTrees "config.yaml" = StatInfo false
  /\ Run Repo.host "config.yaml"
       (mkState Scenario.withTrees (Scenario.typed ["no"]))
     = ([Exec revParseArgv; Exec branchArgv;
         Stdout ("Found 0 rollout.yaml files:" ++ nl);
         Stdout ("Would you like to continue with rolling back all 0 of "
                 ++ "these files? (yes/no): ");
         Stdout ("Operation aborted by the user." ++ nl)],
        mkState Scenario.withTrees [], Exit 0)
  /\ Cli.Run Repo.host "config.yaml"
       (mkState Scenario.withTrees (Scenario.typed ["no"]))
     = ([Exec revParseArgv; Exec branchArgv;
         Stdout ("The file is not named 'rollout.yaml'." ++ nl)],
        mkState Scenario.withTrees (Scenario.typed ["no"]), Return tt)
  /\ Legacy.Run Repo.host "config.yaml"
       (mkState Scenario.withTrees (Scenario.typed ["no"]))
     = ([Exec revParseArgv; Exec branchArgv;
         Stdout ("The path 'config.yaml' exists and is a file." ++ nl);
         Stdout ("The file is not named 'rollout.yaml'." ++ nl)],
        mkState Scenario.withTrees (Scenario.typed ["no"]), Return tt)
  /\ os_stat Repo.host Scenario.withTrees "Rollout.YAML" = StatInfo false
  /\ commands (events (Run Repo.host "Rollout.YAML"
                         (mkState Scenario.withTrees
                            (Scenario.typed ["yes"; "2"]))))
     = [revParseArgv; branchArgv; logArgv "Rollout.YAML";
        ["git"; "checkout"; "abc000"; "--"; "Rollout.YAML"];
        ["git"; "commit"; "-m";
         "Successfully rolled back 'Rollout.YAML' to commit abc000";
         "Rollout.YAML"]].
Proof. repeat split. Qed.

(** ** How a failed rollback ends the command *)

(** When the selected entry's checkout succeeds and the commit fails, the
    loop prints the commit error and the process exits with status 1; the
    checkout and the commit are the only commands started. *)
Lemma commit_failure_exits S (host : Host S) (st : state S)
      (filePath : string) (history : list string) (i : Z) (h1 h2 : S)
      (e : string) :
  selectedIndex history (nextLine st) = Some i ->
  2 <= i <= Z.of_nat (List.length history) ->
  cmd_run host (st_host st)
    (checkoutArgv filePath (beforeComma (entry history i))) = (h1, None) ->
  cmd_run host h1 (commitArgv filePath (beforeComma (entry history i)))
  = (h2, Some e) ->
  selectLoop host filePath history st
  = ([Stdout (promptText (defaultIndexOf history));
      Exec (checkoutArgv filePath (beforeComma (entry history i)));
      Exec (commitArgv filePath (beforeComma (entry history i)));
      Stdout ("Error rolling back: failed to create commit: " ++ e ++ nl)],
     mkState h2 (st_stdin (afterLine st)), Exit 1).
Proof.
  intros Hsel Hi H1 H2. rewrite selectLoop_eq, bind_print.
  assert (Hturn :
    selectTurn host filePath history (nextLine st) (afterLine st)
    = ([Exec (checkoutArgv filePath (beforeComma (entry history i)));
        Exec (commitArgv filePath (beforeComma (entry history i)));
        Stdout ("Error rolling back: failed to create commit: " ++ e ++ nl)],
       mkState h2 (st_stdin (afterLine st)), @Exit turn 1)).
  { rewrite (selectTurn_rollback S host _ filePath history _ i Hsel Hi).
    rewrite (bind_Return S _ _ _ _ _ _ _ _
               (rollbackToCommit_checkout_ok S host
                  (afterLine st) filePath
                  (beforeComma (entry history i)) h1 h2 (Some e) H1 H2)).
    reflexivity. }
  rewrite (bind_Exit S _ _ _ _ _ _ _ _ Hturn). reflexivity.
Qed.

(** * Further properties of the three commands *)

(** ** The guard in full *)

Lemma isGitRepo_outside S (host : Host S) (st : state S) :
  insideWorkTree host st = false ->
  isGitRepo host st
  = ([Exec revParseArgv], st,
     Return (false, EmptyString, Some "not a git repository")).
Proof.
  unfold insideWorkTree, isGitRepo, bind, cmdOutput. intros Hin.
  destruct (cmd_output host (st_host st) revParseArgv) as [out|e];
    [|reflexivity].
  rewrite Hin. reflexivity.
Qed.

Lemma isGitRepo_no_branch S (host : Host S) (st : state S) :
  insideWorkTree host st = true ->
  currentBranch host st = None ->
  isGitRepo host st
  = (guardEvents, st,
     Return (false, EmptyString, Some "failed to get the current branch")).
Proof.
  unfold insideWorkTree, currentBranch, isGitRepo, bind, cmdOutput.
  intros Hin Hb.
  destruct (cmd_output host (st_host st) revParseArgv) as [out|e];
    [|discriminate].
  rewrite Hin. cbv beta iota delta [negb].
  destruct (cmd_output host (st_host st) branchArgv) as [bout|e];
    [discriminate|]. reflexivity.
Qed.

(** A guard that does not pass answers with an error, having started
    nothing but its queries. *)
Lemma isGitRepo_fails S (host : Host S) (st : state S) :
  guardPasses host st = false ->
  exists ev ok b err,
    isGitRepo host st = (ev, st, Return (ok, b, Some err))
    /\ noMutation ev.
Proof.
  unfold guardPasses. intros H.
  destruct (insideWorkTree host st) eqn:Hin.
  - destruct (currentBranch host st) as [b|] eqn:Hb.
    + rewrite Bool.andb_true_l in H. apply negb_false_iff in H.
      apply existsb_exists in H. destruct H as (x & Hx & Heq).
      apply String.eqb_eq in Heq. subst x.
      exists guardEvents, true, b, (protectedError b).
      split; [|reflexivity].
      apply (isGitRepo_protected S host st b Hin Hb Hx).
    + exists guardEvents, false, EmptyString,
        "failed to get the current branch".
      split; [|reflexivity]. apply (isGitRepo_no_branch S host st Hin Hb).
  - exists [Exec revParseArgv], false, EmptyString, "not a git repository".
    split; [|reflexivity]. apply (isGitRepo_outside S host st Hin).
Qed.

(** X2.  When the path does not exist or the guard does not pass, [Run]
    exits with status 1 without starting a checkout or a commit and leaves
    the state as it was; for a path that does not exist it starts no command
    at all and prints only that the path does not exist. *)
Theorem run_refused_before_any_flow S (host : Host S) (st : state S)
        (inputPath : string) :
  pathExists host st inputPath = false \/ guardPasses host st = false ->
  outcome (Run host inputPath st) = Exit 1
  /\ finalState (Run host inputPath st) = st
  /\ noMutation (events (Run host inputPath st))
  /\ (pathExists host st inputPath = false ->
      events (Run host inputPath st)
      = [Stdout ("The path '" ++ inputPath ++ "' does not exist." ++ nl)]).
Proof.
  intros H.
  destruct (pathExists host st inputPath) eqn:Hex.
  - destruct H as [H|Hg]; [discriminate|].
    destruct (isGitRepo_fails S host st Hg) as (ev & ok & b & err & Hf & Hq).
    rewrite (Run_guarded S host st inputPath ev ok b err Hex Hf).
    split; [reflexivity|]. split; [reflexivity|].
    split; [|discriminate].
    apply noMutation_app; [exact Hq | reflexivity].
  - assert (Hrun :
      Run host inputPath st
      = ([Stdout ("The path '" ++ inputPath ++ "' does not exist." ++ nl)],
         st, Exit 1)).
    { unfold pathExists in Hex. unfold Run.
      rewrite (bind_Return S _ _ (osStat host inputPath) _ st st []
                 (os_stat host (st_host st) inputPath) eq_refl).
      destruct (os_stat host (st_host st) inputPath); try discriminate.
      reflexivity. }
    rewrite Hrun. repeat split.
Qed.

Lemma run_refused_before_any_flow_witness :
  outcome (Run Repo.host "rollout.yaml" (mkState Scenario.inGitDir ["2"]))
  = Exit 1
  /\ finalState (Run Repo.host "rollout.yaml"
                   (mkState Scenario.inGitDir ["2"]))
     = mkState Scenario.inGitDir ["2"]
  /\ noMutation (events (Run Repo.host "rollout.yaml"
                           (mkState Scenario.inGitDir ["2"])))
  /\ (pathExists Repo.host (mkState Scenario.inGitDir ["2"]) "rollout.yaml"
      = false ->
      events (Run Repo.host "rollout.yaml" (mkState Scenario.inGitDir ["2"]))
      = [Stdout ("The path '" ++ "rollout.yaml" ++ "' does not exist." ++ nl)]).
Proof.
  apply (run_refused_before_any_flow _ Repo.host
           (mkState Scenario.inGitDir ["2"]) "rollout.yaml").
  right. reflexivity.
Defined.

(** ** The single-file flow as a whole *)

Lemma handleSingle_history_ok S (host : Host S) (st : state S)
      (filePath out : string) :
  cmd_output host (st_host st) (logArgv filePath) = CmdOk out ->
  handleSingleRolloutFile host filePath st
  = ((Exec (logArgv filePath) :: historyReport filePath (historyOf out)
      ++ events (selectLoop host filePath (historyOf out) st))%list,
     finalState (selectLoop host filePath (historyOf out) st),
     outcome (selectLoop host filePath (historyOf out) st)).
Proof.
  intros Hout. unfold handleSingleRolloutFile.
  rewrite (bind_Return S _ _ _ _ st st _ _
             (getFileGitHistory_ok S host st filePath out Hout)).
  reflexivity.
Qed.

Lemma handleSingle_history_err S (host : Host S) (st : state S)
      (filePath err : string) :
  cmd_output host (st_host st) (logArgv filePath) = CmdErr err ->
  handleSingleRolloutFile host filePath st
  = ([Exec (logArgv filePath);
      Stdout ("Error: failed to retrieve git history: " ++ err ++ nl)],
     st, Exit 1).
Proof.
  intros Hout. unfold handleSingleRolloutFile.
  rewrite (bind_Return S _ _ _ _ st st _ _
             (getFileGitHistory_err S host st filePath err Hout)).
  reflexivity.
Qed.

(** With a history that has an entry the loop ends, whatever the input:
    a rejected text has used some of the input, and at the end of the input
    the default is accepted. *)
Lemma selectLoop_ends S (host : Host S) (filePath : string)
      (history : list string) :
  history <> [] ->
  forall (n : nat) (st : state S),
    (pending (st_stdin st) <= n)%nat ->
    outcome (selectLoop host filePath history st) = Return tt
    \/ outcome (selectLoop host filePath history st) = Exit 1.
Proof.
  intros Hne.
  assert (Hstep :
    forall st : state S,
      (st_stdin st <> [] ->
       outcome (selectLoop host filePath history (afterLine st)) = Return tt
       \/ outcome (selectLoop host filePath history (afterLine st)) = Exit 1) ->
      outcome (selectLoop host filePath history st) = Return tt
      \/ outcome (selectLoop host filePath history st) = Exit 1).
  { intros st Hnext. rewrite selectLoop_eq, bind_print.
    destruct (accepted history (nextLine st)) eqn:Hacc.
    - destruct (selectTurn_accepted S host (afterLine st)
                  filePath history (nextLine st) Hacc) as (ev & h & [Ht|Ht]).
      + rewrite (bind_Return S _ _ _ _ _ _ ev Break Ht). left. reflexivity.
      + rewrite (bind_Exit S _ _ _ _ _ _ ev 1 Ht). right. reflexivity.
    - rewrite (bind_Return S _ _ _ _ _ _ _ _
                 (selectTurn_not_accepted S host _ filePath history _ Hacc)).
      assert (Hin : st_stdin st <> []).
      { apply nextLine_input. intros He. rewrite He in Hacc.
        rewrite (accepted_empty history Hne) in Hacc. discriminate Hacc. }
      specialize (Hnext Hin).
      destruct (st_stdin st) as [|piece more]; [congruence|].
      cbv beta iota. unfold outcome at 1 3. simpl snd. exact Hnext. }
  induction n as [|n IH]; intros st Hn; apply Hstep; intros Hin.
  - destruct (st_stdin st); [congruence | simpl in Hn; lia].
  - apply IH. pose proof (afterLine_pending S st Hin). lia.
Qed.

Lemma handleSingle_ends S (host : Host S) (filePath : string)
      (st : state S) :
  outcome (handleSingleRolloutFile host filePath st) = Return tt
  \/ outcome (handleSingleRolloutFile host filePath st) = Exit 1.
Proof.
  destruct (cmd_output host (st_host st) (logArgv filePath)) as [out|err]
    eqn:Hout.
  - rewrite (handleSingle_history_ok S host st filePath out Hout).
    apply (selectLoop_ends S host filePath (historyOf out)
             (Split_nonempty _ _) (pending (st_stdin st)) st).
    lia.
  - rewrite (handleSingle_history_err S host st filePath err Hout).
    right. reflexivity.
Qed.

Lemma selectTurn_starts_checkout S (host : Host S) (st : state S)
      (filePath : string) (history : list string) (input : string) (i : Z) :
  selectedIndex history input = Some i ->
  2 <= i <= Z.of_nat (List.length history) ->
  exists tail,
    events (selectTurn host filePath history input st)
    = Exec (checkoutArgv filePath (beforeComma (entry history i))) :: tail.
Proof.
  intros Hsel Hi.
  rewrite (selectTurn_rollback S host st filePath history input i Hsel Hi).
  destruct (rollbackToCommit_starts_checkout S host st filePath
              (beforeComma (entry history i))) as [t1 H1].
  destruct (events_bind_prefix S _ _
              (rollbackToCommit host filePath (beforeComma (entry history i)))
              (fun err =>
                 match err with
                 | Some e =>
                     print ("Error rolling back: " ++ e ++ nl) ;;; osExit 1
                 | None =>
                     print ("Successfully rolled back '" ++ filePath
                            ++ "' to commit "
                            ++ beforeComma (entry history i)
                            ++ "." ++ nl) ;;; ret Break
                 end) st) as [t2 H2].
  rewrite H2, H1. eexists. reflexivity.
Qed.

(** The loop on a text (the empty one at the end of the input) that
    selects an entry other than the first: the prompt, then the checkout of
    that entry. *)
Lemma selectLoop_starts_checkout S (host : Host S) (st : state S)
      (filePath : string) (history : list string) (i : Z) :
  selectedIndex history (nextLine st) = Some i ->
  2 <= i <= Z.of_nat (List.length history) ->
  exists tail,
    events (selectLoop host filePath history st)
    = Stdout (promptText (defaultIndexOf history))
        :: Exec (checkoutArgv filePath (beforeComma (entry history i)))
        :: tail.
Proof.
  intros Hsel Hi.
  rewrite selectLoop_eq, bind_print. events_of_triple.
  destruct (events_bind_prefix S _ _
              (selectTurn host filePath history (nextLine st))
              (fun t => match t with
                        | Break => ret tt
                        | Continue =>
                            match st_stdin st with
                            | [] => diverge
                            | _ :: _ => selectLoop host filePath history
                            end
                        end) (afterLine st)) as [t1 H1].
  rewrite H1.
  destruct (selectTurn_starts_checkout S host (afterLine st)
              filePath history (nextLine st) i Hsel Hi) as [t2 H2].
  rewrite H2. eexists. reflexivity.
Qed.

(** X3.  At the end of the input [handleSingleRolloutFile] goes on as if the
    operator had typed the empty line: with a single entry it reports that
    no rollback has been done; with two or more entries it checks out the
    file at the second entry without any line having been typed. *)
Theorem end_of_input_takes_default S (host : Host S) (st : state S)
        (filePath out : string) :
  st_stdin st = [] ->
  cmd_output host (st_host st) (logArgv filePath) = CmdOk out ->
  (List.length (historyOf out) = 1%nat ->
   handleSingleRolloutFile host filePath st
   = ((Exec (logArgv filePath) :: historyReport filePath (historyOf out)
       ++ [Stdout (promptText 1); Stdout (noRollbackText filePath)])%list,
      st, Return tt))
  /\ ((2 <= List.length (historyOf out))%nat ->
      exists tail,
        events (handleSingleRolloutFile host filePath st)
        = (Exec (logArgv filePath) :: historyReport filePath (historyOf out)
           ++ Stdout (promptText 2)
              :: Exec (checkoutArgv filePath
                         (beforeComma (entry (historyOf out) 2)))
              :: tail)%list).
Proof.
  intros Hin Hout.
  rewrite (handleSingle_history_ok S host st filePath out Hout).
  pose proof (nextLine_nil S st Hin) as Hnext.
  split; intros HL.
  - assert (Hd : defaultIndexOf (historyOf out) = 1).
    { rewrite defaultIndexOf_min, HL. reflexivity. }
    assert (Hsel : selectedIndex (historyOf out) (nextLine st) = Some 1).
    { rewrite Hnext, selectedIndex_empty, Hd. reflexivity. }
    rewrite (first_index_is_noop S host st filePath (historyOf out)
               ltac:(lia) Hsel).
    rewrite Hd, (afterLine_nil S st Hin). reflexivity.
  - assert (Hd : defaultIndexOf (historyOf out) = 2).
    { rewrite defaultIndexOf_min. lia. }
    assert (Hsel : selectedIndex (historyOf out) (nextLine st) = Some 2).
    { rewrite Hnext, selectedIndex_empty, Hd. reflexivity. }
    destruct (selectLoop_starts_checkout S host st filePath (historyOf out)
                2 Hsel ltac:(lia)) as [tail Ht].
    events_of_triple. rewrite Ht, Hd. exists tail. reflexivity.
Qed.

Lemma end_of_input_takes_default_witness :
  exists tail,
    events (handleSingleRolloutFile Repo.host "rollout.yaml"
              (mkState Scenario.repo []))
    = (Exec (logArgv "rollout.yaml")
         :: historyReport "rollout.yaml" (historyOf Scenario.logText)
         ++ Stdout (promptText 2)
            :: Exec (checkoutArgv "rollout.yaml" "abc000") :: tail)%list.
Proof.
  refine (proj2 (end_of_input_takes_default _ Repo.host
                   (mkState Scenario.repo []) "rollout.yaml"
                   Scenario.logText eq_refl eq_refl) _).
  simpl. lia.
Defined.

(** X4.  [handleSingleRolloutFile], once the history query has succeeded and
    the text its prompt reads selects entry 1: it prints the history and
    the prompt, reports that no rollback has been done and returns; the
    only command started is the history query, the repository is as before
    and the input is as the one scanner of the prompt left it.  When the
    first read delivers a line with its line feed (and more), that is the
    input after that read: what the read delivered after the line is lost
    with the scanner. *)
Theorem current_revision_left_alone S (host : Host S) (st : state S)
        (filePath out : string) :
  cmd_output host (st_host st) (logArgv filePath) = CmdOk out ->
  selectedIndex (historyOf out) (nextLine st) = Some 1 ->
  handleSingleRolloutFile host filePath st
  = ((Exec (logArgv filePath) :: historyReport filePath (historyOf out)
      ++ [Stdout (promptText (defaultIndexOf (historyOf out)));
          Stdout (noRollbackText filePath)])%list,
     afterLine st, Return tt)
  /\ (forall line more rest,
        st_stdin st = (line ++ nl ++ more) :: rest ->
        freeOf "010"%char line = true ->
        (len (line ++ nl ++ more) <= 4096)%N ->
        afterLine st = mkState (st_host st) rest).
Proof.
  intros Hout Hsel. split.
  - rewrite (handleSingle_history_ok S host st filePath out Hout).
    rewrite (first_index_is_noop S host st filePath (historyOf out)
               (Split_length _ _) Hsel).
    reflexivity.
  - intros line more rest Hin Hfree Hlen. unfold afterLine.
    rewrite Hin, (ScanText_first_line line more rest Hfree Hlen).
    reflexivity.
Qed.

Lemma current_revision_left_alone_witness :
  handleSingleRolloutFile Repo.host "rollout.yaml"
    (mkState Scenario.repo (Scenario.typed ["1"; "2"]))
  = ((Exec (logArgv "rollout.yaml")
        :: historyReport "rollout.yaml" (historyOf Scenario.logText)
        ++ [Stdout (promptText 2);
            Stdout (noRollbackText "rollout.yaml")])%list,
     mkState Scenario.repo (Scenario.typed ["2"]), Return tt).
Proof.
  exact (proj1 (current_revision_left_alone _ Repo.host
                  (mkState Scenario.repo (Scenario.typed ["1"; "2"]))
                  "rollout.yaml" Scenario.logText eq_refl eq_refl)).
Defined.

Lemma selectLoop_rollback_result S (host : Host S) (st : state S)
      (filePath : string) (history : list string) (i : Z)
      (ev : list event) (h : S) (err : option string) :
  selectedIndex history (nextLine st) = Some i ->
  2 <= i <= Z.of_nat (List.length history) ->
  rollbackToCommit host filePath (beforeComma (entry history i))
    (afterLine st)
  = (ev, mkState h (st_stdin (afterLine st)), Return err) ->
  selectLoop host filePath history st
  = ((Stdout (promptText (defaultIndexOf history)) :: ev
      ++ [Stdout (match err with
                  | Some e => "Error rolling back: " ++ e ++ nl
                  | None =>
                      "Successfully rolled back '" ++ filePath
                      ++ "' to commit " ++ beforeComma (entry history i)
                      ++ "." ++ nl
                  end)])%list,
     mkState h (st_stdin (afterLine st)),
     match err with Some _ => Exit 1 | None => Return tt end).
Proof.
  intros Hsel Hi Hr. rewrite selectLoop_eq, bind_print.
  destruct err as [e|].
  - assert (Hturn :
      selectTurn host filePath history (nextLine st) (afterLine st)
      = ((ev ++ [Stdout ("Error rolling back: " ++ e ++ nl)])%list,
         mkState h (st_stdin (afterLine st)), @Exit turn 1)).
    { rewrite (selectTurn_rollback S host _ filePath history _ i Hsel Hi).
      rewrite (bind_Return S _ _ _ _ _ _ ev (Some e) Hr). reflexivity. }
    rewrite (bind_Exit S _ _ _ _ _ _ _ _ Hturn). reflexivity.
  - assert (Hturn :
      selectTurn host filePath history (nextLine st) (afterLine st)
      = ((ev ++ [Stdout ("Successfully rolled back '" ++ filePath
                         ++ "' to commit " ++ beforeComma (entry history i)
                         ++ "." ++ nl)])%list,
         mkState h (st_stdin (afterLine st)), Return Break)).
    { rewrite (selectTurn_rollback S host _ filePath history _ i Hsel Hi).
      rewrite (bind_Return S _ _ _ _ _ _ ev None Hr). reflexivity. }
    rewrite (bind_Return S _ _ _ _ _ _ _ _ Hturn). simpl.
    rewrite app_nil_r. reflexivity.
Qed.

(** X5.  A rollback that succeeds, seen from [handleSingleRolloutFile]: for
    a prompt whose text selects an entry i in [2, L] whose checkout and
    commit both succeed, the function runs the history query, the checkout
    of the file at the identifier of entry i and the commit of that one
    path with the generated message, prints the success line and returns,
    with the repository as the two commands left it and the input as the
    one scanner of the prompt left it (after a first read that delivers a
    line, its line feed and more: the input after that read). *)
Theorem rollback_success_trace S (host : Host S) (st : state S)
        (filePath out : string) (i : Z) (h1 h2 : S) :
  cmd_output host (st_host st) (logArgv filePath) = CmdOk out ->
  selectedIndex (historyOf out) (nextLine st) = Some i ->
  2 <= i <= Z.of_nat (List.length (historyOf out)) ->
  cmd_run host (st_host st)
    (checkoutArgv filePath (beforeComma (entry (historyOf out) i)))
  = (h1, None) ->
  cmd_run host h1
    (commitArgv filePath (beforeComma (entry (historyOf out) i)))
  = (h2, None) ->
  handleSingleRolloutFile host filePath st
  = ((Exec (logArgv filePath) :: historyReport filePath (historyOf out)
      ++ [Stdout (promptText (defaultIndexOf (historyOf out)));
          Exec ["git"; "checkout"; beforeComma (entry (historyOf out) i);
                "--"; filePath];
          Exec ["git"; "commit"; "-m";
                ("Successfully rolled back '" ++ filePath ++ "' to commit "
                 ++ beforeComma (entry (historyOf out) i))%string;
                filePath];
          Stdout ("Successfully rolled back '" ++ filePath ++ "' to commit "
                  ++ beforeComma (entry (historyOf out) i) ++ "."
                  ++ nl)%string])%list,
     mkState h2 (st_stdin (afterLine st)), Return tt)
  /\ (forall line more rest,
        st_stdin st = (line ++ nl ++ more) :: rest ->
        freeOf "010"%char line = true ->
        (len (line ++ nl ++ more) <= 4096)%N ->
        st_stdin (afterLine st) = rest).
Proof.
  intros Hout Hsel Hi H1 H2. split.
  - rewrite (handleSingle_history_ok S host st filePath out Hout).
    rewrite (selectLoop_rollback_result S host st filePath (historyOf out)
               i _ h2 None Hsel Hi
               (rollbackToCommit_checkout_ok S host
                  (afterLine st) filePath
                  (beforeComma (entry (historyOf out) i)) h1 h2 None H1 H2)).
    reflexivity.
  - intros line more rest Hin Hfree Hlen. unfold afterLine.
    rewrite Hin, (ScanText_first_line line more rest Hfree Hlen).
    reflexivity.
Qed.

Lemma rollback_success_trace_witness :
  commands (events (handleSingleRolloutFile Repo.host "rollout.yaml"
                      (mkState Scenario.repo (Scenario.typed ["2"]))))
  = [logArgv "rollout.yaml";
     ["git"; "checkout"; "abc000"; "--"; "rollout.yaml"];
     ["git"; "commit"; "-m";
      "Successfully rolled back 'rollout.yaml' to commit abc000";
      "rollout.yaml"]].
Proof.
  refine (f_equal (fun x => commands (events x))
            (proj1 (rollback_success_trace _ Repo.host
                      (mkState Scenario.repo (Scenario.typed ["2"]))
                      "rollout.yaml" Scenario.logText 2 _ _
                      eq_refl eq_refl _ eq_refl eq_refl))).
  simpl. lia.
Defined.

(** X6.  A rollback that fails ends the process: when the checkout of the
    selected entry fails, the loop prints the checkout error and the process
    exits with status 1 without the commit having been started; when the
    checkout succeeds and the commit fails, it prints the commit error and
    exits with status 1 after those two commands.  No further prompt is
    shown and nothing more is read. *)
Theorem failed_rollback_exits S (host : Host S) (st : state S)
        (filePath : string) (history : list string) (i : Z) :
  selectedIndex history (nextLine st) = Some i ->
  2 <= i <= Z.of_nat (List.length history) ->
  (forall h1 e,
      cmd_run host (st_host st)
        (checkoutArgv filePath (beforeComma (entry history i)))
      = (h1, Some e) ->
      selectLoop host filePath history st
      = ([Stdout (promptText (defaultIndexOf history));
          Exec (checkoutArgv filePath (beforeComma (entry history i)));
          Stdout ("Error rolling back: failed to checkout commit: " ++ e
                  ++ nl)],
         mkState h1 (st_stdin (afterLine st)), Exit 1))
  /\ (forall h1 h2 e,
        cmd_run host (st_host st)
          (checkoutArgv filePath (beforeComma (entry history i)))
        = (h1, None) ->
        cmd_run host h1
          (commitArgv filePath (beforeComma (entry history i)))
        = (h2, Some e) ->
        selectLoop host filePath history st
        = ([Stdout (promptText (defaultIndexOf history));
            Exec (checkoutArgv filePath (beforeComma (entry history i)));
            Exec (commitArgv filePath (beforeComma (entry history i)));
            Stdout ("Error rolling back: failed to create commit: " ++ e
                    ++ nl)],
           mkState h2 (st_stdin (afterLine st)), Exit 1)).
Proof.
  intros Hsel Hi. split.
  - intros h1 e H1.
    rewrite (selectLoop_rollback_result S host st filePath history
               i _ h1 (Some ("failed to checkout commit: " ++ e)) Hsel Hi
               (rollbackToCommit_checkout_fails S host
                  (afterLine st) filePath
                  (beforeComma (entry history i)) h1 e H1)).
    reflexivity.
  - intros h1 h2 e H1 H2.
    exact (commit_failure_exits S host st filePath history i
             h1 h2 e Hsel Hi H1 H2).
Qed.

Lemma failed_rollback_exits_witness :
  selectLoop Repo.host "rollout.yaml" (historyOf Scenario.logText)
    (mkState Scenario.blocked (Scenario.typed ["2"; "1"]))
  = ([Stdout (promptText 2);
      Exec (checkoutArgv "rollout.yaml" "abc000");
      Exec (commitArgv "rollout.yaml" "abc000");
      Stdout ("Error rolling back: failed to create commit: exit status 1"
              ++ nl)],
     mkState (Repo.setWork Scenario.blocked
                [("rollout.yaml", "replicas: 1"); ("other.txt", "new")])
       (Scenario.typed ["1"]),
     Exit 1).
Proof.
  refine (proj2 (failed_rollback_exits _ Repo.host
                   (mkState Scenario.blocked (Scenario.typed ["2"; "1"]))
                   "rollout.yaml"
                   (historyOf Scenario.logText) 2 eq_refl _)
            _ _ "exit status 1" eq_refl eq_refl).
  simpl. lia.
Defined.

(** X23.  Every prompt reads through a scanner of its own, and what a
    scanner has read goes with it: when the first read delivers a line, its
    line feed and more (at most 4096 bytes in all, the first room a scanner
    offers) and the line is rejected, the loop prints the rejection and
    prompts again on the input that follows that read.  The bytes the read
    delivered after the line feed, later lines included, reach no prompt;
    when nothing follows the read, the next prompt is at the end of the
    input. *)
Theorem lines_after_the_first_are_lost S (host : Host S) (st : state S)
        (filePath : string) (history : list string) (line more : string)
        (rest : list string) :
  st_stdin st = (line ++ nl ++ more) :: rest ->
  freeOf "010"%char line = true ->
  (len (line ++ nl ++ more) <= 4096)%N ->
  rejected history (dropCR line) = true ->
  nextLine st = dropCR line
  /\ selectLoop host filePath history st
     = (Stdout (promptText (defaultIndexOf history)) :: Stdout invalidText
          :: events (selectLoop host filePath history
                       (mkState (st_host st) rest)),
        finalState (selectLoop host filePath history
                      (mkState (st_host st) rest)),
        outcome (selectLoop host filePath history
                   (mkState (st_host st) rest))).
Proof.
  intros Hin Hfree Hlen Hrej.
  assert (Hnext : nextLine st = dropCR line).
  { unfold nextLine.
    rewrite Hin, (ScanText_first_line line more rest Hfree Hlen).
    reflexivity. }
  assert (Hafter : afterLine st = mkState (st_host st) rest).
  { unfold afterLine.
    rewrite Hin, (ScanText_first_line line more rest Hfree Hlen).
    reflexivity. }
  split; [exact Hnext|].
  rewrite <- Hnext in Hrej.
  rewrite (selectLoop_rejected S host st filePath history Hrej), Hafter.
  reflexivity.
Qed.

(** The lines [x] and [1] through a pipe, in one read: after the rejection
    of [x] the loop is at the end of the input, where it takes the default
    and rolls back to entry 2. *)
Lemma lines_after_the_first_are_lost_witness :
  selectLoop Repo.host "rollout.yaml" (historyOf Scenario.logText)
    (mkState Scenario.repo (Scenario.piped ["x"; "1"]))
  = (Stdout (promptText 2) :: Stdout invalidText
       :: events (selectLoop Repo.host "rollout.yaml"
                    (historyOf Scenario.logText) (mkState Scenario.repo [])),
     finalState (selectLoop Repo.host "rollout.yaml"
                   (historyOf Scenario.logText) (mkState Scenario.repo [])),
     outcome (selectLoop Repo.host "rollout.yaml"
                (historyOf Scenario.logText) (mkState Scenario.repo []))).
Proof.
  refine (proj2 (lines_after_the_first_are_lost _ Repo.host
                   (mkState Scenario.repo (Scenario.piped ["x"; "1"]))
                   "rollout.yaml" (historyOf Scenario.logText)
                   "x" ("1" ++ nl) [] eq_refl eq_refl _ eq_refl)).
  vm_compute. discriminate.
Defined.

(** ** The directory flow as a whole *)

Lemma printFiles_events S (files : list string) (st : state S) :
  printFiles files st = (fileLines files, st, Return tt).
Proof.
  induction files as [|file rest IH]; [reflexivity|].
  simpl. rewrite bind_print, IH. reflexivity.
Qed.

(** The walker always answers, without output and without touching the
    state. *)
Lemma countRolloutFiles_answers S (host : Host S) (st : state S)
      (dirPath : string) :
  exists r, countRolloutFiles host dirPath st = ([], st, Return r)
            /\ (snd r = None
                \/ (fst r = [] /\ exists e, snd r = Some (OsError e))).
Proof.
  destruct (countRolloutFiles_spec S host st dirPath) as [Hok Hbad].
  destruct (readable (fs_tree host (st_host st) dirPath)).
  - eexists. split; [apply (Hok eq_refl)|]. left. reflexivity.
  - destruct (Hbad eq_refl) as [e He]. eexists. split; [exact He|].
    right. split; [reflexivity|]. exists e. reflexivity.
Qed.

Lemma handleDirectory_walk_failed S (host : Host S) (st : state S)
      (dirPath : string) (err : error) :
  countRolloutFiles host dirPath st = ([], st, Return ([], Some err)) ->
  handleDirectoryRolloutFiles host dirPath st
  = ([Stdout ("Error walking the directory: " ++ errorText err ++ nl)],
     st, Exit 1).
Proof.
  intros Hc. unfold handleDirectoryRolloutFiles.
  rewrite (bind_Return S _ _ _ _ st st [] _ Hc). reflexivity.
Qed.

Lemma handleDirectory_walked S (host : Host S) (st : state S)
      (dirPath : string) (files : list string) :
  countRolloutFiles host dirPath st = ([], st, Return (files, None)) ->
  handleDirectoryRolloutFiles host dirPath st
  = if saysYes (nextLine st)
    then ((directoryReport files ++ Stdout proceedingText
             :: events (handleEach host files (afterLine st)))%list,
          finalState (handleEach host files (afterLine st)),
          outcome (handleEach host files (afterLine st)))
    else ((directoryReport files ++ [Stdout abortedText])%list,
          afterLine st, Exit 0).
Proof.
  intros Hc. unfold handleDirectoryRolloutFiles.
  rewrite (bind_Return S _ _ _ _ st st [] _ Hc).
  cbv beta iota. rewrite bind_print.
  rewrite (bind_Return S _ _ _ _ st st _ tt (printFiles_events S files st)).
  rewrite bind_print.
  rewrite (bind_Return S _ _ _ _ st (afterLine st) [] _ (scanText_eq S st)).
  unfold saysYes, directoryReport.
  destruct (String.eqb (ToLower (nextLine st)) "yes");
    cbv beta iota delta [negb]; rewrite bind_print;
    cbn [events finalState outcome fst snd app osExit];
    rewrite <- app_assoc; reflexivity.
Qed.

Lemma commands_app (a b : list event) :
  commands (a ++ b) = (commands a ++ commands b)%list.
Proof.
  induction a as [|[text|argv] a IH]; simpl; [reflexivity|exact IH|].
  rewrite IH. reflexivity.
Qed.

(** The report of the directory flow is text only. *)
Lemma commands_directoryReport (files : list string) :
  commands (directoryReport files) = [].
Proof.
  unfold directoryReport. simpl. rewrite commands_app. simpl.
  rewrite app_nil_r. unfold fileLines.
  induction files as [|f fs IH]; [reflexivity | exact IH].
Qed.

(** A tree has an entry that cannot be read exactly when it has a first
    one. *)
Lemma firstFailure_readable (node : fsnode) :
  firstFailure node = None <-> readable node = true.
Proof.
  induction node as [name err|name|name readErr entries IH]
    using fsnode_nested_ind.
  - split; discriminate.
  - split; reflexivity.
  - destruct readErr as [e|]; [split; discriminate|].
    simpl. induction IH as [|e es He Hes IHes]; [split; reflexivity|].
    simpl. destruct (firstFailure e) as [x|].
    + destruct (readable e); [|split; discriminate].
      destruct He as [_ He]. discriminate (He eq_refl).
    + destruct He as [He _]. rewrite (He eq_refl). exact IHes.
Qed.

(** The walk with the collecting callback ends with the error of the first
    entry that cannot be read. *)
Lemma walkNames_first_failure (Join : string -> string -> string)
      (path : string) (es : list fsnode) (e : string) :
  Forall (fun node =>
            forall p files x,
              firstFailure node = Some x ->
              exists files',
                walk Join collectRollout p node files
                = (files', Some (OsError x))) es ->
  forall files : list string,
    firstSome (map firstFailure es) = Some e ->
    exists files',
      walkNames Join collectRollout (walk Join collectRollout) path es files
      = (files', Some (OsError e)).
Proof.
  induction 1 as [|node es Hnode Hes IH]; intros files Hf; [discriminate|].
  simpl in Hf. destruct (firstFailure node) as [x|] eqn:Hx.
  - injection Hf as ->.
    destruct (Hnode (Join path (nodeName node)) files e eq_refl)
      as [files' Hw].
    exists files'.
    apply (walkNames_stop _ Join collectRollout path node es files files' e
             Hw).
  - apply firstFailure_readable in Hx.
    destruct (walk_collects Join node (Join path (nodeName node)) files)
      as [Hok _].
    rewrite (walkNames_next _ Join collectRollout path node es files _ Hx
               (Hok Hx)).
    apply IH. exact Hf.
Qed.

Lemma walk_first_failure (Join : string -> string -> string)
      (node : fsnode) :
  forall (path : string) (files : list string) (e : string),
    firstFailure node = Some e ->
    exists files',
      walk Join collectRollout path node files = (files', Some (OsError e)).
Proof.
  induction node as [name err|name|name readErr entries IH]
    using fsnode_nested_ind; intros path files e Hf.
  - injection Hf as ->. exists files. reflexivity.
  - discriminate Hf.
  - destruct readErr as [x|].
    + injection Hf as ->. exists files. reflexivity.
    + change (walk Join collectRollout path (Dir name None entries) files)
        with (walkNames Join collectRollout (walk Join collectRollout) path
                entries files).
      apply (walkNames_first_failure Join path entries e IH files Hf).
Qed.

Lemma countRolloutFiles_first_failure S (host : Host S) (st : state S)
      (dirPath e : string) :
  firstFailure (fs_tree host (st_host st) dirPath) = Some e ->
  countRolloutFiles host dirPath st = ([], st, Return ([], Some (OsError e))).
Proof.
  intros Hf. unfold countRolloutFiles, Walk.
  destruct (walk_first_failure (path_join host)
              (fs_tree host (st_host st) dirPath) dirPath [] e Hf)
    as [files' Hw].
  rewrite Hw. reflexivity.
Qed.

(** X7.  When the walk meets an entry it cannot read, the directory flow
    prints the error of the first such entry and the process exits with
    status 1: no file is listed (not even those found before the unreadable
    entry), no question is asked, nothing is read from the input and no
    command is started.  A tree that is not readable throughout has such an
    entry. *)
Theorem walk_failure_ends_directory_flow S (host : Host S) (st : state S)
        (dirPath e : string) :
  firstFailure (fs_tree host (st_host st) dirPath) = Some e ->
  handleDirectoryRolloutFiles host dirPath st
  = ([Stdout ("Error walking the directory: " ++ e ++ nl)], st, Exit 1)
  /\ readable (fs_tree host (st_host st) dirPath) = false.
Proof.
  intros Hf. split.
  - apply (handleDirectory_walk_failed S host st dirPath (OsError e)).
    apply countRolloutFiles_first_failure. exact Hf.
  - destruct (readable (fs_tree host (st_host st) dirPath)) eqn:Hr;
      [|reflexivity].
    apply firstFailure_readable in Hr. rewrite Hr in Hf. discriminate Hf.
Qed.

Lemma walk_failure_ends_directory_flow_witness :
  handleDirectoryRolloutFiles Repo.host "deploy"
    (mkState Scenario.withLocked (Scenario.typed ["yes"]))
  = ([Stdout ("Error walking the directory: "
              ++ "open deploy/secret: permission denied" ++ nl)],
     mkState Scenario.withLocked (Scenario.typed ["yes"]), Exit 1).
Proof.
  exact (proj1 (walk_failure_ends_directory_flow _ Repo.host
                  (mkState Scenario.withLocked (Scenario.typed ["yes"]))
                  "deploy" "open deploy/secret: permission denied"
                  eq_refl)).
Defined.

(** X8.  Unless the operator's answer is [yes] (in any case of its letters),
    the directory flow stops after its report: it has printed the number of
    rollout files found, their paths in the order of the walk and the
    question, it prints that the operation was aborted and the process
    exits with status 0; no command has been started and the repository is
    untouched, however many files were found. *)
Theorem declined_batch_changes_nothing S (host : Host S) (st : state S)
        (dirPath : string) :
  readable (fs_tree host (st_host st) dirPath) = true ->
  saysYes (nextLine st) = false ->
  handleDirectoryRolloutFiles host dirPath st
  = ((directoryReport
        (rolloutFilesOf (path_join host) dirPath
           (fs_tree host (st_host st) dirPath))
      ++ [Stdout abortedText])%list,
     afterLine st, Exit 0)
  /\ commands (events (handleDirectoryRolloutFiles host dirPath st)) = [].
Proof.
  intros Hr Hno.
  destruct (countRolloutFiles_spec S host st dirPath) as [Hok _].
  rewrite (handleDirectory_walked S host st dirPath _ (Hok Hr)), Hno.
  split; [reflexivity|].
  events_of_triple. rewrite commands_app, commands_directoryReport.
  reflexivity.
Qed.

Lemma declined_batch_changes_nothing_witness :
  handleDirectoryRolloutFiles Repo.host "deploy"
    (mkState Scenario.withTrees (Scenario.typed ["nope"; "2"]))
  = ([Stdout (foundText 4);
      Stdout ("deploy/Rollout.YAML" ++ nl);
      Stdout ("deploy/prod/eu/rollout.yaml" ++ nl);
      Stdout ("deploy/prod/rollout.yaml" ++ nl);
      Stdout ("deploy/rollout.yaml" ++ nl);
      Stdout (confirmText 4); Stdout abortedText],
     mkState Scenario.withTrees (Scenario.typed ["2"]), Exit 0).
Proof.
  exact (proj1 (declined_batch_changes_nothing _ Repo.host
                  (mkState Scenario.withTrees (Scenario.typed ["nope"; "2"]))
                  "deploy" eq_refl eq_refl)).
Defined.

(** X9.  When the walk finds no rollout file (an empty directory, for
    one), the directory flow still reports the count 0 and asks its
    question; whatever the answer it starts no command, and the command
    ends with status 0. *)
Theorem empty_batch_still_asks S (host : Host S) (st : state S)
        (dirPath : string) :
  readable (fs_tree host (st_host st) dirPath) = true ->
  rolloutFilesOf (path_join host) dirPath (fs_tree host (st_host st) dirPath)
  = [] ->
  handleDirectoryRolloutFiles host dirPath st
  = ([Stdout (foundText 0); Stdout (confirmText 0);
      Stdout (if saysYes (nextLine st) then proceedingText else abortedText)],
     afterLine st,
     if saysYes (nextLine st) then Return tt else Exit 0)
  /\ exitStatus (outcome (handleDirectoryRolloutFiles host dirPath st))
     = Some 0.
Proof.
  intros Hr Hnone.
  destruct (countRolloutFiles_spec S host st dirPath) as [Hok _].
  specialize (Hok Hr). rewrite Hnone in Hok.
  rewrite (handleDirectory_no_files S host st dirPath Hok).
  split; [reflexivity|].
  destruct (saysYes (nextLine st)); reflexivity.
Qed.

Lemma empty_batch_still_asks_witness :
  handleDirectoryRolloutFiles Repo.host "empty"
    (mkState Scenario.emptyDir (Scenario.typed ["yes"]))
  = ([Stdout (foundText 0); Stdout (confirmText 0); Stdout proceedingText],
     mkState Scenario.emptyDir [], Return tt).
Proof.
  exact (proj1 (empty_batch_still_asks _ Repo.host
                  (mkState Scenario.emptyDir (Scenario.typed ["yes"]))
                  "empty" eq_refl eq_refl)).
Defined.

Lemma bind_assoc S A B C (m : Prog S A) (k : A -> Prog S B)
      (k' : B -> Prog S C) (st : state S) :
  bind (bind m k) k' st = bind m (fun a => bind (k a) k') st.
Proof.
  unfold bind. destruct (m st) as [[ev1 st1] [a|c|]]; [|reflexivity..].
  destruct (k a st1) as [[ev2 st2] [b|c|]]; [|reflexivity..].
  destruct (k' b st2) as [[ev3 st3] r]. rewrite app_assoc. reflexivity.
Qed.

Lemma bind_ext S A B (m : Prog S A) (k k' : A -> Prog S B) (st : state S) :
  (forall a st', k a st' = k' a st') -> bind m k st = bind m k' st.
Proof.
  intros H. unfold bind. destruct (m st) as [[ev1 st1] [a|c|]];
    [rewrite H|..]; reflexivity.
Qed.

(** The loop over the files of a batch handles a list of files followed by
    another as the first list, then the second. *)
Lemma handleEach_app S (host : Host S) (a b : list string) :
  forall st : state S,
    handleEach host (a ++ b) st
    = bind (handleEach host a) (fun _ => handleEach host b) st.
Proof.
  induction a as [|f a IH]; intros st.
  - simpl app. simpl handleEach at 2. rewrite bind_ret. reflexivity.
  - change (handleEach host ((f :: a) ++ b))
      with (bind (handleSingleRolloutFile host f)
              (fun _ => handleEach host (a ++ b))).
    change (handleEach host (f :: a))
      with (bind (handleSingleRolloutFile host f)
              (fun _ => handleEach host a)).
    rewrite bind_assoc. apply bind_ext. intros _ st'. apply IH.
Qed.

(** X10.  The files of a batch are handled one after the other in the order
    of the walk, each from the input the scanners before it have left, and
    a file whose flow ends the process ends the batch: when the files
    before it have been handled and its own flow exits (its history cannot
    be read, or its rollback fails), the directory flow ends there with
    that status, and nothing is printed, asked or started for the files
    after it. *)
Theorem batch_stops_at_first_exit S (host : Host S) (st st1 st2 : state S)
        (dirPath file : string) (before after : list string)
        (ev1 ev2 : list event) (code : Z) :
  readable (fs_tree host (st_host st) dirPath) = true ->
  rolloutFilesOf (path_join host) dirPath (fs_tree host (st_host st) dirPath)
  = (before ++ file :: after)%list ->
  saysYes (nextLine st) = true ->
  handleEach host before (afterLine st) = (ev1, st1, Return tt) ->
  handleSingleRolloutFile host file st1 = (ev2, st2, Exit code) ->
  handleDirectoryRolloutFiles host dirPath st
  = ((directoryReport (before ++ file :: after)
      ++ Stdout proceedingText :: ev1 ++ ev2)%list,
     st2, Exit code).
Proof.
  intros Hr Hfiles Hyes Hbefore Hfile.
  destruct (countRolloutFiles_spec S host st dirPath) as [Hok _].
  specialize (Hok Hr). rewrite Hfiles in Hok.
  rewrite (handleDirectory_walked S host st dirPath _ Hok), Hyes.
  rewrite handleEach_app.
  rewrite (bind_Return S _ _ _ _ _ _ _ _ Hbefore).
  change (handleEach host (file :: after))
    with (bind (handleSingleRolloutFile host file)
            (fun _ => handleEach host after)).
  rewrite (bind_Exit S _ _ _ _ _ _ _ _ Hfile).
  reflexivity.
Qed.

(** On a terminal, in a repository whose hook refuses every commit: the
    operator agrees, keeps the first file and selects entry 2 for the
    second; the failed commit ends the process, and the line typed for the
    third file is never read. *)
Lemma batch_stops_at_first_exit_witness :
  commands (events (handleDirectoryRolloutFiles Repo.host "deploy"
                      (mkState Scenario.batchBlocked
                         (Scenario.typed ["yes"; "1"; "2"; "2"]))))
  = [logArgv "deploy/Rollout.YAML"; logArgv "deploy/prod/eu/rollout.yaml";
     ["git"; "checkout"; "abc000"; "--"; "deploy/prod/eu/rollout.yaml"];
     ["git"; "commit"; "-m";
      "Successfully rolled back 'deploy/prod/eu/rollout.yaml' to commit abc000";
      "deploy/prod/eu/rollout.yaml"]]
  /\ outcome (handleDirectoryRolloutFiles Repo.host "deploy"
                (mkState Scenario.batchBlocked
                   (Scenario.typed ["yes"; "1"; "2"; "2"])))
     = Exit 1
  /\ st_stdin (finalState (handleDirectoryRolloutFiles Repo.host "deploy"
                             (mkState Scenario.batchBlocked
                                (Scenario.typed ["yes"; "1"; "2"; "2"]))))
     = Scenario.typed ["2"].
Proof.
  rewrite (batch_stops_at_first_exit _ Repo.host
             (mkState Scenario.batchBlocked
                (Scenario.typed ["yes"; "1"; "2"; "2"]))
             (mkState Scenario.batchBlocked (Scenario.typed ["2"; "2"]))
             (finalState (handleSingleRolloutFile Repo.host
                            "deploy/prod/eu/rollout.yaml"
                            (mkState Scenario.batchBlocked
                               (Scenario.typed ["2"; "2"]))))
             "deploy" "deploy/prod/eu/rollout.yaml"
             ["deploy/Rollout.YAML"]
             ["deploy/prod/rollout.yaml"; "deploy/rollout.yaml"]
             (events (handleEach Repo.host ["deploy/Rollout.YAML"]
                        (mkState Scenario.batchBlocked
                           (Scenario.typed ["1"; "2"; "2"]))))
             (events (handleSingleRolloutFile Repo.host
                        "deploy/prod/eu/rollout.yaml"
                        (mkState Scenario.batchBlocked
                           (Scenario.typed ["2"; "2"]))))
             1 eq_refl eq_refl eq_refl eq_refl eq_refl).
  repeat split.
Defined.

(** ** The command always ends *)

Lemma outcome_bind S A B (m : Prog S A) (k : A -> Prog S B) (st : state S) :
  (exists ev st1 a,
      m st = (ev, st1, Return a)
      /\ outcome (bind m k st) = outcome (k a st1))
  \/ (exists c, outcome (m st) = Exit c /\ outcome (bind m k st) = Exit c)
  \/ (outcome (m st) = Diverge /\ outcome (bind m k st) = Diverge).
Proof.
  unfold bind, outcome. destruct (m st) as [[ev st1] [a|c|]].
  - left. exists ev, st1, a. split; [reflexivity|].
    destruct (k a st1) as [[ev2 st2] r]. reflexivity.
  - right. left. exists c. split; reflexivity.
  - right. right. split; reflexivity.
Qed.

Lemma handleEach_ends S (host : Host S) (files : list string) :
  forall st : state S,
    outcome (handleEach host files st) = Return tt
    \/ outcome (handleEach host files st) = Exit 1.
Proof.
  induction files as [|f rest IH]; intros st; [left; reflexivity|].
  change (handleEach host (f :: rest))
    with (bind (handleSingleRolloutFile host f)
            (fun _ => handleEach host rest)).
  destruct (outcome_bind S _ _ (handleSingleRolloutFile host f)
              (fun _ => handleEach host rest) st)
    as [(ev & st1 & a & _ & Ho)|[(c & Hc & Ho)|[Hd _]]].
  - rewrite Ho. apply IH.
  - destruct (handleSingle_ends S host f st) as [He|He];
      rewrite He in Hc; [discriminate|].
    injection Hc as <-. right. exact Ho.
  - destruct (handleSingle_ends S host f st) as [He|He];
      rewrite He in Hd; discriminate.
Qed.

Lemma handleDirectory_ends S (host : Host S) (dirPath : string)
      (st : state S) :
  exitStatus (outcome (handleDirectoryRolloutFiles host dirPath st)) = Some 0
  \/ exitStatus (outcome (handleDirectoryRolloutFiles host dirPath st))
     = Some 1.
Proof.
  destruct (countRolloutFiles_answers S host st dirPath)
    as ([files err] & Hc & [Hnone|[Hnil [e He]]]); simpl in *; subst.
  - rewrite (handleDirectory_walked S host st dirPath files Hc).
    destruct (saysYes (nextLine st)); [|left; reflexivity].
    unfold outcome at 1 3. simpl snd.
    destruct (handleEach_ends S host files (afterLine st)) as [H|H];
      rewrite H; [left|right]; reflexivity.
  - rewrite (handleDirectory_walk_failed S host st dirPath _ Hc).
    right. reflexivity.
Qed.

Lemma Run_missing S (host : Host S) (st : state S) (inputPath : string) :
  pathExists host st inputPath = false ->
  Run host inputPath st
  = ([Stdout ("The path '" ++ inputPath ++ "' does not exist." ++ nl)],
     st, Exit 1).
Proof.
  unfold pathExists, Run. intros Hex.
  rewrite (bind_Return S _ _ (osStat host inputPath) _ st st []
             (os_stat host (st_host st) inputPath) eq_refl).
  destruct (os_stat host (st_host st) inputPath); try discriminate.
  reflexivity.
Qed.

(** X11.  On every host, path and finite input, [Run] ends, and the exit
    status of the process is 0 or 1.  In particular the prompt cannot be
    repeated for ever: every history has at least one entry, so at the end
    of the input the default index is accepted. *)
Theorem run_always_ends S (host : Host S) (st : state S)
        (inputPath : string) :
  exitStatus (outcome (Run host inputPath st)) = Some 0
  \/ exitStatus (outcome (Run host inputPath st)) = Some 1.
Proof.
  destruct (pathExists host st inputPath) eqn:Hex.
  - destruct (guardPasses host st) eqn:Hg.
    + rewrite (Run_dispatch S host st inputPath Hex Hg).
      unfold outcome at 1 3. simpl snd. unfold flowFor.
      destruct (HasSuffix inputPath targetName).
      * destruct (handleSingle_ends S host inputPath st) as [H|H];
          rewrite H; [left|right]; reflexivity.
      * apply handleDirectory_ends.
    + destruct (isGitRepo_fails S host st Hg)
        as (ev & ok & b & err & Hf & _).
      rewrite (Run_guarded S host st inputPath ev ok b err Hex Hf).
      right. reflexivity.
  - rewrite (Run_missing S host st inputPath Hex). right. reflexivity.
Qed.

(** X12.  When the path ends in [rollout.yaml] and the history query fails,
    [Run] prints the error of the query after the two queries of the
    guard and the process exits with status 1: no prompt is shown, no line
    of input is read, and nothing is checked out or committed. *)
Theorem history_failure_ends_run S (host : Host S) (st : state S)
        (inputPath err : string) :
  pathExists host st inputPath = true ->
  guardPasses host st = true ->
  HasSuffix inputPath targetName = true ->
  cmd_output host (st_host st) (logArgv inputPath) = CmdErr err ->
  Run host inputPath st
  = ([Exec revParseArgv; Exec branchArgv; Exec (logArgv inputPath);
      Stdout ("Error: failed to retrieve git history: " ++ err ++ nl)],
     st, Exit 1).
Proof.
  intros Hex Hg Hsuf Hout.
  rewrite (Run_dispatch S host st inputPath Hex Hg).
  unfold flowFor. rewrite Hsuf.
  rewrite (handleSingle_history_err S host st inputPath err Hout).
  reflexivity.
Qed.

Lemma history_failure_ends_run_witness :
  Run Repo.host "deploy/rollout.yaml" (mkState Scenario.unlogged ["2"])
  = ([Exec revParseArgv; Exec branchArgv;
      Exec (logArgv "deploy/rollout.yaml");
      Stdout ("Error: failed to retrieve git history: exit status 128"
              ++ nl)],
     mkState Scenario.unlogged ["2"], Exit 1).
Proof.
  exact (history_failure_ends_run _ Repo.host
           (mkState Scenario.unlogged ["2"]) "deploy/rollout.yaml"
           "exit status 128" eq_refl eq_refl eq_refl eq_refl).
Defined.

(** ** The walkers of the two commands *)

(** X13.  On a tree all of whose entries can be read, [countRolloutFiles]
    returns, in the order of the walk, the paths of exactly the visited
    entries that are not directories and whose name is [rollout.yaml] up to
    the case of its letters; it prints nothing and changes nothing. *)
Theorem walker_returns_rollout_files S (host : Host S) (st : state S)
        (dirPath : string) :
  readable (fs_tree host (st_host st) dirPath) = true ->
  countRolloutFiles host dirPath st
  = ([], st,
     Return (map fst
               (filter isRolloutFile
                  (visited (path_join host) dirPath
                     (fs_tree host (st_host st) dirPath))), None))
  /\ (forall path,
        In path (rolloutFilesOf (path_join host) dirPath
                   (fs_tree host (st_host st) dirPath))
        <-> exists name,
              In (path, mkFileInfo name false)
                 (visited (path_join host) dirPath
                    (fs_tree host (st_host st) dirPath))
              /\ ToLower name = targetName).
Proof.
  intros Hr.
  destruct (countRolloutFiles_spec S host st dirPath) as [Hok _].
  split; [exact (Hok Hr)|].
  intros path. unfold rolloutFilesOf. rewrite in_map_iff. split.
  - intros ([p [name isdir]] & Hp & Hin). simpl in Hp. subst p.
    apply filter_In in Hin. destruct Hin as [Hin Hw].
    unfold isRolloutFile in Hw. simpl in Hw.
    apply andb_prop in Hw. destruct Hw as [Hd Hn].
    apply negb_true_iff in Hd. subst isdir.
    exists name. split; [exact Hin|]. apply String.eqb_eq. exact Hn.
  - intros (name & Hin & Hn).
    exists (path, mkFileInfo name false). split; [reflexivity|].
    apply filter_In. split; [exact Hin|].
    unfold isRolloutFile. simpl. apply String.eqb_eq. exact Hn.
Qed.

Lemma walker_returns_rollout_files_witness :
  countRolloutFiles Repo.host "deploy" (mkState Scenario.withTrees ["x"])
  = ([], mkState Scenario.withTrees ["x"],
     Return (["deploy/Rollout.YAML"; "deploy/prod/eu/rollout.yaml";
              "deploy/prod/rollout.yaml"; "deploy/rollout.yaml"], None)).
Proof.
  exact (proj1 (walker_returns_rollout_files _ Repo.host
                  (mkState Scenario.withTrees ["x"]) "deploy" eq_refl)).
Defined.

(** A walk with a callback that only folds its state visits a readable tree
    entry by entry, in the order of [visited]. *)
Lemma walkNames_folds St (Join : string -> string -> string)
      (fn : WalkFunc St) (step : string -> FileInfo -> St -> St)
      (path : string) (es : list fsnode) :
  Forall (fun node =>
            forall p st,
              readable node = true ->
              walk Join fn p node st
              = (fold_left (fun s e => step (fst e) (snd e) s)
                   (visited Join p node) st, None)) es ->
  forallb readable es = true ->
  forall st,
    walkNames Join fn (walk Join fn) path es st
    = (fold_left (fun s e => step (fst e) (snd e) s)
         (flat_map (fun e => visited Join (Join path (nodeName e)) e) es) st,
       None).
Proof.
  induction 1 as [|e es He Hes IH]; intros Hall st; [reflexivity|].
  simpl in Hall. apply andb_prop in Hall. destruct Hall as [Hr Hall].
  rewrite (walkNames_next St Join fn path e es st _ Hr
             (He (Join path (nodeName e)) st Hr)).
  simpl flat_map. rewrite fold_left_app. apply (IH Hall).
Qed.

Lemma walk_folds St (Join : string -> string -> string)
      (fn : WalkFunc St) (step : string -> FileInfo -> St -> St) :
  folding fn step ->
  forall node path st,
    readable node = true ->
    walk Join fn path node st
    = (fold_left (fun s e => step (fst e) (snd e) s)
         (visited Join path node) st, None).
Proof.
  intros [Hvisit Hfail].
  induction node as [name err|name|name readErr entries IH]
    using fsnode_nested_ind; intros path st Hr.
  - discriminate Hr.
  - simpl. apply Hvisit.
  - destruct readErr as [e|]; [discriminate Hr|]. simpl in Hr.
    simpl walk. rewrite Hvisit.
    rewrite (walkNames_folds St Join fn step path entries IH Hr).
    reflexivity.
Qed.

Lemma countNamed_folding :
  folding Legacy.countNamed
    (fun _ info count =>
       if EqualFold (Name info) targetName then count + 1 else count).
Proof.
  split; [|reflexivity]. intros path info count. unfold Legacy.countNamed.
  destruct (EqualFold (Name info) targetName); reflexivity.
Qed.

Lemma fold_count (l : list (string * FileInfo)) :
  forall count : Z,
    fold_left
      (fun s e =>
         if EqualFold (Name (snd e)) targetName then s + 1 else s) l count
    = count + Z.of_nat (List.length (filter isNamedRollout l)).
Proof.
  induction l as [|e l IH]; intros count; simpl; [lia|].
  rewrite IH. unfold isNamedRollout at 2.
  rewrite <- EqualFold_targetName.
  destruct (EqualFold (Name (snd e)) targetName); simpl List.length; lia.
Qed.

Lemma named_split (l : list (string * FileInfo)) :
  List.length (filter isNamedRollout l)
  = (List.length (filter isRolloutFile l)
     + List.length (filter (fun e => IsDir (snd e) && isNamedRollout e) l))%nat.
Proof.
  induction l as [|e l IH]; [reflexivity|].
  simpl. unfold isRolloutFile at 1. fold (isNamedRollout e).
  destruct (IsDir (snd e)), (isNamedRollout e); simpl; lia.
Qed.

(** X14.  The walk of [src/main.go] on a tree all of whose entries can be
    read counts every visited entry, directory or not, whose name is
    [rollout.yaml] up to the case of its letters: its count is the number of
    files [countRolloutFiles] of [src/unnamed/part_001] returns for the same
    tree plus the number of directories so named. *)
Theorem legacy_count_is_files_plus_directories S (host : Host S)
        (st : state S) (inputPath : string) :
  readable (fs_tree host (st_host st) inputPath) = true ->
  Legacy.walkCount host inputPath st
  = ([], st,
     Return
       (Z.of_nat
          (List.length
             (rolloutFilesOf (path_join host) inputPath
                (fs_tree host (st_host st) inputPath))
           + List.length
               (filter (fun e => IsDir (snd e) && isNamedRollout e)
                  (visited (path_join host) inputPath
                     (fs_tree host (st_host st) inputPath)))),
        None)).
Proof.
  intros Hr. unfold Legacy.walkCount, Walk.
  rewrite (walk_folds Z (path_join host) Legacy.countNamed _
             countNamed_folding _ inputPath 0 Hr).
  rewrite fold_count, named_split. unfold rolloutFilesOf.
  rewrite length_map. reflexivity.
Qed.

Lemma legacy_count_is_files_plus_directories_witness :
  Legacy.walkCount Repo.host "charts" (mkState Scenario.withTrees [])
  = ([], mkState Scenario.withTrees [], Return (Z.of_nat (0 + 1), None)).
Proof.
  exact (legacy_count_is_files_plus_directories _ Repo.host
           (mkState Scenario.withTrees []) "charts" eq_refl).
Defined.

(** ** The two older commands *)

Lemma Cli_Run_exists S (host : Host S) (st : state S) (inputPath : string) :
  pathExists host st inputPath = true ->
  Cli.Run host inputPath st
  = bind (isGitRepo host)
      (fun r =>
         match r with
         | (_, _, Some err) => print ("Error: " ++ err ++ nl) ;;; osExit 1
         | (_, _, None) =>
             if HasSuffix inputPath targetName
             then
               r <- Cli.getFileGitHistory host inputPath ;;
               match r with
               | (_, Some err) => print ("Error: " ++ err ++ nl) ;;; osExit 1
               | (history, None) => Cli.selectLoop host inputPath history
               end
             else print ("The file is not named 'rollout.yaml'." ++ nl)
         end) st.
Proof.
  unfold pathExists, Cli.Run. intros Hex.
  rewrite (bind_Return S _ _ (osStat host inputPath) _ st st []
             (os_stat host (st_host st) inputPath) eq_refl).
  destruct (os_stat host (st_host st) inputPath); try discriminate;
    apply triple_eta.
Qed.

Lemma Legacy_Run_exists S (host : Host S) (st : state S)
      (inputPath : string) :
  pathExists host st inputPath = true ->
  Legacy.Run host inputPath st
  = bind (isGitRepo host)
      (fun r =>
         match r with
         | (_, _, Some err) => print ("Error: " ++ err ++ nl) ;;; osExit 1
         | (_, _, None) =>
             match os_stat host (st_host st) inputPath with
             | StatInfo true => Legacy.directoryBranch host inputPath
             | StatInfo false => Legacy.fileBranch host inputPath
             | _ => osExit 2
             end
         end) st.
Proof.
  unfold pathExists, Legacy.Run. intros Hex.
  rewrite (bind_Return S _ _ (osStat host inputPath) _ st st []
             (os_stat host (st_host st) inputPath) eq_refl).
  destruct (os_stat host (st_host st) inputPath); try discriminate;
    apply triple_eta.
Qed.

(** X15.  The guard is the same in the two older commands: with the path
    existing, the work-tree query answering true and master, develop or main
    checked out, [rollbackCmd.Run] of [src/unnamed/part_000] and of
    [src/main.go] print the protected-branch error after the two queries
    and the process exits with status 1, the state untouched. *)
Theorem older_commands_refuse_protected S (host : Host S) (st : state S)
        (inputPath b : string) :
  pathExists host st inputPath = true ->
  insideWorkTree host st = true ->
  currentBranch host st = Some b ->
  In b protectedBranches ->
  Cli.Run host inputPath st
  = ([Exec revParseArgv; Exec branchArgv;
      Stdout ("Error: " ++ protectedError b ++ nl)], st, Exit 1)
  /\ Legacy.Run host inputPath st
     = ([Exec revParseArgv; Exec branchArgv;
         Stdout ("Error: " ++ protectedError b ++ nl)], st, Exit 1).
Proof.
  intros Hex Hin Hb Hprot.
  pose proof (isGitRepo_protected S host st b Hin Hb Hprot) as Hg.
  split.
  - rewrite (Cli_Run_exists S host st inputPath Hex).
    rewrite (bind_Return S _ _ _ _ st st _ _ Hg). reflexivity.
  - rewrite (Legacy_Run_exists S host st inputPath Hex).
    rewrite (bind_Return S _ _ _ _ st st _ _ Hg). reflexivity.
Qed.

Lemma older_commands_refuse_protected_witness :
  Cli.Run Repo.host "rollout.yaml" (mkState Scenario.onMain ["2"])
  = ([Exec revParseArgv; Exec branchArgv;
      Stdout ("Error: current branch 'main' is a protected branch" ++ nl)],
     mkState Scenario.onMain ["2"], Exit 1)
  /\ Legacy.Run Repo.host "rollout.yaml" (mkState Scenario.onMain ["2"])
     = ([Exec revParseArgv; Exec branchArgv;
         Stdout ("Error: current branch 'main' is a protected branch"
                 ++ nl)],
        mkState Scenario.onMain ["2"], Exit 1).
Proof.
  refine (older_commands_refuse_protected _ Repo.host
            (mkState Scenario.onMain ["2"]) "rollout.yaml" "main"
            eq_refl eq_refl eq_refl _).
  simpl. auto.
Defined.

(** X16.  [rollbackCmd.Run] of [src/unnamed/part_000] on an existing path
    that does not end in [rollout.yaml], file or directory alike: once the
    guard has passed it prints that the file is not named [rollout.yaml]
    and returns (exit status 0); it queries no history, reads no input and
    starts no other command. *)
Theorem cli_unmatched_path_reported S (host : Host S) (st : state S)
        (inputPath : string) :
  pathExists host st inputPath = true ->
  guardPasses host st = true ->
  HasSuffix inputPath targetName = false ->
  Cli.Run host inputPath st
  = ([Exec revParseArgv; Exec branchArgv; Stdout notNamedText], st,
     Return tt).
Proof.
  intros Hex Hg Hsuf.
  destruct (isGitRepo_pass S host st Hg) as [b Hb].
  rewrite (Cli_Run_exists S host st inputPath Hex).
  rewrite (bind_Return S _ _ _ _ st st guardEvents _ Hb).
  cbv beta iota. rewrite Hsuf. reflexivity.
Qed.

Lemma cli_unmatched_path_reported_witness :
  Cli.Run Repo.host "deploy" (mkState Scenario.withTrees ["yes"])
  = ([Exec revParseArgv; Exec branchArgv; Stdout notNamedText],
     mkState Scenario.withTrees ["yes"], Return tt).
Proof.
  exact (cli_unmatched_path_reported _ Repo.host
           (mkState Scenario.withTrees ["yes"]) "deploy"
           eq_refl eq_refl eq_refl).
Defined.

(** X17.  [rollbackCmd.Run] of [src/main.go] on an existing file whose path
    does not end in [rollout.yaml]: once the guard has passed it prints that
    the path is a file and that the file is not named [rollout.yaml], and
    returns (exit status 0) without any further command or input. *)
Theorem legacy_unmatched_file_reported S (host : Host S) (st : state S)
        (inputPath : string) :
  os_stat host (st_host st) inputPath = StatInfo false ->
  guardPasses host st = true ->
  HasSuffix inputPath targetName = false ->
  Legacy.Run host inputPath st
  = ([Exec revParseArgv; Exec branchArgv;
      Stdout ("The path '" ++ inputPath ++ "' exists and is a file." ++ nl);
      Stdout notNamedText], st, Return tt).
Proof.
  intros Hstat Hg Hsuf.
  destruct (isGitRepo_pass S host st Hg) as [b Hb].
  assert (Hex : pathExists host st inputPath = true)
    by (unfold pathExists; rewrite Hstat; reflexivity).
  rewrite (Legacy_Run_exists S host st inputPath Hex).
  rewrite (bind_Return S _ _ _ _ st st guardEvents _ Hb).
  cbv beta iota. rewrite Hstat. unfold Legacy.fileBranch.
  rewrite bind_print, Hsuf. reflexivity.
Qed.

Lemma legacy_unmatched_file_reported_witness :
  Legacy.Run Repo.host "Rollout.YAML" (mkState Scenario.withTrees ["yes"])
  = ([Exec revParseArgv; Exec branchArgv;
      Stdout ("The path '" ++ "Rollout.YAML" ++ "' exists and is a file."
              ++ nl);
      Stdout notNamedText],
     mkState Scenario.withTrees ["yes"], Return tt).
Proof.
  exact (legacy_unmatched_file_reported _ Repo.host
           (mkState Scenario.withTrees ["yes"]) "Rollout.YAML"
           eq_refl eq_refl eq_refl).
Defined.

Lemma Cli_printHistory_quiet S (history : list string) :
  forall (i : Z) (st : state S),
    exists ev,
      Cli.printHistory i history st = (ev, st, Return tt) /\ noMutation ev.
Proof.
  induction history as [|line rest IH]; intros i st.
  - exists []. split; reflexivity.
  - destruct (IH (i + 1) st) as (ev & Hev & Hq).
    exists (Stdout (Itoa (i + 1) ++ ". " ++ line ++ nl) :: ev).
    split; [|exact Hq].
    simpl. rewrite bind_print, Hev. reflexivity.
Qed.

Lemma Legacy_directoryBranch_quiet S (host : Host S) (st : state S)
      (inputPath : string) :
  noMutation (events (Legacy.directoryBranch host inputPath st))
  /\ st_host (finalState (Legacy.directoryBranch host inputPath st))
     = st_host st.
Proof.
  unfold Legacy.directoryBranch. rewrite bind_print.
  rewrite (bind_Return S _ _ (Legacy.walkCount host inputPath) _ st st [] _
             eq_refl).
  destruct (Walk (path_join host) Legacy.countNamed inputPath
              (fs_tree host (st_host st) inputPath) 0) as [count [err|]].
  - split; reflexivity.
  - rewrite !bind_print.
    rewrite (bind_Return S _ _ _ _ st (afterLine st) [] _ (scanText_eq S st)).
    destruct (negb (String.eqb (ToLower (nextLine st)) "yes"));
      split; reflexivity.
Qed.

Lemma Legacy_fileBranch_quiet S (host : Host S) (st : state S)
      (inputPath : string) :
  noMutation (events (Legacy.fileBranch host inputPath st))
  /\ st_host (finalState (Legacy.fileBranch host inputPath st)) = st_host st.
Proof.
  unfold Legacy.fileBranch. rewrite bind_print.
  destruct (HasSuffix inputPath targetName); [|split; reflexivity].
  unfold Legacy.getFileGitHistory.
  destruct (cmd_output host (st_host st) (logArgv inputPath)) as [out|err]
    eqn:Hout.
  - destruct (Cli_printHistory_quiet S (Split (TrimSpace out) "010"%char) 0 st)
      as (ev & Hev & Hq).
    rewrite bind_assoc.
    rewrite (bind_Return S _ _ (cmdOutput host (logArgv inputPath)) _ st st
               [Exec (logArgv inputPath)] (CmdOk out));
      [|unfold cmdOutput; rewrite Hout; reflexivity].
    cbv beta iota. rewrite bind_assoc, bind_print, bind_assoc.
    rewrite (bind_Return S _ _ _ _ st st ev tt Hev).
    rewrite !bind_ret. cbn [events finalState outcome fst snd ret].
    split; [|reflexivity].
    change (noMutation ([Stdout ("Git history for '" ++ inputPath ++ "':"
                                 ++ nl)] ++ (ev ++ []))).
    apply noMutation_app; [reflexivity|].
    rewrite app_nil_r. exact Hq.
  - rewrite bind_assoc.
    rewrite (bind_Return S _ _ (cmdOutput host (logArgv inputPath)) _ st st
               [Exec (logArgv inputPath)] (CmdErr err));
      [|unfold cmdOutput; rewrite Hout; reflexivity].
    split; reflexivity.
Qed.

(** X18.  [rollbackCmd.Run] of [src/main.go] only inspects: for every host,
    path and input it starts no checkout and no commit, and it leaves the
    repository as it found it. *)
Theorem legacy_run_is_read_only S (host : Host S) (st : state S)
        (inputPath : string) :
  noMutation (events (Legacy.Run host inputPath st))
  /\ st_host (finalState (Legacy.Run host inputPath st)) = st_host st.
Proof.
  destruct (pathExists host st inputPath) eqn:Hex.
  - rewrite (Legacy_Run_exists S host st inputPath Hex).
    destruct (isGitRepo_readonly S host st) as (ev & [[ok b] o] & Hg & Hq).
    rewrite (bind_Return S _ _ _ _ st st ev _ Hg).
    cbn [events finalState outcome fst snd].
    destruct o as [err|].
    + split; [|reflexivity].
      apply noMutation_app; [exact Hq | reflexivity].
    + destruct (os_stat host (st_host st) inputPath) as [[|]| |e].
      * destruct (Legacy_directoryBranch_quiet S host st inputPath)
          as [Hm Hs].
        split; [apply noMutation_app; assumption | exact Hs].
      * destruct (Legacy_fileBranch_quiet S host st inputPath) as [Hm Hs].
        split; [apply noMutation_app; assumption | exact Hs].
      * split; [apply noMutation_app; [exact Hq | reflexivity]
               | reflexivity].
      * split; [apply noMutation_app; [exact Hq | reflexivity]
               | reflexivity].
  - unfold pathExists in Hex. unfold Legacy.Run.
    rewrite (bind_Return S _ _ (osStat host inputPath) _ st st []
               (os_stat host (st_host st) inputPath) eq_refl).
    destruct (os_stat host (st_host st) inputPath); try discriminate.
    split; reflexivity.
Qed.

(** ** The history as text: lines and identifiers *)

Lemma concat_cons_nonempty (sep x : string) (l : list string) :
  l <> [] -> String.concat sep (x :: l) = x ++ sep ++ String.concat sep l.
Proof. destruct l; [congruence | reflexivity]. Qed.

(** Splitting at a byte and joining with that byte gives the text back, and
    no piece contains the byte. *)
Lemma Split_join (sep : ascii) (s : string) :
  String.concat (String sep EmptyString) (Split s sep) = s
  /\ Forall (fun piece => freeOf sep piece = true) (Split s sep).
Proof.
  induction s as [|c s IH].
  - split; [reflexivity | repeat constructor].
  - destruct IH as [IHj IHf].
    simpl Split. destruct (Ascii.eqb_spec c sep) as [->|Hne].
    + split.
      * rewrite (concat_cons_nonempty _ _ _ (Split_nonempty s sep)), IHj.
        reflexivity.
      * constructor; [reflexivity | exact IHf].
    + pose proof (Split_nonempty s sep) as Hn.
      destruct (Split s sep) as [|p ps]; [congruence|].
      apply Forall_cons_iff in IHf. destruct IHf as [Hp Hps].
      split.
      * destruct ps as [|q ps]; simpl in *; rewrite <- IHj; reflexivity.
      * constructor; [|exact Hps].
        simpl. rewrite Hp.
        destruct (Ascii.eqb_spec c sep); [congruence | reflexivity].
Qed.

Lemma historyLines_length (history : list string) :
  forall i : Z, List.length (historyLines i history) = List.length history.
Proof.
  induction history as [|line rest IH]; intros i; [reflexivity|].
  simpl. rewrite IH. reflexivity.
Qed.

(** X19.  When the log command succeeds, the history [getFileGitHistory]
    returns is the trimmed output cut at its line feeds: no entry contains a
    line feed, the entries joined by line feeds are the trimmed output
    again, and one numbered line is printed per entry after the heading. *)
Theorem history_is_the_output_by_lines S (host : Host S) (st : state S)
        (filePath out : string) :
  cmd_output host (st_host st) (logArgv filePath) = CmdOk out ->
  exists history,
    getFileGitHistory host filePath st
    = (Exec (logArgv filePath) :: historyReport filePath history, st,
       Return (history, None))
    /\ String.concat nl history = TrimSpace out
    /\ Forall (fun line => freeOf "010"%char line = true) history
    /\ List.length (historyReport filePath history)
       = Datatypes.S (List.length history).
Proof.
  intros Hout. exists (historyOf out).
  split; [exact (getFileGitHistory_ok S host st filePath out Hout)|].
  destruct (Split_join "010"%char (TrimSpace out)) as [Hj Hf].
  split; [exact Hj|]. split; [exact Hf|].
  unfold historyReport. simpl. rewrite historyLines_length. reflexivity.
Qed.

Lemma history_is_the_output_by_lines_witness :
  exists history,
    getFileGitHistory Repo.host "rollout.yaml" (mkState Scenario.repo [])
    = (Exec (logArgv "rollout.yaml") :: historyReport "rollout.yaml" history,
       mkState Scenario.repo [], Return (history, None))
    /\ String.concat nl history = TrimSpace Scenario.logText
    /\ Forall (fun line => freeOf "010"%char line = true) history
    /\ List.length (historyReport "rollout.yaml" history)
       = Datatypes.S (List.length history).
Proof.
  exact (history_is_the_output_by_lines _ Repo.host
           (mkState Scenario.repo []) "rollout.yaml" Scenario.logText
           eq_refl).
Defined.

Lemma beforeComma_free (s : string) : freeOf ","%char (beforeComma s) = true.
Proof.
  induction s as [|c s IH]; [reflexivity|]. simpl.
  destruct (Ascii.eqb c ","%char) eqn:Hc; [reflexivity|].
  simpl. rewrite Hc, IH. reflexivity.
Qed.

Lemma beforeComma_prefix (hash rest : string) :
  freeOf ","%char hash = true ->
  beforeComma (hash ++ String ","%char rest) = hash.
Proof.
  induction hash as [|c hash IH]; intros Hf; simpl.
  - reflexivity.
  - simpl in Hf. apply andb_prop in Hf. destruct Hf as [Hc Hf].
    apply negb_true_iff in Hc. rewrite Hc, (IH Hf). reflexivity.
Qed.

(** X20.  The identifier handed to the checkout is the short hash of the
    selected entry: for an entry of the form [<hash>,<rest>] whose hash has
    no comma (the format of the log query puts the abbreviated hash first),
    a prompt whose text selects that entry makes the loop start
    [git checkout <hash> -- <file>]; and whatever the entry, the identifier
    never contains a comma. *)
Theorem checkout_gets_the_short_hash S (host : Host S) (st : state S)
        (filePath : string) (history : list string) (i : Z)
        (hash tail : string) :
  selectedIndex history (nextLine st) = Some i ->
  2 <= i <= Z.of_nat (List.length history) ->
  entry history i = hash ++ String ","%char tail ->
  freeOf ","%char hash = true ->
  (exists more,
      events (selectLoop host filePath history st)
      = Stdout (promptText (defaultIndexOf history))
          :: Exec ["git"; "checkout"; hash; "--"; filePath] :: more)
  /\ (forall line, freeOf ","%char (hd EmptyString (Split line ","%char))
                   = true).
Proof.
  intros Hsel Hi Hentry Hfree. split.
  - destruct (selectLoop_starts_checkout S host st filePath history
                i Hsel Hi) as [more Hm].
    rewrite Hentry, (beforeComma_prefix hash tail Hfree) in Hm.
    exists more. exact Hm.
  - intros line. rewrite hd_Split_beforeComma. apply beforeComma_free.
Qed.

Lemma checkout_gets_the_short_hash_witness :
  exists more,
    events (selectLoop Repo.host "rollout.yaml"
              (historyOf Scenario.logText)
              (mkState Scenario.repo (Scenario.typed ["2"])))
    = Stdout (promptText 2)
        :: Exec ["git"; "checkout"; "abc000"; "--"; "rollout.yaml"] :: more.
Proof.
  refine (proj1 (checkout_gets_the_short_hash _ Repo.host
                   (mkState Scenario.repo (Scenario.typed ["2"]))
                   "rollout.yaml"
                   (historyOf Scenario.logText) 2 "abc000"
                   " Bob, 2023-12-31 09:00:00, initial"
                   eq_refl _ eq_refl eq_refl)).
  simpl. lia.
Defined.

(** ** Which paths and which answers are taken *)

Lemma substring_all (s : string) : substring 0 (String.length s) s = s.
Proof.
  induction s as [|c s IH]; simpl; [reflexivity | rewrite IH; reflexivity].
Qed.

Lemma substring_skip (p s : string) (m : nat) :
  substring (String.length p) m (p ++ s) = substring 0 m s.
Proof. induction p as [|c p IH]; simpl; [reflexivity | exact IH]. Qed.

Lemma substring_cut (s : string) :
  forall n : nat,
    (n <= String.length s)%nat ->
    s = substring 0 n s ++ substring n (String.length s - n) s.
Proof.
  induction s as [|c s IH]; intros n Hn.
  - simpl in Hn. assert (n = 0%nat) by lia. subst n. reflexivity.
  - destruct n as [|n].
    + simpl. rewrite substring_all. reflexivity.
    + simpl in Hn. simpl. rewrite <- (IH n); [reflexivity | lia].
Qed.

(** [strings.HasSuffix(s, suffix)] holds exactly when [s] is some text
    followed by [suffix]. *)
Lemma HasSuffix_iff (s suffix : string) :
  HasSuffix s suffix = true <-> exists prefix, s = prefix ++ suffix.
Proof.
  unfold HasSuffix. split.
  - intros H. apply andb_prop in H. destruct H as [Hlen Heq].
    apply Nat.leb_le in Hlen. apply String.eqb_eq in Heq.
    exists (substring 0 (String.length s - String.length suffix) s).
    pose proof (substring_cut s (String.length s - String.length suffix)
                  ltac:(lia)) as Hcut.
    replace (String.length s - (String.length s - String.length suffix))%nat
      with (String.length suffix) in Hcut by lia.
    rewrite Heq in Hcut. exact Hcut.
  - intros [prefix ->]. rewrite length_app_string.
    apply andb_true_intro. split; [apply Nat.leb_le; lia|].
    replace (String.length prefix + String.length suffix
             - String.length suffix)%nat
      with (String.length prefix) by lia.
    rewrite substring_skip, substring_all. apply String.eqb_refl.
Qed.

(** X21.  What decides between the two flows is the text of the path: once
    the path exists and the guard has passed, [Run] takes the single-file
    flow for every path that is some text followed by [rollout.yaml] (a file
    named [my-rollout.yaml] as much as a directory [old-rollout.yaml]), and
    the directory flow for every other path. *)
Theorem path_text_decides_flow S (host : Host S) (st : state S)
        (inputPath : string) :
  pathExists host st inputPath = true ->
  guardPasses host st = true ->
  ((exists prefix, inputPath = prefix ++ "rollout.yaml") ->
   Run host inputPath st
   = ((guardEvents
       ++ events (handleSingleRolloutFile host inputPath st))%list,
      finalState (handleSingleRolloutFile host inputPath st),
      outcome (handleSingleRolloutFile host inputPath st)))
  /\ ((forall prefix, inputPath <> prefix ++ "rollout.yaml") ->
      Run host inputPath st
      = ((guardEvents
          ++ events (handleDirectoryRolloutFiles host inputPath st))%list,
         finalState (handleDirectoryRolloutFiles host inputPath st),
         outcome (handleDirectoryRolloutFiles host inputPath st))).
Proof.
  intros Hex Hg. rewrite (Run_dispatch S host st inputPath Hex Hg).
  unfold flowFor. split.
  - intros Hp. apply (HasSuffix_iff inputPath targetName) in Hp.
    rewrite Hp. reflexivity.
  - intros Hp. destruct (HasSuffix inputPath targetName) eqn:Hs;
      [|reflexivity].
    apply (HasSuffix_iff inputPath targetName) in Hs.
    destruct Hs as [prefix Hs]. elim (Hp prefix Hs).
Qed.

Lemma path_text_decides_flow_witness :
  Run Repo.host "old-rollout.yaml" (mkState Scenario.withTrees ["1"])
  = ((guardEvents
      ++ events (handleSingleRolloutFile Repo.host "old-rollout.yaml"
                   (mkState Scenario.withTrees ["1"])))%list,
     finalState (handleSingleRolloutFile Repo.host "old-rollout.yaml"
                   (mkState Scenario.withTrees ["1"])),
     outcome (handleSingleRolloutFile Repo.host "old-rollout.yaml"
                (mkState Scenario.withTrees ["1"]))).
Proof.
  exact (proj1 (path_text_decides_flow _ Repo.host
                  (mkState Scenario.withTrees ["1"]) "old-rollout.yaml"
                  eq_refl eq_refl)
               (ex_intro _ "old-" eq_refl)).
Defined.

(** Lowering a byte gives [b] only from [b] itself or from the byte 32
    below it. *)
Lemma lowerByte_inv (a b : ascii) :
  lowerByte a = b ->
  a = b \/ a = ascii_of_nat (nat_of_ascii b - 32).
Proof.
  assert (Hall :
    forallb (fun x =>
      Ascii.eqb x (lowerByte x)
      || Ascii.eqb x (ascii_of_nat (nat_of_ascii (lowerByte x) - 32)))
      (map ascii_of_nat (seq 0 256)) = true) by (vm_compute; reflexivity).
  intros <-. rewrite forallb_forall in Hall.
  specialize (Hall a (all_ascii a)). apply orb_prop in Hall.
  destruct Hall as [H|H]; apply Ascii.eqb_eq in H; [left | right]; exact H.
Qed.

(** X22.  The batch goes ahead on the answer [yes] in any case of its
    letters and on nothing else: not on [y], not on an answer with a space
    around it, not on the empty answer. *)
Theorem confirmation_needs_yes (response : string) :
  saysYes response = true
  <-> In response
         ["yes"; "yeS"; "yEs"; "yES"; "Yes"; "YeS"; "YEs"; "YES"].
Proof.
  split.
  - unfold saysYes. intros H. apply String.eqb_eq in H.
    destruct response as [|a [|b [|c [|d r]]]]; try discriminate H.
    simpl in H. injection H as Ha Hb Hc.
    apply lowerByte_inv in Ha. apply lowerByte_inv in Hb.
    apply lowerByte_inv in Hc. simpl in Ha, Hb, Hc.
    destruct Ha as [-> | ->], Hb as [-> | ->], Hc as [-> | ->];
      simpl; tauto.
  - intros H. simpl in H.
    repeat (destruct H as [<- | H]; [reflexivity|]). destruct H.
Qed.
